(** * Heading and title inference of [heading_extractor.py]

    A shallow embedding of the class [HeadingExtractor]: the pattern and
    keyword predicates, the document statistics, the heading score, the
    candidate admission, the level classification, the title selection,
    and a store model of the objects the two public methods touch.

    Modelling choices.
    - A Python [str] is a [list ascii]; the character classes used by
      [strip], [split], [lower], [isupper], [isdigit] and by the regular
      expressions are those of Python on ASCII code points.  Code points
      from 128 on are carried through unchanged and belong to no class.
    - [font_size], [x_position] and [y_position] are Python floats read
      from the input.  They are held as the rationals [Q] they denote:
      every finite binary64 value is a rational and the comparisons
      [<], [==] of the source agree with those of [Q] on them.
    - The arithmetic on them is binary64 arithmetic, done with the
      primitive floats of Rocq: the sum of the font sizes is taken from
      the left, one addition and one rounding per block, as the loop of
      [sum] in CPython up to 3.11 does (later versions add a correction
      term to the sum, which shows when a partial sum is rounded), then
      divided by the number of blocks; the product by [1.2] is rounded,
      and the font size of a block is compared with it as a float.
    - The heading score is a sum of float literals.  It is modelled with
      the binary64 primitive floats of Rocq, in the order of the source,
      so that the sums and the comparison with [0.3] are those of
      CPython.
    - A block is first a record with all the keys the extractor reads.
      The module [Dicts] at the end has the blocks as dictionaries that
      may lack a key, and the methods with the [KeyError] they raise
      then; on blocks with all their keys the two agree. *)

From Stdlib Require Import List Ascii String Bool Arith ZArith QArith Lia.
From Stdlib Require Import PrimFloat Uint63 Sorted Lqa.
From stdpp Require Import base list.
Import ListNotations.

Set Warnings "-inexact-float".

Close Scope Q_scope.
Local Open Scope nat_scope.
Local Open Scope bool_scope.
Local Open Scope list_scope.

(** ** Characters *)

Module Chars.

Definition code (c : ascii) : nat := nat_of_ascii c.

Definition in_range (lo hi : ascii) (c : ascii) : bool :=
  (code lo <=? code c) && (code c <=? code hi).

(** [\d] of [re], and [str.isdigit], on ASCII. *)
Definition is_digit (c : ascii) : bool := in_range "0" "9" c.

(** [str.isspace], also [\s] of [re] on [str] patterns: TAB, LF, VT,
    FF, CR, the four separators 28..31 and the blank. *)
Definition is_space (c : ascii) : bool :=
  let n := code c in
  ((9 <=? n) && (n <=? 13)) || ((28 <=? n) && (n <=? 32)).

Definition is_upper (c : ascii) : bool := in_range "A" "Z" c.
Definition is_lower (c : ascii) : bool := in_range "a" "z" c.
Definition is_alpha (c : ascii) : bool := is_upper c || is_lower c.

Definition to_lower (c : ascii) : ascii :=
  if is_upper c then ascii_of_nat (code c + 32) else c.

Definition to_upper (c : ascii) : ascii :=
  if is_lower c then ascii_of_nat (code c - 32) else c.

Definition eqb (a b : ascii) : bool := Ascii.eqb a b.

End Chars.

(** ** Strings: the methods of [str] used by the extractor *)

Definition str := list ascii.

Module Str.
Import Chars.

(** A string literal as a [str]. *)
Definition lit (s : string) : str := list_ascii_of_string s.

Fixpoint lstrip (s : str) : str :=
  match s with
  | c :: r => if is_space c then lstrip r else s
  | [] => []
  end.

Definition rstrip (s : str) : str := rev (lstrip (rev s)).

(** [s.strip()] *)
Definition strip (s : str) : str := rstrip (lstrip s).

(** [s.lower()] *)
Definition lower (s : str) : str := map to_lower s.

(** [s.startswith(p)] *)
Fixpoint startswith (p s : str) : bool :=
  match p, s with
  | [], _ => true
  | a :: p', b :: s' => eqb a b && startswith p' s'
  | _ :: _, [] => false
  end.

(** [s.endswith(p)] *)
Definition endswith (p s : str) : bool := startswith (rev p) (rev s).

(** [sub in s] *)
Fixpoint contains (sub s : str) : bool :=
  startswith sub s ||
  match s with
  | [] => false
  | _ :: r => contains sub r
  end.

(** [s.split()]: the maximal runs of non-space characters.  [cur] is
    the run being read, most recent character first. *)
Fixpoint split_from (cur : str) (s : str) : list str :=
  match s with
  | [] => match cur with [] => [] | _ => [rev cur] end
  | c :: r =>
      if is_space c
      then match cur with
           | [] => split_from [] r
           | _ => rev cur :: split_from [] r
           end
      else split_from (c :: cur) r
  end.

Definition split (s : str) : list str := split_from [] s.

(** [sep.join(ws)] *)
Fixpoint join (sep : str) (ws : list str) : str :=
  match ws with
  | [] => []
  | [w] => w
  | w :: rest => w ++ sep ++ join sep rest
  end.

(** [s.isupper()]: some cased character, and no lowercase one. *)
Definition isupper (s : str) : bool :=
  existsb is_upper s && negb (existsb is_lower s).

(** [s.isdigit()] *)
Definition isdigit (s : str) : bool :=
  match s with
  | [] => false
  | _ => forallb is_digit s
  end.

(** [s[n:]] *)
Definition from (n : nat) (s : str) : str := skipn n s.

End Str.

(** ** Regular expressions: the fragment of [re] the source patterns use *)

Module Re.
Import Chars.

(** A single-character matcher: a literal, or a class or set. *)
Inductive atom : Type :=
| Chr (c : ascii)
| Cls (p : ascii -> bool).

(** [\d], [\s], [[A-Z]], [[A-Z\s]], [[IVX]], [[a-z]]. *)
Definition digit : atom := Cls is_digit.
Definition space : atom := Cls is_space.
Definition AZ : atom := Cls is_upper.
Definition AZ_space : atom := Cls (fun c => is_upper c || is_space c).
Definition IVX : atom :=
  Cls (fun c => eqb c "I" || eqb c "V" || eqb c "X").
Definition az : atom := Cls is_lower.

Inductive item : Type :=
| One (a : atom)              (* a        *)
| Opt (a : atom)              (* a?       *)
| Rep (n : nat) (a : atom)    (* a{n,} ; a+ is Rep 1, a* is Rep 0 *)
| Eol.                        (* $        *)

(** A pattern: whether it is written with a leading [^], and the
    items after it. *)
Record regex : Type := { bol : bool; items : list item }.

(** One character against an atom.  Under [re.IGNORECASE] a character
    matches when it, its lowercase or its uppercase form does. *)
Definition atom_ok (ic : bool) (a : atom) (c : ascii) : bool :=
  match a with
  | Chr c0 =>
      if ic then eqb (to_lower c0) (to_lower c) else eqb c0 c
  | Cls p =>
      if ic then p c || p (to_lower c) || p (to_upper c) else p c
  end.

(** [a{n,}] followed by the continuation [k], longest repetition
    first. *)
Fixpoint rep (ok : ascii -> bool) (n : nat) (k : str -> bool)
         (s : str) : bool :=
  match s with
  | c :: s' =>
      if ok c
      then rep ok (pred n) k s' || ((n =? 0) && k s)
      else (n =? 0) && k s
  | [] => (n =? 0) && k []
  end.

(** [$]: at the end, or just before a final line feed. *)
Definition at_eol (s : str) : bool :=
  match s with
  | [] => true
  | [c] => eqb c "010"
  | _ => false
  end.

(** Does some prefix of [s] match the items? *)
Fixpoint match_items (ic : bool) (its : list item) (s : str) : bool :=
  match its with
  | [] => true
  | One a :: r =>
      match s with
      | c :: s' => atom_ok ic a c && match_items ic r s'
      | [] => false
      end
  | Opt a :: r =>
      match s with
      | c :: s' => (atom_ok ic a c && match_items ic r s')
                   || match_items ic r s
      | [] => match_items ic r s
      end
  | Rep n a :: r => rep (atom_ok ic a) n (match_items ic r) s
  | Eol :: r => at_eol s && match_items ic r s
  end.

(** [re.match(p, s, flags)] as a truth value.  [re.match] tries the
    pattern at position 0 only, so a pattern matches there whether or
    not it is written with a leading [^]. *)
Definition re_match (ic : bool) (p : regex) (s : str) : bool :=
  match_items ic (items p) s.

(** [re.search(p, s)] as a truth value, for comparison: every start
    position is tried, position 0 only under a leading [^]. *)
Fixpoint search_from (ic : bool) (its : list item) (s : str) : bool :=
  match_items ic its s ||
  match s with
  | [] => false
  | _ :: r => search_from ic its r
  end.

Definition re_search (ic : bool) (p : regex) (s : str) : bool :=
  if bol p then match_items ic (items p) s
  else search_from ic (items p) s.

(** Items of a literal word. *)
Definition word (w : string) : list item :=
  map (fun c => One (Chr c)) (list_ascii_of_string w).

End Re.

(** ** Data model *)

(** A text block of a page, with the keys the extractor reads. *)
Record block : Type := {
  text : str;
  font_size : Q;
  is_bold : bool;
  x_position : Q;
  y_position : Q;
  b_page_number : option Z   (* the optional key ['page_number'] *)
}.

(** A page: its 1-based number and its blocks in reading order. *)
Record page : Type := {
  page_number : Z;
  text_blocks : list block
}.

(** The dictionary of [_get_doc_stats].  A key that is absent is [None]. *)
Record doc_stats : Type := {
  avg_font_size : option float;
  max_font_size : option Q;
  min_font_size : option Q;
  total_blocks : option nat
}.

(** A potential heading, as built by [_extract_page_headings]. *)
Record candidate : Type := {
  h_text : str;
  h_page : Z;
  h_font_size : Q;
  h_is_bold : bool;
  h_y_position : Q;
  h_x_position : Q;
  h_heading_score : float;
  h_has_numbering : bool;
  h_matches_pattern : bool;
  h_contains_keywords : bool
}.

(** A candidate after [_classify_headings] has set its ['level']. *)
Record classified : Type := {
  c_cand : candidate;
  c_level : string
}.

(** An entry of the outline. *)
Record heading : Type := {
  level : string;
  o_text : str;
  o_page : Z
}.

(** An entry of [title_candidates]. *)
Record title_candidate : Type := {
  t_text : str;
  t_font_size : Q;
  t_is_bold : bool;
  t_y_position : Q;
  t_page_number : Z
}.

(** Comparisons of rationals as truth values. *)
Definition Qltb (a b : Q) : bool := negb (Qle_bool b a).
Definition Qleb (a b : Q) : bool := Qle_bool a b.
Definition Qeqb (a b : Q) : bool := Qeq_bool a b.

(** ** The extractor *)

Module HeadingExtractor.
Import Chars Str Re.

(** [self.heading_patterns] *)
Definition heading_patterns : list regex :=
  [ {| bol := true; items := [Rep 1 digit; Opt (Chr "."); Rep 1 space] |};
    {| bol := true;
       items := [Rep 1 digit; One (Chr "."); Rep 1 digit; Opt (Chr ".");
                 Rep 1 space] |};
    {| bol := true;
       items := [Rep 1 digit; One (Chr "."); Rep 1 digit; One (Chr ".");
                 Rep 1 digit; Opt (Chr "."); Rep 1 space] |};
    {| bol := true; items := [One AZ; Rep 2 AZ_space; Eol] |};
    {| bol := true; items := [Rep 1 IVX; Opt (Chr "."); Rep 1 space] |};
    {| bol := true; items := [One AZ; Opt (Chr "."); Rep 1 space] |};
    {| bol := true;
       items := [One (Chr "("); One az; One (Chr ")"); Rep 1 space] |};
    {| bol := true; items := word "Chapter" ++ [Rep 1 space; Rep 1 digit] |};
    {| bol := true; items := word "Section" ++ [Rep 1 space; Rep 1 digit] |};
    {| bol := true; items := word "Part" ++ [Rep 1 space; Rep 1 IVX] |} ].

(** [self.heading_keywords] *)
Definition heading_keywords : list str :=
  map lit
    [ "introduction"; "conclusion"; "abstract"; "summary"; "overview";
      "background"; "methodology"; "results"; "discussion"; "references";
      "acknowledgments"; "appendix"; "chapter"; "section"; "part";
      "table of contents"; "executive summary"; "literature review" ]%string.

(** The three numbering patterns of [_classify_headings], also the first
    three of [heading_patterns]. *)
Definition numbering1 : regex :=
  {| bol := true; items := [Rep 1 digit; Opt (Chr "."); Rep 1 space] |}.
Definition numbering2 : regex :=
  {| bol := true;
     items := [Rep 1 digit; One (Chr "."); Rep 1 digit; Opt (Chr ".");
               Rep 1 space] |}.
Definition numbering3 : regex :=
  {| bol := true;
     items := [Rep 1 digit; One (Chr "."); Rep 1 digit; One (Chr ".");
               Rep 1 digit; Opt (Chr "."); Rep 1 space] |}.

(** [_matches_heading_pattern]: the first pattern that matches, case
    ignored, ends the loop. *)
Fixpoint matches_any (ps : list regex) (t : str) : bool :=
  match ps with
  | [] => false
  | p :: rest => if re_match true p t then true else matches_any rest t
  end.

Definition _matches_heading_pattern (t : str) : bool :=
  matches_any heading_patterns t.

(** [_has_numbering] *)
Definition _has_numbering (t : str) : bool := re_match false numbering1 t.

(** [_contains_heading_keywords] *)
Definition _contains_heading_keywords (t : str) : bool :=
  let text_lower := lower t in
  existsb (fun keyword => contains keyword text_lower) heading_keywords.

(** Python's [int] to [float] conversion, on counts. *)
Definition float_of_nat (n : nat) : float :=
  PrimFloat.of_uint63 (Uint63.of_Z (Z.of_nat n)).

(** The loop of [_is_title_case] counting the title words. *)
Fixpoint count_title_words (words : list str) (title_words : nat) : nat :=
  match words with
  | [] => title_words
  | w :: rest =>
      match w with
      | c :: _ =>
          if is_upper c && (1 <? length w)
          then count_title_words rest (title_words + 1)
          else count_title_words rest title_words
      | [] => count_title_words rest title_words
      end
  end.

(** [_is_title_case] *)
Definition _is_title_case (t : str) : bool :=
  let words := split t in
  if length words <? 2 then false
  else
    let title_words := count_title_words words 0 in
    PrimFloat.leb 0.6%float
      (PrimFloat.div (float_of_nat title_words) (float_of_nat (length words))).

(** The patterns of [_is_likely_header_footer], in the order of the
    source.  The two copyright signs are the code points 169 and
    194, 169. *)
Definition header_footer_patterns : list regex :=
  [ {| bol := true; items := [Rep 1 digit; Eol] |};
    {| bol := true; items := word "page" ++ [Rep 1 space; Rep 1 digit] |};
    {| bol := true; items := [Rep 1 digit; Rep 0 space; Eol] |};
    {| bol := true; items := word "copyright" |};
    {| bol := true; items := [One (Chr (ascii_of_nat 169))] |};
    {| bol := true;
       items := [One (Chr (ascii_of_nat 194)); One (Chr (ascii_of_nat 169))] |};
    {| bol := true; items := word "www" ++ [One (Chr ".")] |};
    {| bol := true; items := word "http" |};
    {| bol := false; items := [One (Chr "@")] |} ].

Fixpoint matches_any_cs (ps : list regex) (t : str) : bool :=
  match ps with
  | [] => false
  | p :: rest => if re_match false p t then true else matches_any_cs rest t
  end.

(** [_is_likely_header_footer] *)
Definition _is_likely_header_footer (t : str) : bool :=
  let text_lower := strip (lower t) in
  if matches_any_cs header_footer_patterns text_lower then true
  else if (length text_lower <=? 3) && isdigit text_lower then true
  else false.

(** [float(n)] for an integer [n], exact up to [2^53]. *)
Definition float_of_Z (z : Z) : float :=
  match z with
  | Z0 => 0%float
  | Zpos _ => PrimFloat.of_uint63 (Uint63.of_Z z)
  | Zneg n => (- PrimFloat.of_uint63 (Uint63.of_Z (Zpos n)))%float
  end.

(** The binary64 value of a font size [n/d]: the float nearest to it,
    which is [n/d] itself when [n/d] is a binary64 value. *)
Definition to_float (q : Q) : float :=
  (float_of_Z (Qnum q) / float_of_Z (Zpos (Qden q)))%float.

(** [doc_stats.get('avg_font_size', 12)] *)
Definition get_avg_font_size (st : doc_stats) : float :=
  match avg_font_size st with
  | Some a => a
  | None => 12%float
  end.

(** [min(score, 1.0)]: the second argument is taken only when it is
    strictly smaller than the first. *)
Definition min_float (a b : float) : float :=
  if PrimFloat.ltb b a then b else a.

(** The score as a function of the tests made on the block, added in
    the order of the source. *)
Definition score_of_tests
    (big_font above_avg bold left_margin pattern keyword
     mid_length very_long title_case upper_case plain_end : bool) : float :=
  let score := 0.0%float in
  let score :=
    if big_font then (score + 0.3)%float
    else if above_avg then (score + 0.15)%float
    else score in
  let score := if bold then (score + 0.2)%float else score in
  let score := if left_margin then (score + 0.1)%float else score in
  let score := if pattern then (score + 0.25)%float else score in
  let score := if keyword then (score + 0.15)%float else score in
  let score :=
    if mid_length then (score + 0.1)%float
    else if very_long then (score - 0.2)%float
    else score in
  let score :=
    if title_case then (score + 0.1)%float
    else if upper_case then (score + 0.15)%float
    else score in
  let score := if plain_end then (score + 0.05)%float else score in
  min_float score 1.0%float.

(** [_calculate_heading_score] *)
Definition _calculate_heading_score (b : block) (st : doc_stats) : float :=
  let t := strip (text b) in
  let avg := get_avg_font_size st in
  score_of_tests
    (PrimFloat.ltb (avg * 1.2)%float (to_float (font_size b)))
    (PrimFloat.ltb avg (to_float (font_size b)))
    (is_bold b)
    (Qltb (x_position b) 100%Q)
    (_matches_heading_pattern t)
    (_contains_heading_keywords t)
    ((5 <=? length t) && (length t <=? 100))
    (200 <? length t)
    (_is_title_case t)
    (isupper t && (3 <? length t))
    (negb (endswith (lit ".") t) && negb (endswith (lit ",") t)).

(** [list.sort] is a stable sort, and its keys here are totally
    preordered: its result is the one stable arrangement of the list,
    which insertion from the right computes.  [lt a b] is the test
    [key(a) < key(b)] the sort makes. *)
Section StableSort.
Context {A : Type} (lt : A -> A -> bool).

Fixpoint insert_by (x : A) (l : list A) : list A :=
  match l with
  | [] => [x]
  | y :: r => if lt y x then y :: insert_by x r else x :: y :: r
  end.

Fixpoint sort_by (l : list A) : list A :=
  match l with
  | [] => []
  | x :: r => insert_by x (sort_by r)
  end.

End StableSort.

(** [sum(all_font_sizes)]: the floats are added one by one, from the
    left, to the initial [0]. *)
Definition py_sum (l : list float) : float :=
  fold_left PrimFloat.add l 0%float.

(** [max(l)] and [min(l)] on a list that starts with [x]: the first of
    the largest, the first of the smallest. *)
Definition max_Q (x : Q) (l : list Q) : Q :=
  fold_left (fun m y => if Qltb m y then y else m) l x.
Definition min_Q (x : Q) (l : list Q) : Q :=
  fold_left (fun m y => if Qltb y m then y else m) l x.

(** The two nested loops of [_get_doc_stats]. *)
Fixpoint all_font_sizes_of (pages_data : list page) : list Q :=
  match pages_data with
  | [] => []
  | p :: rest => map font_size (text_blocks p) ++ all_font_sizes_of rest
  end.

(** The dictionary [_get_doc_stats] returns for the font sizes it has
    collected. *)
Definition stats_of_font_sizes (all_font_sizes : list Q) : doc_stats :=
  match all_font_sizes with
  | [] => {| avg_font_size := Some 12%float; max_font_size := None;
             min_font_size := None; total_blocks := None |}
  | f :: rest =>
      {| avg_font_size :=
           Some (py_sum (map to_float all_font_sizes)
                 / float_of_Z (Z.of_nat (length all_font_sizes)))%float;
         max_font_size := Some (max_Q f rest);
         min_font_size := Some (min_Q f rest);
         total_blocks := Some (length all_font_sizes) |}
  end.

(** [_get_doc_stats] *)
Definition _get_doc_stats (pages_data : list page) : doc_stats :=
  stats_of_font_sizes (all_font_sizes_of pages_data).

(** The dictionary appended to [headings] for an admitted block. *)
Definition make_candidate (page_num : Z) (b : block) (t : str)
           (heading_score : float) : candidate :=
  {| h_text := t;
     h_page := page_num;
     h_font_size := font_size b;
     h_is_bold := is_bold b;
     h_y_position := y_position b;
     h_x_position := x_position b;
     h_heading_score := heading_score;
     h_has_numbering := _has_numbering t;
     h_matches_pattern := _matches_heading_pattern t;
     h_contains_keywords := _contains_heading_keywords t |}.

(** The loop of [_extract_page_headings] over the blocks of a page; a
    [continue] of the source goes on with the rest. *)
Fixpoint page_headings_loop (page_num : Z) (st : doc_stats)
         (blocks : list block) : list candidate :=
  match blocks with
  | [] => []
  | b :: rest =>
      let t := strip (text b) in
      if length t <? 2 then page_headings_loop page_num st rest
      else if _is_likely_header_footer t
      then page_headings_loop page_num st rest
      else if 300 <? length t then page_headings_loop page_num st rest
      else
        let heading_score := _calculate_heading_score b st in
        if PrimFloat.ltb 0.3%float heading_score
        then make_candidate page_num b t heading_score
             :: page_headings_loop page_num st rest
        else page_headings_loop page_num st rest
  end.

(** [_extract_page_headings] *)
Definition _extract_page_headings (p : page) (st : doc_stats)
  : list candidate :=
  page_headings_loop (page_number p) st (text_blocks p).

(** [list(set(l))]: one representative of each value. *)
Fixpoint distinct_Q (l : list Q) : list Q :=
  match l with
  | [] => []
  | x :: r =>
      if existsb (Qeqb x) r then distinct_Q r else x :: distinct_Q r
  end.

(** [size_to_level], a dictionary keyed by font size, as the list of
    its entries. *)
Definition size_to_level (font_sizes : list Q) : list (Q * string) :=
  match font_sizes with
  | s0 :: s1 :: s2 :: rest =>
      (s0, "H1"%string) :: (s1, "H2"%string) :: (s2, "H3"%string)
      :: map (fun size => (size, "H3"%string)) rest
  | [s0; s1] => [(s0, "H1"%string); (s1, "H2"%string)]
  | [s0] => [(s0, "H1"%string)]
  | [] => []
  end.

(** [d.get(key, default)] *)
Fixpoint dict_get (d : list (Q * string)) (key : Q) (default : string)
  : string :=
  match d with
  | [] => default
  | (k, v) :: rest => if Qeqb k key then v else dict_get rest key default
  end.

(** The level the numbering of a text forces, or [base_level]. *)
Definition refine_level (t : str) (base_level : string) : string :=
  if re_match false numbering1 t then "H1"%string
  else if re_match false numbering2 t then "H2"%string
  else if re_match false numbering3 t then "H3"%string
  else base_level.

(** The font sizes of the candidates, each once, largest first. *)
Definition ranked_font_sizes (headings : list candidate) : list Q :=
  sort_by (fun a b => Qltb b a) (distinct_Q (map h_font_size headings)).

(** The body of the last loop of [_classify_headings]. *)
Definition classify_one (levels : list (Q * string)) (h : candidate)
  : classified :=
  let base_level := dict_get levels (h_font_size h) "H3"%string in
  let t := strip (h_text h) in
  {| c_cand := h; c_level := refine_level t base_level |}.

(** [_classify_headings].  The list it is given is sorted in place by
    font size, largest first, and the result lists the candidates in
    that order. *)
Definition _classify_headings (headings : list candidate) (st : doc_stats)
  : list classified :=
  match headings with
  | [] => []
  | _ =>
      let headings :=
        sort_by (fun a b => Qltb (h_font_size b) (h_font_size a)) headings in
      let font_sizes := ranked_font_sizes headings in
      let levels := size_to_level font_sizes in
      map (classify_one levels) headings
  end.

(** [a < b] on the keys [(x['page'], x.get('y_position', 0))]: the
    first components that differ decide. *)
Definition page_y_lt (a b : classified) : bool :=
  if Z.eqb (h_page (c_cand a)) (h_page (c_cand b))
  then Qltb (h_y_position (c_cand a)) (h_y_position (c_cand b))
  else Z.ltb (h_page (c_cand a)) (h_page (c_cand b)).

(** The loop over the pages in [extract_headings]. *)
Fixpoint potential_headings (pages_data : list page) (st : doc_stats)
  : list candidate :=
  match pages_data with
  | [] => []
  | p :: rest => _extract_page_headings p st ++ potential_headings rest st
  end.

(** [classified_headings] after the sort by page and position. *)
Definition sorted_headings (pages_data : list page) : list classified :=
  let st := _get_doc_stats pages_data in
  sort_by page_y_lt (_classify_headings (potential_headings pages_data st) st).

Definition to_heading (c : classified) : heading :=
  {| level := c_level c;
     o_text := h_text (c_cand c);
     o_page := h_page (c_cand c) |}.

(** [extract_headings] *)
Definition extract_headings (pages_data : list page) : list heading :=
  match pages_data with
  | [] => []
  | _ => map to_heading (sorted_headings pages_data)
  end.

(** [_clean_title_text]: the loop over the prefixes, left at the first
    one that the title starts with. *)
Fixpoint remove_prefix (prefixes : list str) (title title_lower : str)
  : str :=
  match prefixes with
  | [] => title
  | prefix :: rest =>
      if startswith prefix title_lower
      then strip (from (length prefix) title)
      else remove_prefix rest title title_lower
  end.

Definition prefixes_to_remove : list str :=
  map lit ["title:"; "document:"; "paper:"]%string.

(** [_clean_title_text] *)
Definition _clean_title_text (title : str) : str :=
  let title := join (lit " ") (split title) in
  let title_lower := lower title in
  let title := remove_prefix prefixes_to_remove title title_lower in
  match title with
  | c :: r => if is_lower c then to_upper c :: r else title
  | [] => title
  end.

Definition untitled : str := lit "Untitled Document".

(** The loop of [extract_title] over the blocks of the first page. *)
Fixpoint title_candidates_loop (avg : float) (blocks : list block)
  : list title_candidate :=
  match blocks with
  | [] => []
  | b :: rest =>
      if PrimFloat.ltb (to_float (font_size b)) avg
      then title_candidates_loop avg rest
      else
        let t := strip (text b) in
        if (length t <? 3) || (200 <? length t)
        then title_candidates_loop avg rest
        else if _is_likely_header_footer t
        then title_candidates_loop avg rest
        else {| t_text := t;
                t_font_size := font_size b;
                t_is_bold := is_bold b;
                t_y_position := y_position b;
                t_page_number :=
                  match b_page_number b with Some n => n | None => 1%Z end |}
             :: title_candidates_loop avg rest
  end.

(** [a < b] on the keys [(-x['font_size'], x['y_position'])]. *)
Definition title_key_lt (a b : title_candidate) : bool :=
  if Qeqb (- t_font_size a)%Q (- t_font_size b)%Q
  then Qltb (t_y_position a) (t_y_position b)
  else Qltb (- t_font_size a)%Q (- t_font_size b)%Q.

(** [extract_title] *)
Definition extract_title (pages_data : list page) : str :=
  match pages_data with
  | [] => untitled
  | first_page :: _ =>
      match text_blocks first_page with
      | [] => untitled
      | _ =>
          let st := _get_doc_stats pages_data in
          let title_candidates :=
            title_candidates_loop (get_avg_font_size st)
                                  (text_blocks first_page) in
          match title_candidates with
          | [] => untitled
          | _ =>
              match sort_by title_key_lt title_candidates with
              | [] => untitled      (* not reached: the list is not empty *)
              | c :: _ =>
                  let title := _clean_title_text (t_text c) in
                  match title with
                  | [] => untitled
                  | _ => title
                  end
              end
          end
      end
  end.

End HeadingExtractor.

(** * The objects the two public methods touch

    The dictionaries and lists of the source are objects that are
    shared by reference and updated in place.  A store holds them, a
    location is an index in it, and the methods are programs of a monad
    that threads the store and fails where Python would raise.  The
    floats, strings and the statistics dictionary hold no reference and
    are kept as values. *)

Module Store.
Import Chars Str Re HeadingExtractor.

(** A location is an index in the store. *)
Abbreviation loc := nat (only parsing).

Inductive obj : Type :=
| OBlock (b : block)                           (* a text block *)
| OPage (page_num : Z) (blocks : loc)          (* a page and its list *)
| OList (items : list loc)                     (* a list of references *)
| OCand (c : candidate) (lvl : option string)  (* a potential heading *)
| OTitle (t : title_candidate)
| OHeading (h : heading).

Abbreviation store := (list obj) (only parsing).

Definition M (A : Type) : Type := store -> option (A * store).

Definition ret {A : Type} (a : A) : M A := fun s => Some (a, s).

Definition bind {A B : Type} (m : M A) (f : A -> M B) : M B :=
  fun s => match m s with
           | Some (a, s') => f a s'
           | None => None
           end.

(** An exception of Python: [KeyError], [IndexError], [TypeError]. *)
Definition raise {A : Type} : M A := fun _ => None.

Notation "'do' x <- m 'in' k" := (bind m (fun x => k))
  (at level 10, x name, m at level 100, k at level 200, only parsing).

(** A new object. *)
Definition alloc (o : obj) : M loc := fun s => Some (length s, s ++ [o]).

Definition load (l : loc) : M obj :=
  fun s => match s !! l with
           | Some o => Some (o, s)
           | None => None
           end.

(** An update in place. *)
Definition update (l : loc) (o : obj) : M unit :=
  fun s => if l <? length s then Some (tt, <[l := o]> s) else None.

Definition get_block (l : loc) : M block :=
  do o <- load l in match o with OBlock b => ret b | _ => raise end.

Definition get_page (l : loc) : M (Z * loc) :=
  do o <- load l in match o with OPage n bl => ret (n, bl) | _ => raise end.

Definition get_list (l : loc) : M (list loc) :=
  do o <- load l in match o with OList items => ret items | _ => raise end.

Definition get_cand (l : loc) : M (candidate * option string) :=
  do o <- load l in match o with OCand c lvl => ret (c, lvl) | _ => raise end.

Definition get_title (l : loc) : M title_candidate :=
  do o <- load l in match o with OTitle t => ret t | _ => raise end.

(** [l.append(x)] and [l.extend(xs)] *)
Definition append (l : loc) (x : loc) : M unit :=
  do items <- get_list l in update l (OList (items ++ [x])).

Definition extend (l : loc) (xs : list loc) : M unit :=
  do items <- get_list l in update l (OList (items ++ xs)).

(** [for x in ls: body(x)] *)
Fixpoint for_each (body : loc -> M unit) (ls : list loc) : M unit :=
  match ls with
  | [] => ret tt
  | x :: rest => do _ <- body x in for_each body rest
  end.

(** The values read through the references of a list. *)
Fixpoint read_all {A : Type} (get : loc -> M A) (ls : list loc)
  : M (list A) :=
  match ls with
  | [] => ret []
  | x :: rest => do a <- get x in do r <- read_all get rest in ret (a :: r)
  end.

(** [l.sort(key=...)]: the references of [l] arranged by the keys read
    through them. *)
Definition sort_refs {A : Type} (lt : A -> A -> bool)
           (ls : list loc) (vals : list A) : list loc :=
  map fst (sort_by (fun a b => lt (snd a) (snd b)) (combine ls vals)).

(** The two loops of [_get_doc_stats]. *)
Fixpoint font_sizes_of_pages (pages : list loc) : M (list Q) :=
  match pages with
  | [] => ret []
  | p :: rest =>
      do pg <- get_page p in
      do blocks <- get_list (snd pg) in
      do bs <- read_all get_block blocks in
      do r <- font_sizes_of_pages rest in
      ret (map font_size bs ++ r)
  end.

Definition get_doc_stats (pages_data : loc) : M doc_stats :=
  do pages <- get_list pages_data in
  do all_font_sizes <- font_sizes_of_pages pages in
  ret (stats_of_font_sizes all_font_sizes).

(** The body of the loop of [_extract_page_headings]. *)
Definition page_headings_body (headings : loc) (page_num : Z)
           (st : doc_stats) (b : loc) : M unit :=
  do blk <- get_block b in
  let t := strip (text blk) in
  if length t <? 2 then ret tt
  else if _is_likely_header_footer t then ret tt
  else if 300 <? length t then ret tt
  else
    let heading_score := _calculate_heading_score blk st in
    if PrimFloat.ltb 0.3%float heading_score
    then do c <- alloc (OCand (make_candidate page_num blk t heading_score) None) in
         append headings c
    else ret tt.

(** [_extract_page_headings]: returns the new list [headings]. *)
Definition extract_page_headings (page : loc) (st : doc_stats) : M loc :=
  do headings <- alloc (OList []) in
  do pg <- get_page page in
  do blocks <- get_list (snd pg) in
  do _ <- for_each (page_headings_body headings (fst pg) st) blocks in
  ret headings.

Definition cand_font_lt (a b : candidate * option string) : bool :=
  Qltb (h_font_size (fst b)) (h_font_size (fst a)).

Definition cand_page_y_lt (a b : candidate * option string) : bool :=
  if Z.eqb (h_page (fst a)) (h_page (fst b))
  then Qltb (h_y_position (fst a)) (h_y_position (fst b))
  else Z.ltb (h_page (fst a)) (h_page (fst b)).

(** The body of the last loop of [_classify_headings]: the level is
    written into the candidate, and the candidate itself is appended. *)
Definition classify_body (classified : loc) (levels : list (Q * string))
           (h : loc) : M unit :=
  do c <- get_cand h in
  do _ <- update h (OCand (fst c) (Some (c_level (classify_one levels (fst c))))) in
  append classified h.

(** [_classify_headings]: sorts the list it is given, in place. *)
Definition classify_headings (headings : loc) (st : doc_stats) : M loc :=
  do hs <- get_list headings in
  match hs with
  | [] => alloc (OList [])
  | _ =>
      do cs <- read_all get_cand hs in
      do _ <- update headings (OList (sort_refs cand_font_lt hs cs)) in
      do sorted <- get_list headings in
      do cs' <- read_all get_cand sorted in
      let levels := size_to_level (ranked_font_sizes (map fst cs')) in
      do classified <- alloc (OList []) in
      do _ <- for_each (classify_body classified levels) sorted in
      ret classified
  end.

(** The body of the loop over the pages in [extract_headings]. *)
Definition pages_body (potential : loc) (st : doc_stats) (page : loc)
  : M unit :=
  do page_headings <- extract_page_headings page st in
  do items <- get_list page_headings in
  extend potential items.

(** The body of the loop that formats the outline. *)
Definition format_body (final : loc) (h : loc) : M unit :=
  do c <- get_cand h in
  match snd c with
  | Some lvl =>
      do o <- alloc (OHeading {| level := lvl;
                              o_text := h_text (fst c);
                              o_page := h_page (fst c) |}) in
      append final o
  | None => raise
  end.

(** [extract_headings]: returns the new list [final_headings]. *)
Definition extract_headings (pages_data : loc) : M loc :=
  do pages <- get_list pages_data in
  match pages with
  | [] => alloc (OList [])
  | _ =>
      do st <- get_doc_stats pages_data in
      do potential <- alloc (OList []) in
      do _ <- for_each (pages_body potential st) pages in
      do classified <- classify_headings potential st in
      do cl <- get_list classified in
      do cs <- read_all get_cand cl in
      do _ <- update classified (OList (sort_refs cand_page_y_lt cl cs)) in
      do final <- alloc (OList []) in
      do sorted <- get_list classified in
      do _ <- for_each (format_body final) sorted in
      ret final
  end.

(** The body of the loop of [extract_title]. *)
Definition title_body (title_candidates : loc) (avg : float) (b : loc)
  : M unit :=
  do blk <- get_block b in
  if PrimFloat.ltb (to_float (font_size blk)) avg then ret tt
  else
    let t := strip (text blk) in
    if (length t <? 3) || (200 <? length t) then ret tt
    else if _is_likely_header_footer t then ret tt
    else
      do c <- alloc (OTitle {| t_text := t;
                            t_font_size := font_size blk;
                            t_is_bold := is_bold blk;
                            t_y_position := y_position blk;
                            t_page_number :=
                              match b_page_number blk with
                              | Some n => n
                              | None => 1%Z
                              end |}) in
      append title_candidates c.

(** [extract_title] *)
Definition extract_title (pages_data : loc) : M str :=
  do pages <- get_list pages_data in
  match pages with
  | [] => ret untitled
  | first_page :: _ =>
      do pg <- get_page first_page in
      do blocks <- get_list (snd pg) in
      match blocks with
      | [] => ret untitled
      | _ =>
          do st <- get_doc_stats pages_data in
          do title_candidates <- alloc (OList []) in
          do _ <- for_each (title_body title_candidates (get_avg_font_size st))
                        blocks in
          do cands <- get_list title_candidates in
          match cands with
          | [] => ret untitled
          | _ =>
              do ts <- read_all get_title cands in
              do _ <- update title_candidates
                          (OList (sort_refs title_key_lt cands ts)) in
              do sorted <- get_list title_candidates in
              match sorted with
              | [] => raise
              | c0 :: _ =>
                  do t <- get_title c0 in
                  let title := _clean_title_text (t_text t) in
                  ret (match title with [] => untitled | _ => title end)
              end
          end
      end
  end.

End Store.

(** * Example inputs *)

Module Examples.
Import HeadingExtractor Str.

Definition mk_block (t : string) (size : Q) (bold : bool) (x y : Q) : block :=
  {| text := lit t; font_size := size; is_bold := bold;
     x_position := x; y_position := y; b_page_number := None |}.

(** A paragraph line of 206 characters, in lower case, ending in a
    full stop. *)
Definition long_line : string :=
  "the quick brown fox jumps over the lazy dog while the other animals of the forest watch from a distance and wonder how long the old dog will keep lying there before it finally decides to get up and go home.".

Definition long_block : block := mk_block long_line 12 false 100 500.

Definition stats12 : doc_stats :=
  {| avg_font_size := Some 12%float; max_font_size := Some 12%Q;
     min_font_size := Some 12%Q; total_blocks := Some 1 |}.

(** The scoring example of the specification. *)
Definition methodology_block : block := mk_block "METHODOLOGY" 18 true 40 200.

(** An address, as found in a page footer. *)
Definition mail_address : str := lit "john@example.com".

(** Two pages without blocks. *)
Definition two_empty_pages : list page :=
  [ {| page_number := 1; text_blocks := [] |};
    {| page_number := 2; text_blocks := [] |} ].

(** One page: a title line, two headings met on the same line (same y),
    the smaller one first, and a line of body text. *)
Definition same_line_page : list page :=
  [ {| page_number := 1;
       text_blocks :=
         [ mk_block "Annual Report" 24 true 72 60;
           mk_block "Results" 12 true 72 300;
           mk_block "Summary" 18 true 200 300;
           mk_block "this line is body text of the report." 10 false 72 340 ] |} ].

(** The title example of the specification, with body text that brings
    the average font size to 12. *)
Definition draft_pages : list page :=
  [ {| page_number := 1;
       text_blocks :=
         [ mk_block "Draft Paper" 24 false 72 50;
           mk_block "Author Name" 14 false 72 90;
           mk_block "some body text of the paper, first line." 5 false 72 120;
           mk_block "some body text of the paper, second line." 5 false 72 140 ] |} ].

(** Three numbered headings in one font size and a body line. *)
Definition numbered_pages : list page :=
  [ {| page_number := 1;
       text_blocks :=
         [ mk_block "1. Scope" 14 true 72 100;
           mk_block "1.1 Terms" 14 true 72 200;
           mk_block "1.1.1 Detail" 14 true 72 300;
           mk_block "body text of the first page of the document." 10 false 72 400 ] |} ].

End Examples.

(** * Properties *)

Import Chars Str Re HeadingExtractor.

(** ** Strings *)

Section StripFacts.
Import Chars Str.

Lemma lstrip_suffix (s : str) : exists w, s = w ++ lstrip s.
Proof.
  induction s as [|c r IH]; simpl.
  - exists []. reflexivity.
  - destruct (is_space c).
    + destruct IH as [w Hw]. exists (c :: w). simpl. congruence.
    + exists []. reflexivity.
Qed.

Lemma lstrip_length (s : str) : length (lstrip s) <= length s.
Proof.
  induction s as [|c r IH]; simpl; [lia|].
  destruct (is_space c); simpl; lia.
Qed.

Lemma lstrip_head (s : str) (c : ascii) (r : str) :
  lstrip s = c :: r -> is_space c = false.
Proof.
  induction s as [|d t IH]; simpl; [discriminate|].
  destruct (is_space d) eqn:E; [exact IH|].
  intros H. injection H as -> _. exact E.
Qed.

Lemma lstrip_fixed (s : str) :
  lstrip s = s <-> match s with [] => True | c :: _ => is_space c = false end.
Proof.
  destruct s as [|c r]; simpl; [tauto|].
  destruct (is_space c) eqn:E; split; intros H; try congruence.
  pose proof (lstrip_length r) as L. rewrite H in L. simpl in L. lia.
Qed.

Lemma lstrip_idem (s : str) : lstrip (lstrip s) = lstrip s.
Proof.
  apply lstrip_fixed. destruct (lstrip s) as [|c r] eqn:E; [exact I|].
  exact (lstrip_head _ _ _ E).
Qed.

Lemma rstrip_prefix (s : str) : exists w, s = rstrip s ++ w.
Proof.
  unfold rstrip. destruct (lstrip_suffix (rev s)) as [w Hw].
  exists (rev w). rewrite <- rev_app_distr, <- Hw, rev_involutive.
  reflexivity.
Qed.

Lemma rstrip_idem (s : str) : rstrip (rstrip s) = rstrip s.
Proof.
  unfold rstrip. rewrite rev_involutive, lstrip_idem. reflexivity.
Qed.

Lemma lstrip_rstrip (s : str) : lstrip s = s -> lstrip (rstrip s) = rstrip s.
Proof.
  intros Hs. apply lstrip_fixed.
  destruct (rstrip_prefix s) as [w Hw].
  destruct (rstrip s) as [|c r]; [exact I|].
  rewrite Hw in Hs. apply lstrip_fixed in Hs. exact Hs.
Qed.

(** A stripped text starts and ends with a character that is not a
    space: stripping it again changes nothing. *)
Lemma strip_idem (s : str) : strip (strip s) = strip s.
Proof.
  unfold strip at 1.
  assert (H : lstrip (strip s) = strip s).
  { unfold strip. apply lstrip_rstrip, lstrip_idem. }
  rewrite H. unfold strip. apply rstrip_idem.
Qed.

Lemma strip_nil : strip [] = [].
Proof. reflexivity. Qed.

End StripFacts.

(** ** The stable sort *)

Section SortFacts.
Context {A : Type} (lt : A -> A -> bool).

Lemma insert_by_In (x y : A) (l : list A) :
  In y (insert_by lt x l) <-> y = x \/ In y l.
Proof.
  induction l as [|z r IH]; simpl.
  - intuition.
  - destruct (lt z x); simpl; rewrite ?IH; intuition.
Qed.

Lemma sort_by_In (y : A) (l : list A) : In y (sort_by lt l) <-> In y l.
Proof.
  induction l as [|x r IH]; simpl; [tauto|].
  rewrite insert_by_In, IH. intuition.
Qed.

Lemma insert_by_length (x : A) (l : list A) :
  length (insert_by lt x l) = S (length l).
Proof.
  induction l as [|z r IH]; simpl; [reflexivity|].
  destruct (lt z x); simpl; rewrite ?IH; reflexivity.
Qed.

Lemma sort_by_length (l : list A) : length (sort_by lt l) = length l.
Proof.
  induction l as [|x r IH]; simpl; [reflexivity|].
  rewrite insert_by_length, IH. reflexivity.
Qed.

Lemma sort_by_nil_inv (l : list A) : sort_by lt l = [] -> l = [].
Proof.
  intros H. apply (f_equal (@length A)) in H.
  rewrite sort_by_length in H. destruct l; [reflexivity|discriminate].
Qed.

(** Insertion does not disturb the elements selected by [P], when the
    new element, if selected, is not above any selected element. *)
Lemma filter_insert_by (P : A -> bool) (x : A) (l : list A) :
  (P x = true -> forall y, In y l -> P y = true -> lt y x = false) ->
  List.filter P (insert_by lt x l) = List.filter P (x :: l).
Proof.
  intros H. induction l as [|z r IH]; [reflexivity|].
  simpl insert_by. destruct (lt z x) eqn:E; [|reflexivity].
  simpl. simpl in IH. rewrite IH.
  - destruct (P x) eqn:Px; [|reflexivity].
    destruct (P z) eqn:Pz; [|reflexivity].
    rewrite (H eq_refl z) in E; [discriminate|left; reflexivity|exact Pz].
  - intros Px y Hy. apply H; [exact Px|right; exact Hy].
Qed.

(** Stability: the elements selected by [P] keep their order, when no
    two selected elements are strictly ordered by the key. *)
Lemma filter_sort_by (P : A -> bool) (l : list A) :
  (forall x y, P x = true -> P y = true -> lt y x = false) ->
  List.filter P (sort_by lt l) = List.filter P l.
Proof.
  intros H. induction l as [|x r IH]; [reflexivity|].
  simpl sort_by. rewrite filter_insert_by.
  - simpl. rewrite IH. reflexivity.
  - intros Px y _ Py. apply H; assumption.
Qed.

End SortFacts.

(** ** The heading score *)

Section Score.
Import Examples.

(** The score never exceeds one: the final [min] clamps it. *)
Lemma score_of_tests_le_one :
  forall a b c d e f g h i j k,
    PrimFloat.leb (score_of_tests a b c d e f g h i j k) 1.0%float = true.
Proof.
  intros [] [] [] [] [] [] [] [] [] [] []; vm_compute; reflexivity.
Qed.

Lemma score_le_one (b : block) (st : doc_stats) :
  PrimFloat.leb (_calculate_heading_score b st) 1.0%float = true.
Proof. unfold _calculate_heading_score. apply score_of_tests_le_one. Qed.

(** The clamp triggers when every additive term fires. *)
Lemma score_methodology :
  _calculate_heading_score methodology_block stats12 = 1.0%float /\
  score_of_tests true true true true true true true false true false true
  = 1.0%float.
Proof. vm_compute. split; reflexivity. Qed.

(** C1 (the code departs from the claim): on a block of body size,
    not bold, at x = 100, whose text is a lower-case line of 206
    characters ending in a full stop, the only term that fires is the
    penalty for more than 200 characters, and [min(score, 1.0)] leaves
    the sum as it is: the score is -0.2, below the interval from 0 to 1
    that the docstring of the function promises.  The block is one that
    [_extract_page_headings] scores: its text has at most 300
    characters and is no header or footer.  The upper bound holds on
    every block ([score_le_one]). *)
Theorem C1_score_below_zero :
  length (strip (text long_block)) = 206 /\
  _is_likely_header_footer (strip (text long_block)) = false /\
  _calculate_heading_score long_block stats12 = (-0.2)%float /\
  PrimFloat.ltb (_calculate_heading_score long_block stats12) 0%float = true.
Proof. vm_compute. repeat split. Qed.

End Score.

(** ** Headers and footers *)

Section HeaderFooter.
Import Examples.

(** The pattern ['@'] of [header_footer_patterns]. *)
Definition at_sign : regex := {| bol := false; items := [One (Chr "@")] |}.

Lemma at_sign_listed : In at_sign header_footer_patterns.
Proof. unfold header_footer_patterns, at_sign. simpl. tauto. Qed.

(** [re.match] finds the ['@'] only at the start of the text. *)
Lemma at_sign_match (t : str) :
  re_match false at_sign t = true <-> exists r, t = "@"%char :: r.
Proof.
  unfold re_match, at_sign. cbn [items match_items atom_ok].
  destruct t as [|c r].
  - split; [discriminate|intros [r H]; discriminate].
  - rewrite andb_true_r. unfold Chars.eqb. rewrite Ascii.eqb_eq. split.
    + intros <-. exists r. reflexivity.
    + intros [r' H]. injection H as -> _. reflexivity.
Qed.

(** C3 (the code departs from the claim): the text "john@example.com"
    contains the character @, and [_is_likely_header_footer] returns
    false on it.  The pattern ['@'], which the source comments as
    "Email addresses", is tried with [re.match], that is at the first
    character only; [re.search] would find it. *)
Theorem C3_address_not_filtered :
  contains (lit "@") mail_address = true /\
  _is_likely_header_footer mail_address = false /\
  re_match false at_sign (strip (lower mail_address)) = false /\
  re_search false at_sign (strip (lower mail_address)) = true.
Proof. vm_compute. repeat split. Qed.

End HeaderFooter.

(** ** Candidate admission *)

Section Admission.

(** The admission test in the words of the specification. *)
Definition admitted (b : block) (st : doc_stats) : Prop :=
  2 <= length (strip (text b)) /\
  length (strip (text b)) <= 300 /\
  _is_likely_header_footer (strip (text b)) = false /\
  PrimFloat.ltb 0.3%float (_calculate_heading_score b st) = true.

Definition admittedb (b : block) (st : doc_stats) : bool :=
  (2 <=? length (strip (text b))) &&
  (length (strip (text b)) <=? 300) &&
  negb (_is_likely_header_footer (strip (text b))) &&
  PrimFloat.ltb 0.3%float (_calculate_heading_score b st).

Lemma admittedb_spec (b : block) (st : doc_stats) :
  admittedb b st = true <-> admitted b st.
Proof.
  unfold admittedb, admitted.
  rewrite !andb_true_iff, negb_true_iff, !Nat.leb_le. tauto.
Qed.

(** The candidate built from an admitted block. *)
Definition candidate_of (page_num : Z) (st : doc_stats) (b : block)
  : candidate :=
  make_candidate page_num b (strip (text b)) (_calculate_heading_score b st).

Lemma page_headings_loop_filter (n : Z) (st : doc_stats) (bs : list block) :
  page_headings_loop n st bs
  = map (candidate_of n st) (List.filter (fun b => admittedb b st) bs).
Proof.
  induction bs as [|b r IH]; [reflexivity|].
  simpl. unfold admittedb.
  destruct (length (strip (text b)) <? 2) eqn:E2.
  { apply Nat.ltb_lt in E2.
    destruct (2 <=? length (strip (text b))) eqn:E2'; [|exact IH].
    apply Nat.leb_le in E2'. lia. }
  apply Nat.ltb_ge in E2. apply Nat.leb_le in E2. rewrite E2. simpl.
  destruct (_is_likely_header_footer (strip (text b))).
  { rewrite andb_false_r. exact IH. }
  destruct (300 <? length (strip (text b))) eqn:E3.
  { apply Nat.ltb_lt in E3.
    destruct (length (strip (text b)) <=? 300) eqn:E3'; [|exact IH].
    apply Nat.leb_le in E3'. lia. }
  apply Nat.ltb_ge in E3. apply Nat.leb_le in E3. rewrite E3. simpl.
  destruct (PrimFloat.ltb 0.3 (_calculate_heading_score b st)); simpl.
  - rewrite IH. reflexivity.
  - exact IH.
Qed.

Lemma page_headings_In (p : page) (st : doc_stats) (c : candidate) :
  In c (_extract_page_headings p st) <->
  exists b, In b (text_blocks p) /\ admitted b st /\
            c = candidate_of (page_number p) st b.
Proof.
  unfold _extract_page_headings.
  rewrite page_headings_loop_filter, in_map_iff. split.
  - intros [b [Hc Hb]]. apply filter_In in Hb. destruct Hb as [Hb Ha].
    exists b. rewrite <- admittedb_spec. auto.
  - intros [b [Hb [Ha Hc]]]. exists b. split; [auto|].
    apply filter_In. rewrite admittedb_spec. auto.
Qed.

(** C5: the candidates of a page are, in the order of the blocks, those
    of the blocks that pass the four tests (trimmed length at least 2,
    at most 300, not a header or footer, score above 0.3); the other
    blocks leave no trace, and the function returns for every page. *)
Theorem C5_candidate_admission (p : page) (st : doc_stats) :
  _extract_page_headings p st
  = map (candidate_of (page_number p) st)
        (List.filter (fun b => admittedb b st) (text_blocks p))
  /\ (forall b, admittedb b st = true <-> admitted b st)
  /\ (forall c, In c (_extract_page_headings p st) <->
                exists b, In b (text_blocks p) /\ admitted b st /\
                          c = candidate_of (page_number p) st b).
Proof.
  assert (E : _extract_page_headings p st
              = map (candidate_of (page_number p) st)
                    (List.filter (fun b => admittedb b st) (text_blocks p))).
  { apply page_headings_loop_filter. }
  split; [exact E|]. split; [intros b; apply admittedb_spec|].
  intros c. apply page_headings_In.
Qed.

End Admission.

(** ** The empty document *)

Section EmptyDocument.
Import Examples.

Definition no_blocks (pages_data : list page) : Prop :=
  Forall (fun p => text_blocks p = []) pages_data.

Lemma all_font_sizes_of_no_blocks (pages_data : list page) :
  no_blocks pages_data -> all_font_sizes_of pages_data = [].
Proof.
  induction 1 as [|p r Hp _ IH]; [reflexivity|].
  simpl. rewrite Hp, IH. reflexivity.
Qed.

Lemma potential_headings_no_blocks (pages_data : list page) (st : doc_stats) :
  no_blocks pages_data -> potential_headings pages_data st = [].
Proof.
  induction 1 as [|p r Hp _ IH]; [reflexivity|].
  simpl. unfold _extract_page_headings. rewrite Hp, IH. reflexivity.
Qed.

(** A document without blocks has the title "Untitled Document" and
    the empty outline. *)
Lemma empty_document (pages_data : list page) :
  no_blocks pages_data ->
  extract_title pages_data = untitled /\ extract_headings pages_data = [].
Proof.
  intros H. split.
  - destruct H as [|p r Hp _]; [reflexivity|].
    unfold extract_title. rewrite Hp. reflexivity.
  - unfold extract_headings, sorted_headings.
    destruct pages_data as [|p r]; [reflexivity|].
    rewrite potential_headings_no_blocks by exact H. reflexivity.
Qed.

Lemma zero_pages :
  extract_title [] = lit "Untitled Document" /\ extract_headings [] = [].
Proof. split; reflexivity. Qed.

End EmptyDocument.

(** ** Shape of the outline *)

Section OutlineShape.
Import Examples.

(** Pages numbered 1, 2, 3, ... in the order of the list. *)
Definition valid_pages (pages_data : list page) : Prop :=
  map page_number pages_data
  = map Z.of_nat (seq 1 (length pages_data)).

Definition is_level (l : string) : Prop :=
  l = "H1"%string \/ l = "H2"%string \/ l = "H3"%string.

Lemma valid_pages_ge_1 (pages_data : list page) (p : page) :
  valid_pages pages_data -> In p pages_data -> (1 <= page_number p)%Z.
Proof.
  intros Hv Hp. apply (in_map page_number) in Hp. rewrite Hv in Hp.
  apply in_map_iff in Hp. destruct Hp as [n [Hn Hin]].
  apply in_seq in Hin. lia.
Qed.

Lemma dict_get_size_to_level (sizes : list Q) (k : Q) :
  is_level (dict_get (size_to_level sizes) k "H3").
Proof.
  unfold is_level.
  assert (G : forall rest, let d := map (fun size : Q => (size, "H3"%string)) rest in
              dict_get d k "H3" = "H3"%string).
  { induction rest as [|x r IH]; simpl; [reflexivity|].
    destruct (Qeqb x k); [reflexivity|exact IH]. }
  destruct sizes as [|s0 [|s1 [|s2 rest]]]; simpl.
  - tauto.
  - destruct (Qeqb s0 k); tauto.
  - destruct (Qeqb s0 k); [tauto|]. destruct (Qeqb s1 k); tauto.
  - destruct (Qeqb s0 k); [tauto|]. destruct (Qeqb s1 k); [tauto|].
    destruct (Qeqb s2 k); [tauto|]. rewrite G. tauto.
Qed.

Lemma refine_level_is_level (t : str) (base : string) :
  is_level base -> is_level (refine_level t base).
Proof.
  unfold refine_level, is_level. intros H.
  destruct (re_match false numbering1 t); [tauto|].
  destruct (re_match false numbering2 t); [tauto|].
  destruct (re_match false numbering3 t); tauto.
Qed.

Lemma classify_In (hs : list candidate) (st : doc_stats) (c : classified) :
  In c (_classify_headings hs st) ->
  In (c_cand c) hs /\ is_level (c_level c).
Proof.
  unfold _classify_headings. destruct hs as [|h0 r]; [intros []|].
  intros H. apply in_map_iff in H. destruct H as [h [<- Hh]].
  apply sort_by_In in Hh. split; [exact Hh|].
  simpl. apply refine_level_is_level, dict_get_size_to_level.
Qed.

Lemma potential_headings_In (pages_data : list page) (st : doc_stats)
      (h : candidate) :
  In h (potential_headings pages_data st) <->
  exists p, In p pages_data /\ In h (_extract_page_headings p st).
Proof.
  induction pages_data as [|p r IH]; simpl.
  - split; [intros []|intros [p [[] _]]].
  - rewrite in_app_iff, IH. split.
    + intros [H|[q [Hq H]]]; [exists p|exists q]; auto.
    + intros [q [[->|Hq] H]]; [left; exact H|right; exists q; auto].
Qed.

Lemma extract_headings_In (pages_data : list page) (h : heading) :
  In h (extract_headings pages_data) ->
  In h (map to_heading (sorted_headings pages_data)).
Proof.
  unfold extract_headings. destruct pages_data; [intros []|trivial].
Qed.

(** C8: when the pages are numbered from 1 in order, every heading of
    the outline has a level among H1, H2, H3, a page number of at least
    1, and a text that is not empty and is trimmed. *)
Theorem C8_outline_shape (pages_data : list page)
        (Hv : valid_pages pages_data) :
  Forall (fun h => is_level (level h) /\ (1 <= o_page h)%Z /\
                   o_text h <> [] /\ strip (o_text h) = o_text h)
         (extract_headings pages_data).
Proof.
  apply List.Forall_forall. intros h Hh.
  apply extract_headings_In in Hh.
  apply in_map_iff in Hh. destruct Hh as [c [<- Hc]].
  unfold sorted_headings in Hc. apply sort_by_In in Hc.
  apply classify_In in Hc. destruct Hc as [Hc Hl].
  apply potential_headings_In in Hc. destruct Hc as [p [Hp Hc]].
  apply page_headings_In in Hc. destruct Hc as [b [Hb [Ha Hc]]].
  unfold to_heading; simpl. rewrite Hc. simpl.
  split; [exact Hl|]. split; [exact (valid_pages_ge_1 _ _ Hv Hp)|].
  destruct Ha as [H2 _]. split.
  - intros E. rewrite E in H2. simpl in H2. lia.
  - apply strip_idem.
Qed.

Lemma C8_outline_shape_witness :
  valid_pages numbered_pages /\
  Forall (fun h => is_level (level h) /\ (1 <= o_page h)%Z /\
                   o_text h <> [] /\ strip (o_text h) = o_text h)
         (extract_headings numbered_pages).
Proof.
  assert (H : valid_pages numbered_pages) by reflexivity.
  split; [exact H|]. exact (C8_outline_shape numbered_pages H).
Defined.

End OutlineShape.

(** ** Regular expressions *)

Section RepFacts.
Variables (ok : ascii -> bool) (k : str -> bool).

(** A repetition may stop after any run of matching characters that is
    long enough. *)
Lemma rep_app (pre suf : str) (n : nat) :
  forallb ok pre = true -> n <= length pre -> k suf = true ->
  rep ok n k (pre ++ suf) = true.
Proof.
  revert n. induction pre as [|c p IH]; intros n Hall Hn Hk; simpl in *.
  - assert (n = 0) by lia. subst n.
    destruct suf as [|c s]; simpl; [rewrite Hk; reflexivity|].
    rewrite Hk. destruct (ok c); [apply orb_true_r|reflexivity].
  - apply andb_true_iff in Hall. destruct Hall as [Hc Hp].
    rewrite Hc, IH; [reflexivity|exact Hp|lia|exact Hk].
Qed.

Lemma rep_all (s : str) (n : nat) :
  forallb ok s = true -> n <= length s -> k [] = true ->
  rep ok n k s = true.
Proof.
  intros. rewrite <- (app_nil_r s). apply rep_app; assumption.
Qed.

(** A repetition of at least one character starts with one. *)
Lemma rep_pos_head (n : nat) (s : str) :
  rep ok (S n) k s = true -> exists c r, s = c :: r /\ ok c = true.
Proof.
  destruct s as [|c r]; simpl; [discriminate|].
  destruct (ok c) eqn:E; [|discriminate]. intros _. exists c, r.
  split; [reflexivity|exact E].
Qed.

(** The length of the longest run of matching characters at the start
    of a text, and what follows it. *)
Fixpoint run_length (s : str) : nat :=
  match s with
  | c :: r => if ok c then S (run_length r) else 0
  | [] => 0
  end.

Fixpoint after_run (s : str) : str :=
  match s with
  | c :: r => if ok c then after_run r else s
  | [] => []
  end.

(** When what follows cannot start with a matching character, only the
    longest run can be followed by it. *)
Lemma rep_greedy (n : nat) (s : str) :
  (forall c r, ok c = true -> k (c :: r) = false) ->
  rep ok n k s = (n <=? run_length s) && k (after_run s).
Proof.
  intros Hk. revert n. induction s as [|c r IH]; intros n; simpl.
  - destruct n; reflexivity.
  - destruct (ok c) eqn:E.
    + rewrite (Hk c r E), andb_false_r, orb_false_r, IH.
      destruct n; reflexivity.
    + destruct n; reflexivity.
Qed.

End RepFacts.

Section CharFacts.

Ltac by_cases c :=
  destruct c as [[] [] [] [] [] [] [] []]; vm_compute; intros; congruence.

Lemma digit_not_space (c : ascii) : is_digit c = true -> is_space c = false.
Proof. by_cases c. Qed.

Lemma digit_not_dot (c : ascii) : is_digit c = true -> Chars.eqb "." c = false.
Proof. by_cases c. Qed.

Lemma alpha_AZ (c : ascii) : is_alpha c = true -> atom_ok true AZ c = true.
Proof. by_cases c. Qed.

Lemma alpha_AZ_space (c : ascii) :
  is_alpha c || is_space c = true -> atom_ok true AZ_space c = true.
Proof. by_cases c. Qed.

Lemma space_ic (c : ascii) : is_space c = true -> atom_ok true space c = true.
Proof. by_cases c. Qed.

End CharFacts.

(** ** The numbering patterns exclude one another *)

Section Numbering.

(** What the three patterns require after the first run of digits. *)
Definition tail1 : str -> bool :=
  match_items false [Opt (Chr "."); Rep 1 space].
Definition tail2 : str -> bool :=
  match_items false [One (Chr "."); Rep 1 digit; Opt (Chr "."); Rep 1 space].
Definition tail3 : str -> bool :=
  match_items false [One (Chr "."); Rep 1 digit; One (Chr "."); Rep 1 digit;
                     Opt (Chr "."); Rep 1 space].

Lemma numbering1_eq (t : str) :
  re_match false numbering1 t = rep is_digit 1 tail1 t.
Proof. reflexivity. Qed.

Lemma numbering2_eq (t : str) :
  re_match false numbering2 t = rep is_digit 1 tail2 t.
Proof. reflexivity. Qed.

Lemma numbering3_eq (t : str) :
  re_match false numbering3 t = rep is_digit 1 tail3 t.
Proof. reflexivity. Qed.

Lemma tail2_eq (s : str) :
  tail2 s = match s with
            | c :: r => Chars.eqb "." c && rep is_digit 1 tail1 r
            | [] => false
            end.
Proof. destruct s; reflexivity. Qed.

Lemma tail3_eq (s : str) :
  tail3 s = match s with
            | c :: r => Chars.eqb "." c && rep is_digit 1 tail2 r
            | [] => false
            end.
Proof. destruct s; reflexivity. Qed.

Lemma tail1_digit (c : ascii) (r : str) :
  is_digit c = true -> tail1 (c :: r) = false.
Proof.
  intros H. unfold tail1. cbn [match_items atom_ok space rep].
  rewrite (digit_not_dot c H), (digit_not_space c H). reflexivity.
Qed.

Lemma tail2_digit (c : ascii) (r : str) :
  is_digit c = true -> tail2 (c :: r) = false.
Proof. intros H. rewrite tail2_eq, (digit_not_dot c H). reflexivity. Qed.

Lemma tail3_digit (c : ascii) (r : str) :
  is_digit c = true -> tail3 (c :: r) = false.
Proof. intros H. rewrite tail3_eq, (digit_not_dot c H). reflexivity. Qed.

(** After a full stop and a digit, [\.?\s+] cannot match. *)
Lemma tail1_dot_digit (c : ascii) (r : str) :
  is_digit c = true -> tail1 ("."%char :: c :: r) = false.
Proof.
  intros H. unfold tail1. cbn [match_items atom_ok space rep].
  rewrite (digit_not_space c H). reflexivity.
Qed.

Lemma tail2_not_tail1 (s : str) : tail2 s = true -> tail1 s = false.
Proof.
  rewrite tail2_eq. destruct s as [|d r]; [discriminate|].
  intros H. apply andb_true_iff in H. destruct H as [Hd Hr].
  apply Ascii.eqb_eq in Hd. subst d.
  apply rep_pos_head in Hr. destruct Hr as [c [r' [-> Hc]]].
  apply tail1_dot_digit, Hc.
Qed.

Lemma tail3_not_tail1 (s : str) : tail3 s = true -> tail1 s = false.
Proof.
  rewrite tail3_eq. destruct s as [|d r]; [discriminate|].
  intros H. apply andb_true_iff in H. destruct H as [Hd Hr].
  apply Ascii.eqb_eq in Hd. subst d.
  apply rep_pos_head in Hr. destruct Hr as [c [r' [-> Hc]]].
  apply tail1_dot_digit, Hc.
Qed.

Lemma tail3_not_tail2 (s : str) : tail3 s = true -> tail2 s = false.
Proof.
  rewrite tail3_eq, tail2_eq. destruct s as [|d r]; [discriminate|].
  intros H. apply andb_true_iff in H. destruct H as [Hd Hr].
  rewrite Hd. simpl.
  rewrite rep_greedy in Hr by apply tail2_digit.
  rewrite rep_greedy by apply tail1_digit.
  apply andb_true_iff in Hr. destruct Hr as [Hn Ht].
  rewrite Hn, (tail2_not_tail1 _ Ht). reflexivity.
Qed.

(** A text matches at most one of the three numbering patterns. *)
Lemma numbering2_not_1 (t : str) :
  re_match false numbering2 t = true -> re_match false numbering1 t = false.
Proof.
  rewrite numbering1_eq, numbering2_eq.
  rewrite !rep_greedy by (apply tail1_digit || apply tail2_digit).
  intros H. apply andb_true_iff in H. destruct H as [Hn Ht].
  rewrite (tail2_not_tail1 _ Ht). apply andb_false_r.
Qed.

Lemma numbering3_not_1 (t : str) :
  re_match false numbering3 t = true -> re_match false numbering1 t = false.
Proof.
  rewrite numbering1_eq, numbering3_eq.
  rewrite !rep_greedy by (apply tail1_digit || apply tail3_digit).
  intros H. apply andb_true_iff in H. destruct H as [Hn Ht].
  rewrite (tail3_not_tail1 _ Ht). apply andb_false_r.
Qed.

Lemma numbering3_not_2 (t : str) :
  re_match false numbering3 t = true -> re_match false numbering2 t = false.
Proof.
  rewrite numbering2_eq, numbering3_eq.
  rewrite !rep_greedy by (apply tail2_digit || apply tail3_digit).
  intros H. apply andb_true_iff in H. destruct H as [Hn Ht].
  rewrite (tail3_not_tail2 _ Ht). apply andb_false_r.
Qed.

(** The override in the order of the specification: the deepest
    numbering first. *)
Definition override_level (t : str) (base_level : string) : string :=
  if re_match false numbering3 t then "H3"%string
  else if re_match false numbering2 t then "H2"%string
  else if re_match false numbering1 t then "H1"%string
  else base_level.

Lemma refine_level_override (t : str) (base_level : string) :
  refine_level t base_level = override_level t base_level.
Proof.
  unfold refine_level, override_level.
  destruct (re_match false numbering3 t) eqn:E3.
  - rewrite (numbering3_not_1 t E3), (numbering3_not_2 t E3). reflexivity.
  - destruct (re_match false numbering2 t) eqn:E2.
    + rewrite (numbering2_not_1 t E2). reflexivity.
    + reflexivity.
Qed.

End Numbering.

(** ** Order facts of the stable sort *)

Section SortOrder.
Context {A : Type} (lt : A -> A -> bool).
Hypothesis lt_asym : forall x y, lt x y = true -> lt y x = false.
Hypothesis le_trans :
  forall x y z, lt y x = false -> lt z y = false -> lt z x = false.

(** [x] is not after [y]: the key of [y] is not below that of [x]. *)
Definition not_after (x y : A) : Prop := lt y x = false.

Lemma insert_by_sorted (x : A) (l : list A) :
  StronglySorted not_after l -> StronglySorted not_after (insert_by lt x l).
Proof using lt_asym le_trans.
  induction 1 as [|z r Hr IH Hz]; simpl.
  - constructor; constructor.
  - destruct (lt z x) eqn:E.
    + constructor; [exact IH|].
      apply List.Forall_forall. intros y Hy.
      apply insert_by_In in Hy. destruct Hy as [->|Hy].
      * apply lt_asym, E.
      * rewrite List.Forall_forall in Hz. apply Hz, Hy.
    + constructor; [constructor; assumption|].
      constructor; [exact E|].
      rewrite List.Forall_forall in Hz |- *. intros y Hy.
      unfold not_after in *. apply (le_trans x z y); [exact E|apply Hz, Hy].
Qed.

Lemma sort_by_sorted (l : list A) : StronglySorted not_after (sort_by lt l).
Proof using lt_asym le_trans.
  induction l as [|x r IH]; simpl; [constructor|].
  apply insert_by_sorted, IH.
Qed.

Lemma lt_irrefl (x : A) : lt x x = false.
Proof using lt_asym.
  destruct (lt x x) eqn:E; [|reflexivity].
  rewrite (lt_asym x x E) in E. discriminate.
Qed.

(** The first element of the sorted list is not after any element of
    the list. *)
Lemma sort_by_head (l : list A) (c : A) (rest : list A) :
  sort_by lt l = c :: rest -> forall y, In y l -> lt y c = false.
Proof using lt_asym le_trans.
  intros E y Hy. apply (sort_by_In lt) in Hy. rewrite E in Hy.
  pose proof (sort_by_sorted l) as S. rewrite E in S.
  apply StronglySorted_inv in S. destruct S as [_ F].
  destruct Hy as [<-|Hy]; [apply lt_irrefl|].
  rewrite List.Forall_forall in F. apply F, Hy.
Qed.

End SortOrder.

Section SortedFilter.
Context {A : Type} (R : A -> A -> Prop).

Lemma StronglySorted_filter (P : A -> bool) (l : list A) :
  StronglySorted R l -> StronglySorted R (List.filter P l).
Proof.
  induction 1 as [|x r Hr IH Hx]; simpl; [constructor|].
  destruct (P x); [|exact IH]. constructor; [exact IH|].
  rewrite List.Forall_forall in Hx |- *. intros y Hy.
  apply filter_In in Hy. apply Hx, Hy.
Qed.

Lemma StronglySorted_map {B : Type} (f : A -> B) (S : B -> B -> Prop)
      (l : list A) :
  (forall x y, R x y -> S (f x) (f y)) ->
  StronglySorted R l -> StronglySorted S (map f l).
Proof.
  intros H. induction 1 as [|x r Hr IH Hx]; simpl; constructor; [exact IH|].
  rewrite List.Forall_forall in Hx. apply List.Forall_forall. intros y Hy.
  apply in_map_iff in Hy. destruct Hy as [z [<- Hz]]. apply H, Hx, Hz.
Qed.

Lemma StronglySorted_weaken (S : A -> A -> Prop) (l : list A) :
  (forall x y, R x y -> S x y) ->
  StronglySorted R l -> StronglySorted S l.
Proof.
  intros H. induction 1 as [|x r Hr IH Hx]; constructor; [exact IH|].
  rewrite List.Forall_forall in Hx. apply List.Forall_forall.
  intros y Hy. apply H, Hx, Hy.
Qed.

End SortedFilter.

(** The three orders the extractor sorts by. *)
Section Keys.

Lemma Qltb_lt (a b : Q) : Qltb a b = true <-> (a < b)%Q.
Proof.
  unfold Qltb. rewrite negb_true_iff. split.
  - intros H. apply Qnot_le_lt. intros L. apply Qle_bool_iff in L. congruence.
  - intros H. destruct (Qle_bool b a) eqn:E; [|reflexivity].
    apply Qle_bool_iff in E. lra.
Qed.

Lemma Qltb_ge (a b : Q) : Qltb a b = false <-> (b <= a)%Q.
Proof.
  unfold Qltb. rewrite negb_false_iff. apply Qle_bool_iff.
Qed.

Lemma Qeqb_eq (a b : Q) : Qeqb a b = true <-> (a == b)%Q.
Proof. apply Qeq_bool_iff. Qed.

Lemma Qeqb_neq (a b : Q) : Qeqb a b = false <-> ~ (a == b)%Q.
Proof.
  rewrite <- Qeqb_eq. destruct (Qeqb a b); split; congruence.
Qed.

(** [font_size], largest first. *)
Definition font_lt (a b : candidate) : bool :=
  Qltb (h_font_size b) (h_font_size a).

Lemma font_lt_asym (x y : candidate) :
  font_lt x y = true -> font_lt y x = false.
Proof. unfold font_lt. rewrite Qltb_lt, Qltb_ge. lra. Qed.

Lemma font_le_trans (x y z : candidate) :
  font_lt y x = false -> font_lt z y = false -> font_lt z x = false.
Proof. unfold font_lt. rewrite !Qltb_ge. lra. Qed.

Lemma Qdesc_asym (x y : Q) : Qltb y x = true -> Qltb x y = false.
Proof. rewrite Qltb_lt, Qltb_ge. lra. Qed.

Lemma Qdesc_trans (x y z : Q) :
  Qltb x y = false -> Qltb y z = false -> Qltb x z = false.
Proof. rewrite !Qltb_ge. lra. Qed.

(** [(page, y_position)] *)
Lemma page_y_lt_true (a b : classified) :
  page_y_lt a b = true <->
  (h_page (c_cand a) < h_page (c_cand b))%Z \/
  (h_page (c_cand a) = h_page (c_cand b) /\
   (h_y_position (c_cand a) < h_y_position (c_cand b))%Q).
Proof.
  unfold page_y_lt.
  destruct (Z.eqb_spec (h_page (c_cand a)) (h_page (c_cand b))) as [E|N].
  - rewrite Qltb_lt. split; [intros; right; auto|intros [H|[_ H]]; [lia|exact H]].
  - rewrite Z.ltb_lt. split; [intros; left; auto|intros [H|[H _]]; [exact H|lia]].
Qed.

Lemma page_y_lt_false (a b : classified) :
  page_y_lt a b = false <->
  (h_page (c_cand b) < h_page (c_cand a))%Z \/
  (h_page (c_cand a) = h_page (c_cand b) /\
   (h_y_position (c_cand b) <= h_y_position (c_cand a))%Q).
Proof.
  unfold page_y_lt.
  destruct (Z.eqb_spec (h_page (c_cand a)) (h_page (c_cand b))) as [E|N].
  - rewrite Qltb_ge. split; [intros; right; auto|intros [H|[_ H]]; [lia|exact H]].
  - rewrite Z.ltb_ge. split; [intros; left; lia|intros [H|[H _]]; lia].
Qed.

Lemma page_y_lt_asym (x y : classified) :
  page_y_lt x y = true -> page_y_lt y x = false.
Proof.
  rewrite page_y_lt_true, page_y_lt_false.
  intros [H|[H1 H2]]; [left; exact H|right; split; [auto|lra]].
Qed.

Lemma page_y_le_trans (x y z : classified) :
  page_y_lt y x = false -> page_y_lt z y = false -> page_y_lt z x = false.
Proof.
  rewrite !page_y_lt_false.
  intros [H|[H1 H2]] [G|[G1 G2]]; try (left; lia).
  right. split; [lia|lra].
Qed.

(** [(-font_size, y_position)] *)
Lemma title_key_lt_false (a b : title_candidate) :
  title_key_lt a b = false <->
  (t_font_size a < t_font_size b)%Q \/
  ((t_font_size a == t_font_size b)%Q /\
   (t_y_position b <= t_y_position a)%Q).
Proof.
  unfold title_key_lt.
  destruct (Qeqb (- t_font_size a) (- t_font_size b)) eqn:E.
  - apply Qeqb_eq in E. rewrite Qltb_ge. split.
    + intros H. right. split; [lra|exact H].
    + intros [H|[_ H]]; [lra|exact H].
  - apply Qeqb_neq in E. rewrite Qltb_ge. split.
    + intros H. left.
      destruct (Qlt_le_dec (t_font_size a) (t_font_size b)) as [L|L]; [exact L|].
      exfalso. apply E. lra.
    + intros [H|[H _]]; [lra|exfalso; apply E; lra].
Qed.

Lemma title_key_lt_true (a b : title_candidate) :
  title_key_lt a b = true <->
  (t_font_size b < t_font_size a)%Q \/
  ((t_font_size a == t_font_size b)%Q /\
   (t_y_position a < t_y_position b)%Q).
Proof.
  unfold title_key_lt.
  destruct (Qeqb (- t_font_size a) (- t_font_size b)) eqn:E.
  - apply Qeqb_eq in E. rewrite Qltb_lt. split.
    + intros H. right. split; [lra|exact H].
    + intros [H|[_ H]]; [lra|exact H].
  - apply Qeqb_neq in E. rewrite Qltb_lt. split.
    + intros H. left. lra.
    + intros [H|[H _]]; [lra|exfalso; apply E; lra].
Qed.

Lemma title_key_lt_asym (x y : title_candidate) :
  title_key_lt x y = true -> title_key_lt y x = false.
Proof.
  rewrite title_key_lt_true, title_key_lt_false.
  intros [H|[H1 H2]]; [left; exact H|right; split; lra].
Qed.

Lemma title_key_le_trans (x y z : title_candidate) :
  title_key_lt y x = false -> title_key_lt z y = false ->
  title_key_lt z x = false.
Proof.
  rewrite !title_key_lt_false.
  intros [H|[H1 H2]] [G|[G1 G2]]; try (left; lra).
  right. split; lra.
Qed.

End Keys.

(** ** Level classification *)

Section Levels.
Import Examples.

Lemma distinct_Q_In (x : Q) (l : list Q) : In x (distinct_Q l) -> In x l.
Proof.
  induction l as [|y r IH]; simpl; [tauto|].
  destruct (existsb (Qeqb y) r); simpl; intuition.
Qed.

Lemma distinct_Q_represents (x : Q) (l : list Q) :
  In x l -> exists y, In y (distinct_Q l) /\ (y == x)%Q.
Proof.
  revert x. induction l as [|z r IH]; intros x; simpl; [tauto|].
  destruct (existsb (Qeqb z) r) eqn:E.
  - intros [->|H]; [|exact (IH x H)].
    apply existsb_exists in E. destruct E as [y [Hy Hxy]].
    apply Qeqb_eq in Hxy. destruct (IH y Hy) as [y' [Hy' E']].
    exists y'. split; [exact Hy'|]. rewrite E', Hxy. reflexivity.
  - intros [->|H].
    + exists x. split; [left; reflexivity|reflexivity].
    + destruct (IH x H) as [y [Hy E']]. exists y.
      split; [right; exact Hy|exact E'].
Qed.

(** The level that the font rank alone gives a candidate: phase 1 of
    [_classify_headings]. *)
Definition phase1_level (hs : list candidate) (h : candidate) : string :=
  dict_get (size_to_level (ranked_font_sizes (sort_by font_lt hs)))
           (h_font_size h) "H3".

Lemma classify_map (hs : list candidate) (st : doc_stats) :
  _classify_headings hs st
  = map (fun h => {| c_cand := h;
                     c_level := refine_level (strip (h_text h))
                                             (phase1_level hs h) |})
        (sort_by font_lt hs).
Proof.
  unfold _classify_headings. destruct hs as [|h0 r]; reflexivity.
Qed.

(** A candidate of the largest font size has rank 0: phase 1 maps it to
    H1. *)
Lemma phase1_top (hs : list candidate) (h : candidate) :
  In h hs ->
  (forall h', In h' hs -> (h_font_size h' <= h_font_size h)%Q) ->
  phase1_level hs h = "H1"%string.
Proof.
  intros Hh Hmax. unfold phase1_level, ranked_font_sizes.
  set (sizes := map h_font_size (sort_by font_lt hs)).
  assert (Hsz : In (h_font_size h) sizes).
  { apply in_map, sort_by_In, Hh. }
  destruct (distinct_Q_represents _ _ Hsz) as [y [Hy Ey]].
  destruct (sort_by (fun a b : Q => Qltb b a) (distinct_Q sizes))
    as [|s0 rest] eqn:E.
  { apply sort_by_nil_inv in E. rewrite E in Hy. destruct Hy. }
  assert (Hge : (y <= s0)%Q).
  { apply Qltb_ge.
    apply (sort_by_head (fun a b : Q => Qltb b a)
                        (fun a b H => Qdesc_asym a b H) Qdesc_trans
                        _ _ _ E y Hy). }
  assert (Hle : (s0 <= h_font_size h)%Q).
  { assert (Hs0 : In s0 sizes).
    { apply distinct_Q_In, (sort_by_In (fun a b : Q => Qltb b a)).
      rewrite E. left. reflexivity. }
    apply in_map_iff in Hs0. destruct Hs0 as [h' [<- Hh']].
    apply Hmax, (sort_by_In font_lt), Hh'. }
  assert (Heq : Qeqb s0 (h_font_size h) = true).
  { apply Qeqb_eq. lra. }
  destruct rest as [|s1 [|s2 r]]; simpl; rewrite Heq; reflexivity.
Qed.

(** C4: every classified candidate has the level H3 when its trimmed
    text matches the three-level numeric prefix, else H2 when it matches
    the two-level prefix, else H1 when it matches the bare numeric
    prefix, else the level of its font rank; every candidate is
    classified; and a candidate of the largest font size, which the font
    rank alone maps to H1, is H3 when its text has a three-level
    prefix, as "1.1.1 Detail" is in a document with one heading font
    size. *)
Theorem C4_numbering_override (hs : list candidate) (st : doc_stats) :
  Forall (fun c =>
            c_level c = override_level (strip (h_text (c_cand c)))
                                       (phase1_level hs (c_cand c)))
         (_classify_headings hs st)
  /\ map c_cand (_classify_headings hs st) = sort_by font_lt hs
  /\ (forall c, In c (_classify_headings hs st) ->
        (forall h', In h' hs ->
                    (h_font_size h' <= h_font_size (c_cand c))%Q) ->
        re_match false numbering3 (strip (h_text (c_cand c))) = true ->
        phase1_level hs (c_cand c) = "H1"%string /\
        c_level c = "H3"%string)
  /\ map (fun o => (level o, o_text o)) (extract_headings numbered_pages)
     = [ ("H1"%string, lit "1. Scope"); ("H2"%string, lit "1.1 Terms");
         ("H3"%string, lit "1.1.1 Detail") ].
Proof.
  rewrite classify_map.
  assert (F : forall c,
             In c (map (fun h => {| c_cand := h;
                                    c_level := refine_level (strip (h_text h))
                                                 (phase1_level hs h) |})
                       (sort_by font_lt hs)) ->
             In (c_cand c) hs /\
             c_level c = override_level (strip (h_text (c_cand c)))
                                        (phase1_level hs (c_cand c))).
  { intros c Hc. apply in_map_iff in Hc. destruct Hc as [h [<- Hh]].
    simpl. split; [apply (sort_by_In font_lt), Hh|].
    apply refine_level_override. }
  split; [|split; [|split]].
  - apply List.Forall_forall. intros c Hc. apply F, Hc.
  - rewrite map_map. simpl. apply map_id.
  - intros c Hc Hmax H3. destruct (F c Hc) as [Hin Hl].
    split; [apply phase1_top; assumption|].
    rewrite Hl. unfold override_level. rewrite H3. reflexivity.
  - vm_compute. reflexivity.
Qed.

End Levels.

(** ** Heading patterns, case ignored *)

Section Patterns.

Lemma matches_any_In (ps : list regex) (p : regex) (t : str) :
  In p ps -> re_match true p t = true -> matches_any ps t = true.
Proof.
  induction ps as [|q r IH]; simpl; [tauto|].
  intros [->|H] M.
  - rewrite M. reflexivity.
  - destruct (re_match true q t); [reflexivity|exact (IH H M)].
Qed.

(** [^[A-Z][A-Z\s]{2,}$] and [^[A-Z]\.?\s+] *)
Definition all_caps : regex :=
  {| bol := true; items := [One AZ; Rep 2 AZ_space; Eol] |}.
Definition single_letter : regex :=
  {| bol := true; items := [One AZ; Opt (Chr "."); Rep 1 space] |}.

Lemma all_caps_listed : In all_caps heading_patterns.
Proof. unfold heading_patterns, all_caps. simpl. tauto. Qed.

Lemma single_letter_listed : In single_letter heading_patterns.
Proof. unfold heading_patterns, single_letter. simpl. tauto. Qed.

Definition letter_or_space (c : ascii) : bool := is_alpha c || is_space c.

Lemma match_One (ic : bool) (a : atom) (r : list item) (c : ascii) (s : str) :
  match_items ic (One a :: r) (c :: s) = atom_ok ic a c && match_items ic r s.
Proof. reflexivity. Qed.

Lemma match_Rep (ic : bool) (n : nat) (a : atom) (r : list item) (s : str) :
  match_items ic (Rep n a :: r) s = rep (atom_ok ic a) n (match_items ic r) s.
Proof. reflexivity. Qed.

Lemma match_Opt_skip (ic : bool) (a : atom) (r : list item) (s : str) :
  match_items ic r s = true -> match_items ic (Opt a :: r) s = true.
Proof.
  intros H. destruct s as [|c s']; cbn [match_items]; rewrite H;
    [reflexivity|apply orb_true_r].
Qed.

Lemma match_Opt_take (ic : bool) (a : atom) (r : list item) (c : ascii)
      (s : str) :
  atom_ok ic a c = true -> match_items ic r s = true ->
  match_items ic (Opt a :: r) (c :: s) = true.
Proof.
  intros Ha H. cbn [match_items]. rewrite Ha, H. reflexivity.
Qed.

Lemma all_caps_match (c : ascii) (r : str) :
  is_alpha c = true -> forallb letter_or_space r = true -> 2 <= length r ->
  re_match true all_caps (c :: r) = true.
Proof.
  intros Hc Hr Hl. unfold re_match, all_caps. cbn [items].
  rewrite match_One, (alpha_AZ c Hc), andb_true_l, match_Rep.
  apply rep_all; [|exact Hl|reflexivity].
  apply forallb_forall. intros x Hx. apply alpha_AZ_space.
  rewrite forallb_forall in Hr. apply (Hr x Hx).
Qed.

Lemma single_letter_match (c w : ascii) (rest : str) :
  is_alpha c = true -> is_space w = true ->
  re_match true single_letter (c :: w :: rest) = true /\
  re_match true single_letter (c :: "."%char :: w :: rest) = true.
Proof.
  intros Hc Hw. unfold re_match, single_letter. cbn [items].
  assert (R : match_items true [Rep 1 space] (w :: rest) = true).
  { rewrite match_Rep. apply (rep_app _ _ [w] rest 1).
    - cbn [forallb]. rewrite (space_ic w Hw). reflexivity.
    - simpl. lia.
    - reflexivity. }
  rewrite !match_One, (alpha_AZ c Hc), !andb_true_l. split.
  - apply match_Opt_skip, R.
  - apply match_Opt_take; [reflexivity|exact R].
Qed.

(** C10 as it is stated fails: the text " ab" has three characters,
    all of them letters or blanks, and matches no heading pattern; the
    all-caps pattern wants a letter first. *)
Lemma C10_leading_blank_counterexample :
  ~ (forall t : str,
        3 <= length t ->
        forallb (fun c => is_alpha c || Chars.eqb c " ") t = true ->
        _matches_heading_pattern t = true).
Proof.
  intros H. specialize (H (lit " ab")).
  assert (E : _matches_heading_pattern (lit " ab") = false) by reflexivity.
  rewrite E in H. discriminate H; [simpl; lia|reflexivity].
Qed.

(** C10, amended: the patterns are matched with the case ignored, so
    [_matches_heading_pattern] is true on every text of at least three
    characters that starts with a letter of either case and goes on with
    letters and spaces only ("hello world"), and on every text that
    starts with one letter of either case, an optional full stop, and a
    space ("a cat sat"). *)
Theorem C10_case_ignored (c : ascii) (r : str) (Hc : is_alpha c = true) :
  (forallb letter_or_space r = true -> 2 <= length r ->
   _matches_heading_pattern (c :: r) = true) /\
  (forall w rest, is_space w = true ->
     _matches_heading_pattern (c :: w :: rest) = true /\
     _matches_heading_pattern (c :: "."%char :: w :: rest) = true).
Proof.
  split.
  - intros Hr Hl. apply (matches_any_In _ all_caps); [apply all_caps_listed|].
    apply all_caps_match; assumption.
  - intros w rest Hw.
    destruct (single_letter_match c w rest Hc Hw) as [M1 M2].
    split; apply (matches_any_In _ single_letter);
      solve [apply single_letter_listed | assumption].
Qed.

Lemma C10_case_ignored_witness :
  is_alpha "h" = true /\
  _matches_heading_pattern (lit "hello world") = true /\
  _matches_heading_pattern (lit "h. world") = true.
Proof.
  assert (Hc : is_alpha "h" = true) by reflexivity.
  split; [exact Hc|]. split.
  - apply (proj1 (C10_case_ignored "h" (lit "ello world") Hc));
      [reflexivity|simpl; lia].
  - apply (proj2 (C10_case_ignored "h" (lit "ello world") Hc) " "%char
                 (lit "world")). reflexivity.
Defined.

Lemma pattern_examples :
  _matches_heading_pattern (lit "hello world") = true /\
  _matches_heading_pattern (lit "a cat sat") = true /\
  re_match true single_letter (lit "a cat sat") = true /\
  _matches_heading_pattern (lit "1.1.1 Detail") = true /\
  _has_numbering (lit "1. Introduction") = true /\
  _has_numbering (lit "Introduction") = false.
Proof. vm_compute. repeat split. Qed.

End Patterns.

(** ** Order of the outline *)

Section OutlineOrder.
Import Examples.

Lemma filter_map_comm {A B : Type} (f : A -> B) (P : B -> bool) (l : list A) :
  List.filter P (map f l) = map f (List.filter (fun x => P (f x)) l).
Proof.
  induction l as [|x r IH]; simpl; [reflexivity|].
  destruct (P (f x)); simpl; rewrite IH; reflexivity.
Qed.

(** The candidates at a given page and height, and those among them of
    a given font size. *)
Definition at_place (pg : Z) (y : Q) (h : candidate) : bool :=
  Z.eqb (h_page h) pg && Qeqb (h_y_position h) y.

Definition at_place_size (pg : Z) (y f : Q) (h : candidate) : bool :=
  at_place pg y h && Qeqb (h_font_size h) f.

(** [(page, y)] of [a] is at most that of [b]. *)
Definition page_y_le (a b : classified) : Prop :=
  (h_page (c_cand a) < h_page (c_cand b))%Z \/
  (h_page (c_cand a) = h_page (c_cand b) /\
   (h_y_position (c_cand a) <= h_y_position (c_cand b))%Q).

Definition font_ge (a b : candidate) : Prop :=
  (h_font_size b <= h_font_size a)%Q.

(** The claim on ties, as it is stated: the headings of one page and
    height follow one another in the order in which they were met. *)
Definition ties_in_discovery_order (pages_data : list page) : Prop :=
  forall pg y,
    map c_cand (List.filter (fun c => at_place pg y (c_cand c))
                            (sorted_headings pages_data))
    = List.filter (at_place pg y)
                  (potential_headings pages_data (_get_doc_stats pages_data)).

Lemma at_place_tie (pg : Z) (y : Q) (a b : classified) :
  at_place pg y (c_cand a) = true -> at_place pg y (c_cand b) = true ->
  page_y_lt b a = false.
Proof.
  unfold at_place. rewrite !andb_true_iff, !Z.eqb_eq, !Qeqb_eq.
  intros [Pa Ya] [Pb Yb]. apply page_y_lt_false. right.
  split; [congruence|]. rewrite Ya, Yb. apply Qle_refl.
Qed.

Lemma sorted_headings_eq (pages_data : list page) :
  let pot := potential_headings pages_data (_get_doc_stats pages_data) in
  sorted_headings pages_data
  = sort_by page_y_lt
      (map (fun h => {| c_cand := h;
                        c_level := refine_level (strip (h_text h))
                                                (phase1_level pot h) |})
           (sort_by font_lt pot)).
Proof.
  unfold sorted_headings. simpl. rewrite classify_map. reflexivity.
Qed.

(** C2 as it is stated fails on a page where two headings lie on one
    line: "Results" (12 pt) is met before "Summary" (18 pt), both on
    page 1 at y = 300, and the outline lists "Summary" first. *)
Lemma C2_same_line_counterexample :
  map h_text (potential_headings same_line_page (_get_doc_stats same_line_page))
  = [lit "Annual Report"; lit "Results"; lit "Summary"]
  /\ map (fun h => (h_page h, h_y_position h))
         (potential_headings same_line_page (_get_doc_stats same_line_page))
     = [(1%Z, 60%Q); (1%Z, 300%Q); (1%Z, 300%Q)]
  /\ map o_text (extract_headings same_line_page)
     = [lit "Annual Report"; lit "Summary"; lit "Results"]
  /\ ~ ties_in_discovery_order same_line_page.
Proof.
  split; [vm_compute; reflexivity|].
  split; [vm_compute; reflexivity|].
  split; [vm_compute; reflexivity|].
  intros H. specialize (H 1%Z 300%Q).
  apply (f_equal (map h_text)) in H. vm_compute in H. discriminate H.
Qed.

(** C2, amended: the outline is the projection of the classified
    candidates sorted by [(page, y)], non-decreasingly; headings of the
    same page and y follow one another by font size, largest first; and
    headings of the same page, y and font size follow one another in
    the order in which they were met. *)
Theorem C2_outline_order (pages_data : list page) :
  extract_headings pages_data = map to_heading (sorted_headings pages_data)
  /\ StronglySorted page_y_le (sorted_headings pages_data)
  /\ (forall pg y,
        StronglySorted font_ge
          (map c_cand (List.filter (fun c => at_place pg y (c_cand c))
                                   (sorted_headings pages_data))))
  /\ (forall pg y f,
        map c_cand (List.filter (fun c => at_place_size pg y f (c_cand c))
                                (sorted_headings pages_data))
        = List.filter (at_place_size pg y f)
            (potential_headings pages_data (_get_doc_stats pages_data))).
Proof.
  split; [|split; [|split]].
  - destruct pages_data; reflexivity.
  - unfold sorted_headings.
    eapply StronglySorted_weaken;
      [|apply (sort_by_sorted page_y_lt page_y_lt_asym page_y_le_trans)].
    intros x y H. unfold not_after in H. apply page_y_lt_false in H.
    unfold page_y_le. destruct H as [H|[H1 H2]]; [left; exact H|].
    right. split; [symmetry; exact H1|exact H2].
  - intros pg y. rewrite sorted_headings_eq. simpl.
    rewrite filter_sort_by by (intros a b Ha Hb; exact (at_place_tie pg y a b Ha Hb)).
    rewrite filter_map_comm, map_map. simpl. rewrite map_id.
    apply StronglySorted_filter.
    eapply StronglySorted_weaken;
      [|apply (sort_by_sorted font_lt font_lt_asym font_le_trans)].
    intros a b H. unfold not_after, font_lt in H. apply Qltb_ge in H. exact H.
  - intros pg y f. rewrite sorted_headings_eq. simpl.
    rewrite filter_sort_by.
    + rewrite filter_map_comm, map_map. simpl. rewrite map_id.
      apply filter_sort_by. intros a b Ha Hb. unfold at_place_size in *.
      apply andb_true_iff in Ha, Hb. destruct Ha as [_ Ha]. destruct Hb as [_ Hb].
      apply Qeqb_eq in Ha, Hb. unfold font_lt. apply Qltb_ge.
      rewrite Ha, Hb. apply Qle_refl.
    + intros a b Ha Hb. unfold at_place_size in *.
      apply andb_true_iff in Ha, Hb.
      apply (at_place_tie pg y); tauto.
Qed.

End OutlineOrder.

(** ** Title selection *)

Section Title.
Import Examples.

(** The test a block of the first page passes to enter the pool, in the
    words of the specification. *)
Definition title_ok (avg : float) (b : block) : bool :=
  negb (PrimFloat.ltb (to_float (font_size b)) avg) &&
  (3 <=? length (strip (text b))) && (length (strip (text b)) <=? 200) &&
  negb (_is_likely_header_footer (strip (text b))).

Definition title_candidate_of (b : block) : title_candidate :=
  {| t_text := strip (text b);
     t_font_size := font_size b;
     t_is_bold := is_bold b;
     t_y_position := y_position b;
     t_page_number := match b_page_number b with Some n => n | None => 1%Z end |}.

(** The pool: the blocks of the first page that pass the test. *)
Definition title_pool (pages_data : list page) : list title_candidate :=
  match pages_data with
  | [] => []
  | first_page :: _ =>
      map title_candidate_of
          (List.filter (title_ok (get_avg_font_size (_get_doc_stats pages_data)))
                       (text_blocks first_page))
  end.

(** The title made of the text of a candidate. *)
Definition title_from (c : title_candidate) : str :=
  let title := _clean_title_text (t_text c) in
  match title with
  | [] => untitled
  | _ => title
  end.

Lemma title_ok_spec (avg : float) (b : block) :
  title_ok avg b = true <->
  PrimFloat.ltb (to_float (font_size b)) avg = false /\
  3 <= length (strip (text b)) <= 200 /\
  _is_likely_header_footer (strip (text b)) = false.
Proof.
  unfold title_ok.
  rewrite !andb_true_iff, !negb_true_iff, !Nat.leb_le. tauto.
Qed.

Lemma title_ok_tests (avg : float) (b : block) :
  title_ok avg b
  = negb (PrimFloat.ltb (to_float (font_size b)) avg) &&
    negb ((length (strip (text b)) <? 3) || (200 <? length (strip (text b)))) &&
    negb (_is_likely_header_footer (strip (text b))).
Proof.
  unfold title_ok.
  rewrite negb_orb, !Nat.ltb_antisym, !negb_involutive.
  rewrite andb_assoc. reflexivity.
Qed.

Lemma title_candidates_loop_filter (avg : float) (bs : list block) :
  title_candidates_loop avg bs
  = map title_candidate_of (List.filter (title_ok avg) bs).
Proof.
  induction bs as [|b r IH]; [reflexivity|].
  cbn [title_candidates_loop List.filter]. rewrite title_ok_tests, IH.
  destruct (PrimFloat.ltb (to_float (font_size b)) avg); [reflexivity|].
  destruct ((length (strip (text b)) <? 3) || (200 <? length (strip (text b))));
    [reflexivity|].
  destruct (_is_likely_header_footer (strip (text b))); reflexivity.
Qed.

Lemma extract_title_pool (pages_data : list page) :
  extract_title pages_data
  = match sort_by title_key_lt (title_pool pages_data) with
    | [] => untitled
    | c :: _ => title_from c
    end.
Proof.
  unfold extract_title, title_pool.
  destruct pages_data as [|p r]; [reflexivity|].
  rewrite title_candidates_loop_filter.
  destruct (text_blocks p) as [|b bs] eqn:Eb; [reflexivity|].
  set (pool := map title_candidate_of
                   (List.filter (title_ok (get_avg_font_size
                                             (_get_doc_stats (p :: r))))
                                (b :: bs))).
  destruct pool as [|c0 cs] eqn:Ep; [reflexivity|].
  destruct (sort_by title_key_lt (c0 :: cs)) as [|c rest]; reflexivity.
Qed.

(** The cleaned title does not start with a lower-case letter. *)
Lemma clean_title_capital (t : str) :
  match _clean_title_text t with
  | c :: _ => is_lower c = false
  | [] => True
  end.
Proof.
  unfold _clean_title_text.
  destruct (remove_prefix prefixes_to_remove (join (lit " ") (split t))
                          (lower (join (lit " ") (split t)))) as [|c r];
    [exact I|].
  destruct (is_lower c) eqn:E; [|exact E].
  clear -E. destruct c as [[] [] [] [] [] [] [] []]; vm_compute in *; congruence.
Qed.

End Title.

(** ** The store: what the two methods read and write *)

Module StoreFacts.
Import Store.

(** The program runs without raising and ends in a state and with a
    result that satisfy [Q]. *)
Definition wp {A : Type} (m : M A) (s : store) (Q : A -> store -> Prop)
  : Prop :=
  match m s with
  | Some (a, s') => Q a s'
  | None => False
  end.

(** Every object of [s] is in [s'], at the same place and unchanged. *)
Definition extends (s s' : store) : Prop :=
  forall l o, s !! l = Some o -> s' !! l = Some o.

(** The input: a list of pages, each with its list of blocks. *)
Definition blocks_at (s : store) (ls : list loc) (bs : list block) : Prop :=
  Forall2 (fun l b => s !! l = Some (OBlock b)) ls bs.

Definition page_at (s : store) (l : loc) (p : page) : Prop :=
  exists bl bls,
    s !! l = Some (OPage (page_number p) bl) /\
    s !! bl = Some (OList bls) /\
    blocks_at s bls (text_blocks p).

Definition pages_at (s : store) (pages_data : loc) (pages : list page)
  : Prop :=
  exists pls, s !! pages_data = Some (OList pls) /\
              Forall2 (page_at s) pls pages.

(** Objects made by the methods, all at locations from [n] on. *)
Definition cands_at (n : nat) (s : store) (ls : list loc)
           (cs : list candidate) : Prop :=
  Forall2 (fun l c => n <= l /\ exists lv, s !! l = Some (OCand c lv)) ls cs.

Definition classified_at (n : nat) (s : store) (ls : list loc)
           (cls : list classified) : Prop :=
  Forall2 (fun l cl =>
             n <= l /\
             s !! l = Some (OCand (c_cand cl) (Some (c_level cl))))
          ls cls.

Definition titles_at (s : store) (ls : list loc)
           (ts : list title_candidate) : Prop :=
  Forall2 (fun l t => s !! l = Some (OTitle t)) ls ts.

Definition headings_at (n : nat) (s : store) (ls : list loc)
           (hs : list heading) : Prop :=
  Forall2 (fun l h => n <= l /\ s !! l = Some (OHeading h)) ls hs.

(** The pages of a document laid out in a store: the blocks of a page,
    its list, the page, and at the end the list of pages. *)
Fixpoint alloc_blocks (bs : list block) : M (list loc) :=
  match bs with
  | [] => ret []
  | b :: rest =>
      bind (alloc (OBlock b)) (fun l =>
      bind (alloc_blocks rest) (fun ls => ret (l :: ls)))
  end.

Fixpoint alloc_pages (pages : list page) : M (list loc) :=
  match pages with
  | [] => ret []
  | p :: rest =>
      bind (alloc_blocks (text_blocks p)) (fun bls =>
      bind (alloc (OList bls)) (fun bl =>
      bind (alloc (OPage (page_number p) bl)) (fun l =>
      bind (alloc_pages rest) (fun ls => ret (l :: ls)))))
  end.

Definition alloc_document (pages : list page) : M loc :=
  bind (alloc_pages pages) (fun pls => alloc (OList pls)).

Section Rules.
Context {A : Type}.

Lemma wp_ret (a : A) (s : store) (Q : A -> store -> Prop) :
  Q a s -> wp (ret a) s Q.
Proof. intros H. exact H. Qed.

Lemma wp_bind {B : Type} (m : M B) (f : B -> M A) (s : store)
      (Q : A -> store -> Prop) :
  wp m s (fun b s' => wp (f b) s' Q) -> wp (bind m f) s Q.
Proof.
  unfold wp, bind. destruct (m s) as [[b s']|]; [trivial|tauto].
Qed.

Lemma wp_weaken (m : M A) (s : store) (Q Q' : A -> store -> Prop) :
  wp m s Q -> (forall a s', Q a s' -> Q' a s') -> wp m s Q'.
Proof.
  unfold wp. destruct (m s) as [[a s']|]; [|tauto]. intros H I. apply I, H.
Qed.

(** A program that only reads. *)
Lemma wp_read (m : M A) (s : store) (a : A) (Q : A -> store -> Prop) :
  m s = Some (a, s) -> Q a s -> wp m s Q.
Proof. unfold wp. intros ->. trivial. Qed.

End Rules.

Lemma wp_alloc (o : obj) (s : store) (Q : loc -> store -> Prop) :
  Q (length s) (s ++ [o]) -> wp (alloc o) s Q.
Proof. intros H. exact H. Qed.

Lemma wp_update (l : loc) (o : obj) (s : store) (Q : unit -> store -> Prop) :
  l < length s -> Q tt (<[l := o]> s) -> wp (update l o) s Q.
Proof.
  intros Hl H. unfold wp, update.
  apply Nat.ltb_lt in Hl. rewrite Hl. exact H.
Qed.

Lemma get_block_read (s : store) (l : loc) (b : block) :
  s !! l = Some (OBlock b) -> get_block l s = Some (b, s).
Proof. intros H. unfold get_block, bind, load. rewrite H. reflexivity. Qed.

Lemma get_page_read (s : store) (l : loc) (n : Z) (bl : loc) :
  s !! l = Some (OPage n bl) -> get_page l s = Some ((n, bl), s).
Proof. intros H. unfold get_page, bind, load. rewrite H. reflexivity. Qed.

Lemma get_list_read (s : store) (l : loc) (items : list loc) :
  s !! l = Some (OList items) -> get_list l s = Some (items, s).
Proof. intros H. unfold get_list, bind, load. rewrite H. reflexivity. Qed.

Lemma get_cand_read (s : store) (l : loc) (c : candidate)
      (lv : option string) :
  s !! l = Some (OCand c lv) -> get_cand l s = Some ((c, lv), s).
Proof. intros H. unfold get_cand, bind, load. rewrite H. reflexivity. Qed.

Lemma get_title_read (s : store) (l : loc) (t : title_candidate) :
  s !! l = Some (OTitle t) -> get_title l s = Some (t, s).
Proof. intros H. unfold get_title, bind, load. rewrite H. reflexivity. Qed.

Lemma read_all_read {A : Type} (get : loc -> M A) (R : loc -> A -> Prop)
      (s : store) (ls : list loc) (vs : list A) :
  (forall l v, R l v -> get l s = Some (v, s)) ->
  Forall2 R ls vs -> read_all get ls s = Some (vs, s).
Proof.
  intros H. induction 1 as [|l v ls vs Hl _ IH]; [reflexivity|].
  simpl. unfold bind. rewrite (H l v Hl), IH. reflexivity.
Qed.

(** Extension of stores. *)
Lemma extends_refl (s : store) : extends s s.
Proof. intros l o H. exact H. Qed.

Lemma extends_trans (s1 s2 s3 : store) :
  extends s1 s2 -> extends s2 s3 -> extends s1 s3.
Proof. intros H1 H2 l o H. apply H2, H1, H. Qed.

Lemma extends_alloc (s : store) (o : obj) : extends s (s ++ [o]).
Proof. intros l o' H. apply lookup_app_l_Some, H. Qed.

Lemma lookup_new (s : store) (o : obj) : (s ++ [o]) !! length s = Some o.
Proof. apply list_lookup_middle. reflexivity. Qed.

Lemma extends_length (s s' : store) : extends s s' -> length s <= length s'.
Proof.
  intros H. destruct (le_lt_dec (length s) (length s')) as [L|L]; [exact L|].
  destruct (lookup_lt_is_Some_2 s (length s') L) as [o Ho].
  apply H in Ho. apply lookup_lt_Some in Ho. lia.
Qed.

Lemma extends_update (b s : store) (l : loc) (o : obj) :
  extends b s -> length b <= l -> extends b (<[l := o]> s).
Proof.
  intros H Hl l' o' Hb. rewrite list_lookup_insert_ne.
  - apply H, Hb.
  - apply lookup_lt_Some in Hb. lia.
Qed.

Lemma lookup_update_other (s : store) (l l' : loc) (o o1 o2 : obj) :
  s !! l = Some o1 -> s !! l' = Some o2 -> l <> l' ->
  <[l := o]> s !! l' = Some o2.
Proof. intros _ H N. rewrite list_lookup_insert_ne; assumption. Qed.

Lemma lookup_update_same (s : store) (l : loc) (o o1 : obj) :
  s !! l = Some o1 -> <[l := o]> s !! l = Some o.
Proof.
  intros H. apply list_lookup_insert_eq. apply lookup_lt_Some in H. exact H.
Qed.

Lemma blocks_at_extends (s s' : store) (ls : list loc) (bs : list block) :
  extends s s' -> blocks_at s ls bs -> blocks_at s' ls bs.
Proof.
  intros E H. unfold blocks_at in *.
  induction H as [|l b ls bs Hl _ IH]; constructor; [apply E, Hl|exact IH].
Qed.

Lemma page_at_extends (s s' : store) (l : loc) (p : page) :
  extends s s' -> page_at s l p -> page_at s' l p.
Proof.
  intros E [bl [bls [H1 [H2 H3]]]]. exists bl, bls.
  split; [apply E, H1|]. split; [apply E, H2|].
  apply (blocks_at_extends s); assumption.
Qed.

(** *** Reading the input *)

Lemma font_sizes_of_pages_read (s : store) (pls : list loc)
      (pages : list page) :
  Forall2 (page_at s) pls pages ->
  font_sizes_of_pages pls s = Some (all_font_sizes_of pages, s).
Proof.
  induction 1 as [|l p pls pages Hp _ IH]; [reflexivity|].
  destruct Hp as [bl [bls [H1 [H2 H3]]]].
  simpl. unfold bind.
  rewrite (get_page_read _ _ _ _ H1). simpl.
  rewrite (get_list_read _ _ _ H2).
  rewrite (read_all_read get_block (fun l b => s !! l = Some (OBlock b))
                         s bls (text_blocks p));
    [|intros l' b' Hb; apply get_block_read, Hb|exact H3].
  rewrite IH. reflexivity.
Qed.

Lemma get_doc_stats_read (s : store) (pd : loc) (pages : list page) :
  pages_at s pd pages ->
  get_doc_stats pd s = Some (_get_doc_stats pages, s).
Proof.
  intros [pls [H1 H2]]. unfold get_doc_stats, bind.
  rewrite (get_list_read _ _ _ H1), (font_sizes_of_pages_read _ _ _ H2).
  reflexivity.
Qed.

(** *** Sorting references by the values behind them *)

Section SortRefs.
Context {A B : Type} (f : A -> B).
Variables (ltA : A -> A -> bool) (ltB : B -> B -> bool).
Hypothesis lt_f : forall a b, ltA a b = ltB (f a) (f b).

Lemma insert_by_map (x : A) (l : list A) :
  map f (insert_by ltA x l) = insert_by ltB (f x) (map f l).
Proof using lt_f.
  induction l as [|y r IH]; [reflexivity|].
  simpl. rewrite <- lt_f. destruct (ltA y x); simpl; [rewrite IH|]; reflexivity.
Qed.

Lemma sort_by_map (l : list A) :
  map f (sort_by ltA l) = sort_by ltB (map f l).
Proof using lt_f.
  induction l as [|x r IH]; [reflexivity|].
  simpl. rewrite insert_by_map, IH. reflexivity.
Qed.

End SortRefs.

Lemma combine_map_snd {A B C : Type} (g : B -> C) (l : list A) (l' : list B) :
  length l = length l' -> map (fun p => g (snd p)) (combine l l') = map g l'.
Proof.
  revert l'. induction l as [|x r IH]; intros [|y r'] H; simpl in *;
    try discriminate; [reflexivity|].
  rewrite IH by lia. reflexivity.
Qed.

Lemma Forall2_combine {A B : Type} (R : A -> B -> Prop) (l : list A)
      (l' : list B) :
  Forall2 R l l' -> Forall (fun p => R (fst p) (snd p)) (combine l l').
Proof.
  induction 1; simpl; constructor; assumption.
Qed.

Lemma Forall2_of_pairs {A B C : Type} (R : A -> C -> Prop) (g : B -> C)
      (l : list (A * B)) :
  Forall (fun p => R (fst p) (g (snd p))) l ->
  Forall2 R (map fst l) (map (fun p => g (snd p)) l).
Proof.
  induction 1; simpl; constructor; assumption.
Qed.

(** The references sorted by the keys of their values point, in order,
    to the sorted values. *)
Lemma sort_refs_Forall2 {A B : Type} (R : loc -> B -> Prop) (g : A -> B)
      (ltA : A -> A -> bool) (ltB : B -> B -> bool)
      (ls : list loc) (vs : list A) :
  (forall a b, ltA a b = ltB (g a) (g b)) ->
  Forall2 (fun l v => R l (g v)) ls vs ->
  Forall2 R (sort_refs ltA ls vs) (sort_by ltB (map g vs)).
Proof.
  intros Hlt H. unfold sort_refs.
  set (ltP := fun a b : loc * A => ltA (snd a) (snd b)).
  assert (E : sort_by ltB (map g vs)
              = map (fun p => g (snd p)) (sort_by ltP (combine ls vs))).
  { rewrite (sort_by_map (fun p : loc * A => g (snd p)) ltP ltB).
    - rewrite combine_map_snd; [reflexivity|].
      exact (Forall2_length _ _ _ H).
    - intros a b. apply Hlt. }
  rewrite E. apply Forall2_of_pairs.
  apply List.Forall_forall. intros p Hp.
  apply (proj1 (sort_by_In ltP p (combine ls vs))) in Hp.
  apply Forall2_combine in H. rewrite List.Forall_forall in H.
  apply (H p Hp).
Qed.

(** *** Objects that a write leaves alone *)

Lemma Forall2_store {A : Type} (P : store -> loc -> A -> Prop)
      (s s' : store) (ls : list loc) (vs : list A) :
  (forall l v, P s l v -> P s' l v) ->
  Forall2 (P s) ls vs -> Forall2 (P s') ls vs.
Proof.
  intros H. induction 1; constructor; [apply H|]; assumption.
Qed.

Lemma cands_at_alloc (n : nat) (s : store) (o : obj) (ls : list loc)
      (cs : list candidate) :
  cands_at n s ls cs -> cands_at n (s ++ [o]) ls cs.
Proof.
  apply (Forall2_store (fun s l c => n <= l /\ exists lv, s !! l = Some (OCand c lv))).
  intros l c [Hn [lv Hl]]. split; [exact Hn|]. exists lv.
  apply extends_alloc, Hl.
Qed.

(** Writing a list object where there was one leaves the candidates. *)
Lemma cands_at_update_list (n : nat) (s : store) (l : loc)
      (items items' : list loc) (ls : list loc) (cs : list candidate) :
  s !! l = Some (OList items) ->
  cands_at n s ls cs -> cands_at n (<[l := OList items']> s) ls cs.
Proof.
  intros Hl.
  apply (Forall2_store (fun s l c => n <= l /\ exists lv, s !! l = Some (OCand c lv))).
  intros l' c [Hn [lv Hc]]. split; [exact Hn|]. exists lv.
  rewrite list_lookup_insert_ne; [exact Hc|].
  intros ->. rewrite Hl in Hc. discriminate.
Qed.

Lemma cands_at_weaken (n n' : nat) (s : store) (ls : list loc)
      (cs : list candidate) :
  n' <= n -> cands_at n s ls cs -> cands_at n' s ls cs.
Proof.
  intros Hn. unfold cands_at.
  induction 1 as [|l c ls cs [H1 H2] _ IH]; constructor; [|exact IH].
  split; [lia|exact H2].
Qed.

Lemma cands_at_extends (n : nat) (s s' : store) (ls : list loc)
      (cs : list candidate) :
  extends s s' -> cands_at n s ls cs -> cands_at n s' ls cs.
Proof.
  intros E.
  apply (Forall2_store (fun s l c => n <= l /\ exists lv, s !! l = Some (OCand c lv))).
  intros l c [Hn [lv Hl]]. split; [exact Hn|]. exists lv. apply E, Hl.
Qed.

(** *** The loop of [_extract_page_headings] *)

Lemma page_loop_spec (b : store) (h : loc) (n : Z) (st : doc_stats)
      (bls : list loc) (blks : list block) :
  blocks_at b bls blks ->
  forall (s : store) (acc_l : list loc) (acc_c : list candidate),
    extends b s -> length b <= h ->
    s !! h = Some (OList acc_l) ->
    cands_at (length b) s acc_l acc_c ->
    wp (for_each (page_headings_body h n st) bls) s
       (fun _ s' =>
          extends b s' /\
          exists new_l,
            s' !! h = Some (OList (acc_l ++ new_l)) /\
            cands_at (length b) s' (acc_l ++ new_l)
                     (acc_c ++ page_headings_loop n st blks)).
Proof.
  induction 1 as [|x blk bls blks Hx _ IH]; intros s acc_l acc_c He Hh Hl Hc.
  - apply wp_ret. split; [exact He|]. exists []. simpl.
    rewrite !app_nil_r. split; assumption.
  - cbn [for_each]. apply wp_bind.
    unfold page_headings_body. apply wp_bind.
    apply (wp_read _ _ blk); [apply get_block_read, He, Hx|].
    cbn [page_headings_loop].
    destruct (length (strip (text blk)) <? 2);
      [apply wp_ret, IH; assumption|].
    destruct (_is_likely_header_footer (strip (text blk)));
      [apply wp_ret, IH; assumption|].
    destruct (300 <? length (strip (text blk)));
      [apply wp_ret, IH; assumption|].
    destruct (PrimFloat.ltb 0.3 (_calculate_heading_score blk st));
      [|apply wp_ret, IH; assumption].
    set (cand := make_candidate n blk (strip (text blk))
                                (_calculate_heading_score blk st)).
    apply wp_bind, wp_alloc. unfold append. apply wp_bind.
    apply (wp_read _ _ acc_l); [apply get_list_read, extends_alloc, Hl|].
    assert (Hlt : h < length s) by (apply lookup_lt_Some in Hl; exact Hl).
    apply wp_update; [rewrite length_app; simpl; lia|].
    pose proof (extends_length _ _ He) as Hbs.
    eapply wp_weaken.
    + apply (IH _ (acc_l ++ [length s]) (acc_c ++ [cand])).
      * apply extends_update; [|exact Hh].
        apply (extends_trans _ s); [exact He|apply extends_alloc].
      * exact Hh.
      * apply (lookup_update_same _ _ _ (OList acc_l)), extends_alloc, Hl.
      * apply (cands_at_update_list _ _ _ acc_l);
          [apply extends_alloc, Hl|].
        apply Forall2_app; [apply cands_at_alloc, Hc|].
        constructor; [|constructor]. split; [lia|]. exists None.
        apply lookup_new.
    + intros _ s' [He' [new_l [Hl' Hc']]]. split; [exact He'|].
      exists (length s :: new_l).
      rewrite <- app_assoc in Hl'. rewrite <- !app_assoc in Hc'.
      split; [exact Hl'|exact Hc'].
Qed.

(** [_extract_page_headings] makes a list and candidates, and writes
    to nothing that was there before the call. *)
Lemma extract_page_headings_spec (s : store) (pl : loc) (p : page)
      (st : doc_stats) :
  page_at s pl p ->
  wp (extract_page_headings pl st) s
     (fun r s' =>
        extends s s' /\
        exists ls, s' !! r = Some (OList ls) /\
                   cands_at (length s) s' ls (_extract_page_headings p st)).
Proof.
  intros [bl [bls [H1 [H2 H3]]]]. unfold extract_page_headings.
  apply wp_bind, wp_alloc. apply wp_bind.
  apply (wp_read _ _ (page_number p, bl));
    [apply get_page_read, extends_alloc, H1|].
  cbn [fst snd]. apply wp_bind.
  apply (wp_read _ _ bls); [apply get_list_read, extends_alloc, H2|].
  apply wp_bind. eapply wp_weaken.
  - apply (page_loop_spec s (length s) (page_number p) st bls
                          (text_blocks p) H3 (s ++ [OList []]) [] []).
    + apply extends_alloc.
    + apply Nat.le_refl.
    + apply lookup_new.
    + constructor.
  - intros _ s' [He [new_l [Hl Hc]]]. apply wp_ret.
    split; [exact He|]. exists new_l. split; [exact Hl|exact Hc].
Qed.

(** *** The loop over the pages *)

Lemma pages_loop_spec (s0 : store) (pot : loc) (st : doc_stats)
      (pls : list loc) (pages : list page) :
  Forall2 (page_at s0) pls pages ->
  forall (s : store) (acc_l : list loc) (acc_c : list candidate),
    extends s0 s -> length s0 <= pot ->
    s !! pot = Some (OList acc_l) ->
    cands_at (length s0) s acc_l acc_c ->
    wp (for_each (pages_body pot st) pls) s
       (fun _ s' =>
          extends s0 s' /\
          exists ls,
            s' !! pot = Some (OList ls) /\
            cands_at (length s0) s' ls
                     (acc_c ++ potential_headings pages st)).
Proof.
  induction 1 as [|x p pls pages Hx _ IH]; intros s acc_l acc_c He Hp Hl Hc.
  - apply wp_ret. split; [exact He|]. exists acc_l.
    simpl. rewrite app_nil_r. split; assumption.
  - cbn [for_each potential_headings]. apply wp_bind.
    unfold pages_body. apply wp_bind. eapply wp_weaken.
    + apply (extract_page_headings_spec s x p st).
      apply (page_at_extends s0); assumption.
    + intros r s1 [E1 [ls [Hr Hcs]]]. apply wp_bind.
      apply (wp_read _ _ ls); [apply get_list_read, Hr|].
      unfold extend. apply wp_bind.
      apply (wp_read _ _ acc_l); [apply get_list_read, E1, Hl|].
      pose proof (E1 _ _ Hl) as Hl1.
      apply wp_update; [apply lookup_lt_Some in Hl1; exact Hl1|].
      eapply wp_weaken.
      * apply (IH _ (acc_l ++ ls) (acc_c ++ _extract_page_headings p st)).
        -- apply extends_update; [|exact Hp].
           apply (extends_trans _ s); assumption.
        -- exact Hp.
        -- apply (lookup_update_same _ _ _ (OList acc_l)), Hl1.
        -- apply (cands_at_update_list _ _ _ acc_l); [exact Hl1|].
           apply Forall2_app; [apply (cands_at_extends _ s); assumption|].
           apply (cands_at_weaken (length s)); [|exact Hcs].
           apply extends_length, He.
      * intros _ s' [He' [ls' [Hl' Hc']]]. split; [exact He'|].
        exists ls'. rewrite <- app_assoc in Hc'. split; assumption.
Qed.

(** *** [_classify_headings] *)

(** The values behind the references of a list of candidates. *)
Definition cand_vals (n : nat) (s : store) (ls : list loc)
           (vs : list (candidate * option string)) : Prop :=
  Forall2 (fun l v => n <= l /\ s !! l = Some (OCand (fst v) (snd v))) ls vs.

Lemma cands_values (n : nat) (s : store) (ls : list loc)
      (cs : list candidate) :
  cands_at n s ls cs -> exists vs, map fst vs = cs /\ cand_vals n s ls vs.
Proof.
  unfold cands_at, cand_vals.
  induction 1 as [|l c ls cs [Hn [lv Hl]] _ [vs [E IH]]].
  - exists []. split; [reflexivity|constructor].
  - exists ((c, lv) :: vs). split; [simpl; rewrite E; reflexivity|].
    constructor; [split; assumption|exact IH].
Qed.

Lemma cand_vals_read (n : nat) (s : store) (ls : list loc)
      (vs : list (candidate * option string)) :
  cand_vals n s ls vs -> read_all get_cand ls s = Some (vs, s).
Proof.
  apply (read_all_read get_cand).
  intros l [c lv] [_ H]. apply get_cand_read, H.
Qed.

Lemma cand_vals_sorted (n : nat) (s : store) (ls : list loc)
      (vs : list (candidate * option string)) :
  cand_vals n s ls vs ->
  cands_at n s (sort_refs cand_font_lt ls vs)
           (sort_by font_lt (map fst vs)).
Proof.
  intros H. unfold cands_at.
  apply (sort_refs_Forall2
           (fun l c => n <= l /\ exists lv, s !! l = Some (OCand c lv))
           fst cand_font_lt font_lt); [reflexivity|].
  unfold cand_vals in H.
  induction H as [|l v ls vs [Hn Hl] _ IH]; constructor; [|exact IH].
  split; [exact Hn|]. exists (snd v). exact Hl.
Qed.

(** Writing the level into a candidate leaves the candidates what they
    are. *)
Lemma cands_at_set_level (n : nat) (s : store) (x : loc) (c : candidate)
      (lv lvl : option string) (ls : list loc) (cs : list candidate) :
  s !! x = Some (OCand c lv) ->
  cands_at n s ls cs -> cands_at n (<[x := OCand c lvl]> s) ls cs.
Proof.
  intros Hx.
  apply (Forall2_store (fun s l c => n <= l /\ exists lv, s !! l = Some (OCand c lv))).
  intros l c' [Hn [lv' Hl]]. split; [exact Hn|].
  destruct (Nat.eq_dec x l) as [->|N].
  - exists lvl. rewrite Hx in Hl. injection Hl as -> _.
    apply (lookup_update_same _ _ _ (OCand c' lv)), Hx.
  - exists lv'. rewrite list_lookup_insert_ne; assumption.
Qed.

Lemma classified_at_update_list (n : nat) (s : store) (l : loc)
      (items items' : list loc) (ls : list loc) (cls : list classified) :
  s !! l = Some (OList items) ->
  classified_at n s ls cls ->
  classified_at n (<[l := OList items']> s) ls cls.
Proof.
  intros Hl.
  apply (Forall2_store
           (fun s l cl => n <= l /\
                          s !! l = Some (OCand (c_cand cl) (Some (c_level cl))))).
  intros l' c [Hn Hc]. split; [exact Hn|].
  rewrite list_lookup_insert_ne; [exact Hc|].
  intros ->. rewrite Hl in Hc. discriminate.
Qed.

Lemma classified_at_alloc (n : nat) (s : store) (o : obj) (ls : list loc)
      (cls : list classified) :
  classified_at n s ls cls -> classified_at n (s ++ [o]) ls cls.
Proof.
  apply (Forall2_store
           (fun s l cl => n <= l /\
                          s !! l = Some (OCand (c_cand cl) (Some (c_level cl))))).
  intros l c [Hn Hl]. split; [exact Hn|]. apply extends_alloc, Hl.
Qed.

(** A candidate that is met again gets the level it already has. *)
Lemma classified_at_set_level (n : nat) (s : store) (x : loc)
      (levels : list (Q * string)) (c : candidate) (lv : option string)
      (ls : list loc) (cls : list classified) :
  s !! x = Some (OCand c lv) ->
  Forall (fun cl => cl = classify_one levels (c_cand cl)) cls ->
  classified_at n s ls cls ->
  classified_at n
    (<[x := OCand c (Some (c_level (classify_one levels c)))]> s) ls cls.
Proof.
  intros Hx Hcons H. unfold classified_at in *.
  induction H as [|l cl ls cls [Hn Hl] _ IH]; [constructor|].
  apply Forall_cons_1 in Hcons. destruct Hcons as [Hcl Hcons].
  constructor; [|exact (IH Hcons)].
  split; [exact Hn|].
  destruct (Nat.eq_dec x l) as [->|N].
  - rewrite Hx in Hl. injection Hl as -> _.
    rewrite (lookup_update_same _ _ _ (OCand (c_cand cl) lv) Hx).
    rewrite <- Hcl. reflexivity.
  - rewrite list_lookup_insert_ne; assumption.
Qed.

Lemma classify_loop_spec (s0 : store) (cl : loc) (levels : list (Q * string))
      (ls : list loc) :
  forall (cs : list candidate) (s : store) (acc_l : list loc)
         (acc_cl : list classified),
    cands_at (length s0) s ls cs ->
    extends s0 s -> length s0 <= cl ->
    s !! cl = Some (OList acc_l) ->
    classified_at (length s0) s acc_l acc_cl ->
    Forall (fun c => c = classify_one levels (c_cand c)) acc_cl ->
    wp (for_each (classify_body cl levels) ls) s
       (fun _ s' =>
          extends s0 s' /\
          s' !! cl = Some (OList (acc_l ++ ls)) /\
          classified_at (length s0) s' (acc_l ++ ls)
                        (acc_cl ++ map (classify_one levels) cs)).
Proof.
  induction ls as [|x ls IH]; intros cs s acc_l acc_cl Hc He Hcl Hl Ha Hcons.
  - apply Forall2_nil_inv_l in Hc. subst cs.
    apply wp_ret. simpl. rewrite !app_nil_r. auto.
  - apply Forall2_cons_inv_l in Hc.
    destruct Hc as [c [cs' [[Hn [lv Hx]] [Hc ->]]]].
    cbn [for_each map]. apply wp_bind.
    unfold classify_body. apply wp_bind.
    apply (wp_read _ _ (c, lv)); [apply get_cand_read, Hx|].
    cbn [fst]. apply wp_bind.
    apply wp_update; [apply lookup_lt_Some in Hx; exact Hx|].
    set (lvl := c_level (classify_one levels c)).
    set (s1 := <[x := OCand c (Some lvl)]> s).
    assert (Hl1 : s1 !! cl = Some (OList acc_l)).
    { unfold s1. rewrite list_lookup_insert_ne; [exact Hl|].
      intros ->. rewrite Hl in Hx. discriminate. }
    assert (Hx1 : s1 !! x = Some (OCand c (Some lvl))).
    { apply (lookup_update_same _ _ _ (OCand c lv)), Hx. }
    unfold append. apply wp_bind.
    apply (wp_read _ _ acc_l); [apply get_list_read, Hl1|].
    apply wp_update; [apply lookup_lt_Some in Hl1; exact Hl1|].
    eapply wp_weaken.
    + apply (IH cs' _ (acc_l ++ [x]) (acc_cl ++ [classify_one levels c])).
      * apply (cands_at_update_list _ _ _ acc_l); [exact Hl1|].
        apply (cands_at_set_level _ _ _ _ lv); assumption.
      * apply extends_update; [|exact Hcl].
        apply extends_update; assumption.
      * exact Hcl.
      * apply (lookup_update_same _ _ _ (OList acc_l)), Hl1.
      * apply (classified_at_update_list _ _ _ acc_l); [exact Hl1|].
        apply Forall2_app.
        -- apply (classified_at_set_level _ _ _ _ _ lv); assumption.
        -- constructor; [|constructor]. split; [exact Hn|exact Hx1].
      * apply Forall_app. split; [exact Hcons|].
        constructor; [reflexivity|constructor].
    + intros _ s' [He' [Hl' Hc']]. split; [exact He'|].
      rewrite <- app_assoc in Hl'. rewrite <- !app_assoc in Hc'.
      split; [exact Hl'|exact Hc'].
Qed.

Lemma classify_headings_spec (s0 s : store) (h : loc) (st : doc_stats)
      (hs : list loc) (cs : list candidate) :
  extends s0 s -> length s0 <= h ->
  s !! h = Some (OList hs) ->
  cands_at (length s0) s hs cs ->
  wp (classify_headings h st) s
     (fun r s' =>
        extends s0 s' /\ length s0 <= r /\
        exists ls, s' !! r = Some (OList ls) /\
                   classified_at (length s0) s' ls (_classify_headings cs st)).
Proof.
  intros He Hh Hl Hc. unfold classify_headings. apply wp_bind.
  apply (wp_read _ _ hs); [apply get_list_read, Hl|].
  pose proof (extends_length _ _ He) as Hlen.
  destruct hs as [|x hs'].
  { apply Forall2_nil_inv_l in Hc. subst cs. apply wp_alloc.
    split; [apply (extends_trans _ s); [exact He|apply extends_alloc]|].
    split; [exact Hlen|]. exists []. split; [apply lookup_new|constructor]. }
  destruct (cands_values _ _ _ _ Hc) as [vs [Evs Hvs]].
  apply wp_bind. apply (wp_read _ _ vs); [apply (cand_vals_read _ _ _ _ Hvs)|].
  apply wp_bind.
  apply wp_update; [apply lookup_lt_Some in Hl; exact Hl|].
  set (sorted := sort_refs cand_font_lt (x :: hs') vs).
  set (s1 := <[h := OList sorted]> s).
  assert (Hl1 : s1 !! h = Some (OList sorted)).
  { apply (lookup_update_same _ _ _ (OList (x :: hs'))), Hl. }
  assert (Hc1 : cands_at (length s0) s1 sorted (sort_by font_lt cs)).
  { apply (cands_at_update_list _ _ _ (x :: hs')); [exact Hl|].
    rewrite <- Evs. apply cand_vals_sorted, Hvs. }
  assert (He1 : extends s0 s1) by (apply extends_update; assumption).
  apply wp_bind. apply (wp_read _ _ sorted); [apply get_list_read, Hl1|].
  destruct (cands_values _ _ _ _ Hc1) as [vs' [Evs' Hvs']].
  apply wp_bind.
  apply (wp_read _ _ vs'); [apply (cand_vals_read _ _ _ _ Hvs')|].
  rewrite Evs'.
  set (levels := size_to_level (ranked_font_sizes (sort_by font_lt cs))).
  apply wp_bind, wp_alloc. apply wp_bind.
  pose proof (extends_length _ _ He1) as Hlen1.
  eapply wp_weaken.
  - apply (classify_loop_spec s0 (length s1) levels sorted
                              (sort_by font_lt cs) (s1 ++ [OList []]) [] []).
    + apply cands_at_alloc, Hc1.
    + apply (extends_trans _ s1); [exact He1|apply extends_alloc].
    + exact Hlen1.
    + apply lookup_new.
    + constructor.
    + constructor.
  - intros _ s' [He' [Hl' Hc']]. apply wp_ret.
    split; [exact He'|]. split; [exact Hlen1|].
    exists sorted. split; [exact Hl'|].
    destruct cs as [|c cs']; [apply Forall2_nil_inv_r in Hc; discriminate|].
    exact Hc'.
Qed.

(** *** The outline *)

(** The value read through a reference to a classified candidate, and
    back. *)
Definition cl_val (cl : classified) : candidate * option string :=
  (c_cand cl, Some (c_level cl)).

Definition to_cl (v : candidate * option string) : classified :=
  {| c_cand := fst v;
     c_level := match snd v with Some l => l | None => EmptyString end |}.

Lemma to_cl_val (cl : classified) : to_cl (cl_val cl) = cl.
Proof. destruct cl; reflexivity. Qed.

Lemma map_to_cl_val (cls : list classified) :
  map to_cl (map cl_val cls) = cls.
Proof.
  induction cls as [|cl r IH]; [reflexivity|].
  simpl. rewrite to_cl_val, IH. reflexivity.
Qed.

Lemma classified_read (n : nat) (s : store) (ls : list loc)
      (cls : list classified) :
  classified_at n s ls cls ->
  read_all get_cand ls s = Some (map cl_val cls, s).
Proof.
  intros H.
  apply (read_all_read get_cand
           (fun l v => s !! l = Some (OCand (fst v) (snd v)))).
  - intros l [c lv] Hl. apply get_cand_read, Hl.
  - unfold classified_at in H.
    induction H as [|l cl ls cls [_ Hl] _ IH]; simpl; constructor;
      [exact Hl|exact IH].
Qed.

Lemma classified_sorted (n : nat) (s : store) (ls : list loc)
      (cls : list classified) :
  classified_at n s ls cls ->
  classified_at n s (sort_refs cand_page_y_lt ls (map cl_val cls))
                (sort_by page_y_lt cls).
Proof.
  intros H. unfold classified_at.
  rewrite <- (map_to_cl_val cls) at 2.
  apply (sort_refs_Forall2
           (fun l cl => n <= l /\
                        s !! l = Some (OCand (c_cand cl) (Some (c_level cl))))
           to_cl cand_page_y_lt page_y_lt); [reflexivity|].
  unfold classified_at in H.
  induction H as [|l cl ls cls Hl _ IH]; simpl; constructor;
    [exact Hl|exact IH].
Qed.

Lemma headings_at_alloc (n : nat) (s : store) (o : obj) (ls : list loc)
      (hs : list heading) :
  headings_at n s ls hs -> headings_at n (s ++ [o]) ls hs.
Proof.
  apply (Forall2_store (fun s l h => n <= l /\ s !! l = Some (OHeading h))).
  intros l h [Hn Hl]. split; [exact Hn|]. apply extends_alloc, Hl.
Qed.

Lemma headings_at_update_list (n : nat) (s : store) (l : loc)
      (items items' : list loc) (ls : list loc) (hs : list heading) :
  s !! l = Some (OList items) ->
  headings_at n s ls hs -> headings_at n (<[l := OList items']> s) ls hs.
Proof.
  intros Hl.
  apply (Forall2_store (fun s l h => n <= l /\ s !! l = Some (OHeading h))).
  intros l' h [Hn Hh]. split; [exact Hn|].
  rewrite list_lookup_insert_ne; [exact Hh|].
  intros ->. rewrite Hl in Hh. discriminate.
Qed.

Lemma format_loop_spec (s0 : store) (fl : loc) (ls : list loc) :
  forall (cls : list classified) (s : store) (acc_l : list loc)
         (acc_h : list heading),
    classified_at (length s0) s ls cls ->
    extends s0 s -> length s0 <= fl ->
    s !! fl = Some (OList acc_l) ->
    headings_at (length s0) s acc_l acc_h ->
    wp (for_each (format_body fl) ls) s
       (fun _ s' =>
          extends s0 s' /\
          exists new_l,
            s' !! fl = Some (OList (acc_l ++ new_l)) /\
            headings_at (length s0) s' (acc_l ++ new_l)
                        (acc_h ++ map to_heading cls)).
Proof.
  induction ls as [|x ls IH]; intros cls s acc_l acc_h Hc He Hf Hl Ha.
  - apply Forall2_nil_inv_l in Hc. subst cls.
    apply wp_ret. split; [exact He|]. exists []. simpl.
    rewrite !app_nil_r. split; assumption.
  - apply Forall2_cons_inv_l in Hc.
    destruct Hc as [cl [cls' [[Hn Hx] [Hc ->]]]].
    cbn [for_each map]. apply wp_bind.
    unfold format_body. apply wp_bind.
    apply (wp_read _ _ (c_cand cl, Some (c_level cl)));
      [apply get_cand_read, Hx|].
    cbn [fst snd]. apply wp_bind, wp_alloc.
    unfold append. apply wp_bind.
    apply (wp_read _ _ acc_l); [apply get_list_read, extends_alloc, Hl|].
    assert (Hlt : fl < length s) by (apply lookup_lt_Some in Hl; exact Hl).
    apply wp_update; [rewrite length_app; simpl; lia|].
    pose proof (extends_length _ _ He) as Hlen.
    eapply wp_weaken.
    + apply (IH cls' _ (acc_l ++ [length s]) (acc_h ++ [to_heading cl])).
      * apply (classified_at_update_list _ _ _ acc_l);
          [apply extends_alloc, Hl|].
        apply classified_at_alloc, Hc.
      * apply extends_update; [|exact Hf].
        apply (extends_trans _ s); [exact He|apply extends_alloc].
      * exact Hf.
      * apply (lookup_update_same _ _ _ (OList acc_l)), extends_alloc, Hl.
      * apply (headings_at_update_list _ _ _ acc_l);
          [apply extends_alloc, Hl|].
        apply Forall2_app; [apply headings_at_alloc, Ha|].
        constructor; [|constructor]. split; [lia|]. apply lookup_new.
    + intros _ s' [He' [new_l [Hl' Hh']]]. split; [exact He'|].
      exists (length s :: new_l).
      rewrite <- app_assoc in Hl'. rewrite <- !app_assoc in Hh'.
      split; [exact Hl'|exact Hh'].
Qed.

(** [extract_headings] runs without raising on a store that holds the
    pages, changes no object of that store, and returns a new list of
    new headings, those of the function on values. *)
Lemma extract_headings_spec (s0 : store) (pd : loc) (pages : list page) :
  pages_at s0 pd pages ->
  wp (Store.extract_headings pd) s0
     (fun r s' =>
        extends s0 s' /\ length s0 <= r /\
        exists ls, s' !! r = Some (OList ls) /\
                   headings_at (length s0) s' ls
                               (HeadingExtractor.extract_headings pages)).
Proof.
  intros Hp. pose proof Hp as [pls [H1 H2]].
  unfold Store.extract_headings. apply wp_bind.
  apply (wp_read _ _ pls); [apply get_list_read, H1|].
  destruct pls as [|x pls'].
  { apply Forall2_nil_inv_l in H2. subst pages. apply wp_alloc.
    split; [apply extends_alloc|]. split; [apply Nat.le_refl|].
    exists []. split; [apply lookup_new|constructor]. }
  apply wp_bind.
  apply (wp_read _ _ (_get_doc_stats pages)); [apply get_doc_stats_read, Hp|].
  set (st := _get_doc_stats pages).
  apply wp_bind, wp_alloc. apply wp_bind. eapply wp_weaken.
  { apply (pages_loop_spec s0 (length s0) st (x :: pls') pages H2
                           (s0 ++ [OList []]) [] []).
    - apply extends_alloc.
    - apply Nat.le_refl.
    - apply lookup_new.
    - constructor. }
  intros _ s2 [He2 [ls2 [Hl2 Hc2]]]. simpl app in Hc2.
  apply wp_bind. eapply wp_weaken.
  { apply (classify_headings_spec s0 s2 (length s0) st ls2 _ He2
                                  (Nat.le_refl _) Hl2 Hc2). }
  intros cl s3 [He3 [Hcl [ls3 [Hl3 Hc3]]]].
  set (cls := _classify_headings (potential_headings pages st) st) in *.
  apply wp_bind. apply (wp_read _ _ ls3); [apply get_list_read, Hl3|].
  apply wp_bind.
  apply (wp_read _ _ (map cl_val cls)); [apply (classified_read _ _ _ _ Hc3)|].
  apply wp_bind.
  apply wp_update; [apply lookup_lt_Some in Hl3; exact Hl3|].
  set (sorted := sort_refs cand_page_y_lt ls3 (map cl_val cls)).
  set (s4 := <[cl := OList sorted]> s3).
  assert (Hl4 : s4 !! cl = Some (OList sorted)).
  { apply (lookup_update_same _ _ _ (OList ls3)), Hl3. }
  assert (Hc4 : classified_at (length s0) s4 sorted (sort_by page_y_lt cls)).
  { apply (classified_at_update_list _ _ _ ls3); [exact Hl3|].
    apply classified_sorted, Hc3. }
  assert (He4 : extends s0 s4) by (apply extends_update; assumption).
  pose proof (extends_length _ _ He4) as Hlen4.
  apply wp_bind, wp_alloc. apply wp_bind.
  apply (wp_read _ _ sorted); [apply get_list_read, extends_alloc, Hl4|].
  apply wp_bind. eapply wp_weaken.
  { apply (format_loop_spec s0 (length s4) sorted (sort_by page_y_lt cls)
                            (s4 ++ [OList []]) [] []).
    - apply classified_at_alloc, Hc4.
    - apply (extends_trans _ s4); [exact He4|apply extends_alloc].
    - exact Hlen4.
    - apply lookup_new.
    - constructor. }
  intros _ s' [He' [new_l [Hl' Hh']]]. apply wp_ret.
  split; [exact He'|]. split; [exact Hlen4|].
  exists new_l. split; [exact Hl'|].
  destruct pages as [|p pages']; [apply Forall2_nil_inv_r in H2; discriminate|].
  exact Hh'.
Qed.

(** *** The title *)

Lemma titles_at_alloc (s : store) (o : obj) (ls : list loc)
      (ts : list title_candidate) :
  titles_at s ls ts -> titles_at (s ++ [o]) ls ts.
Proof.
  apply (Forall2_store (fun s l t => s !! l = Some (OTitle t))).
  intros l t Hl. apply extends_alloc, Hl.
Qed.

Lemma titles_at_update_list (s : store) (l : loc)
      (items items' : list loc) (ls : list loc) (ts : list title_candidate) :
  s !! l = Some (OList items) ->
  titles_at s ls ts -> titles_at (<[l := OList items']> s) ls ts.
Proof.
  intros Hl.
  apply (Forall2_store (fun s l t => s !! l = Some (OTitle t))).
  intros l' t Ht. rewrite list_lookup_insert_ne; [exact Ht|].
  intros ->. rewrite Hl in Ht. discriminate.
Qed.

Lemma title_loop_spec (b : store) (tl : loc) (avg : float)
      (bls : list loc) (blks : list block) :
  blocks_at b bls blks ->
  forall (s : store) (acc_l : list loc) (acc_t : list title_candidate),
    extends b s -> length b <= tl ->
    s !! tl = Some (OList acc_l) ->
    titles_at s acc_l acc_t ->
    wp (for_each (title_body tl avg) bls) s
       (fun _ s' =>
          extends b s' /\
          exists new_l,
            s' !! tl = Some (OList (acc_l ++ new_l)) /\
            titles_at s' (acc_l ++ new_l)
                      (acc_t ++ title_candidates_loop avg blks)).
Proof.
  induction 1 as [|x blk bls blks Hx _ IH]; intros s acc_l acc_t He Ht Hl Ha.
  - apply wp_ret. split; [exact He|]. exists []. simpl.
    rewrite !app_nil_r. split; assumption.
  - cbn [for_each]. apply wp_bind.
    unfold title_body. apply wp_bind.
    apply (wp_read _ _ blk); [apply get_block_read, He, Hx|].
    cbn [title_candidates_loop].
    destruct (PrimFloat.ltb (to_float (font_size blk)) avg);
      [apply wp_ret, IH; assumption|].
    destruct ((length (strip (text blk)) <? 3)
              || (200 <? length (strip (text blk))));
      [apply wp_ret, IH; assumption|].
    destruct (_is_likely_header_footer (strip (text blk)));
      [apply wp_ret, IH; assumption|].
    apply wp_bind, wp_alloc. unfold append. apply wp_bind.
    apply (wp_read _ _ acc_l); [apply get_list_read, extends_alloc, Hl|].
    assert (Hlt : tl < length s) by (apply lookup_lt_Some in Hl; exact Hl).
    apply wp_update; [rewrite length_app; simpl; lia|].
    eapply wp_weaken.
    + apply (IH _ (acc_l ++ [length s])
                (acc_t ++ [{| t_text := strip (text blk);
                              t_font_size := font_size blk;
                              t_is_bold := is_bold blk;
                              t_y_position := y_position blk;
                              t_page_number :=
                                match b_page_number blk with
                                | Some n => n
                                | None => 1%Z
                                end |}])).
      * apply extends_update; [|exact Ht].
        apply (extends_trans _ s); [exact He|apply extends_alloc].
      * exact Ht.
      * apply (lookup_update_same _ _ _ (OList acc_l)), extends_alloc, Hl.
      * apply (titles_at_update_list _ _ acc_l);
          [apply extends_alloc, Hl|].
        apply Forall2_app; [apply titles_at_alloc, Ha|].
        constructor; [|constructor]. apply lookup_new.
    + intros _ s' [He' [new_l [Hl' Ht']]]. split; [exact He'|].
      exists (length s :: new_l).
      rewrite <- app_assoc in Hl'. rewrite <- !app_assoc in Ht'.
      split; [exact Hl'|exact Ht'].
Qed.

Lemma titles_sorted (s : store) (ls : list loc) (ts : list title_candidate) :
  titles_at s ls ts ->
  titles_at s (sort_refs title_key_lt ls ts) (sort_by title_key_lt ts).
Proof.
  intros H. unfold titles_at. rewrite <- (map_id ts) at 2.
  apply (sort_refs_Forall2 (fun l t => s !! l = Some (OTitle t))
                           (fun t => t) title_key_lt title_key_lt);
    [reflexivity|exact H].
Qed.

(** [extract_title] runs without raising on a store that holds the
    pages, changes no object of that store, and returns the title of
    the function on values. *)
Lemma extract_title_spec (s0 : store) (pd : loc) (pages : list page) :
  pages_at s0 pd pages ->
  wp (Store.extract_title pd) s0
     (fun r s' => extends s0 s' /\ r = HeadingExtractor.extract_title pages).
Proof.
  intros Hp. pose proof Hp as [pls [H1 H2]].
  unfold Store.extract_title. apply wp_bind.
  apply (wp_read _ _ pls); [apply get_list_read, H1|].
  destruct H2 as [|x p pls' pages' Hx H2].
  { apply wp_ret. split; [apply extends_refl|reflexivity]. }
  destruct Hx as [bl [bls [Hx1 [Hx2 Hx3]]]].
  apply wp_bind.
  apply (wp_read _ _ (page_number p, bl)); [apply get_page_read, Hx1|].
  cbn [fst snd]. apply wp_bind.
  apply (wp_read _ _ bls); [apply get_list_read, Hx2|].
  unfold HeadingExtractor.extract_title.
  destruct Hx3 as [|b0 blk0 bls' blks' Hb0 Hx3].
  { apply wp_ret. split; [apply extends_refl|reflexivity]. }
  set (blocks := b0 :: bls'). set (blks := blk0 :: blks').
  assert (Hblocks : blocks_at s0 blocks blks) by (constructor; assumption).
  apply wp_bind.
  apply (wp_read _ _ (_get_doc_stats (p :: pages')));
    [apply get_doc_stats_read, Hp|].
  set (avg := get_avg_font_size (_get_doc_stats (p :: pages'))).
  apply wp_bind, wp_alloc. apply wp_bind. eapply wp_weaken.
  { apply (title_loop_spec s0 (length s0) avg blocks blks Hblocks
                           (s0 ++ [OList []]) [] []).
    - apply extends_alloc.
    - apply Nat.le_refl.
    - apply lookup_new.
    - constructor. }
  intros _ s2 [He2 [cands [Hl2 Ht2]]].
  rewrite app_nil_l in Hl2. rewrite !app_nil_l in Ht2.
  apply wp_bind. apply (wp_read _ _ cands); [apply get_list_read, Hl2|].
  destruct (title_candidates_loop avg blks) as [|t0 ts'] eqn:Et.
  { apply Forall2_nil_inv_r in Ht2. subst cands.
    apply wp_ret. split; [exact He2|reflexivity]. }
  destruct cands as [|c0 cands']; [apply Forall2_nil_inv_l in Ht2; discriminate|].
  apply wp_bind.
  apply (wp_read _ _ (t0 :: ts')).
  { apply (read_all_read get_title (fun l t => s2 !! l = Some (OTitle t)));
      [intros l t Hl; apply get_title_read, Hl|exact Ht2]. }
  apply wp_bind.
  apply wp_update; [apply lookup_lt_Some in Hl2; exact Hl2|].
  set (sorted := sort_refs title_key_lt (c0 :: cands') (t0 :: ts')).
  set (s3 := <[length s0 := OList sorted]> s2).
  assert (Hl3 : s3 !! length s0 = Some (OList sorted)).
  { apply (lookup_update_same _ _ _ (OList (c0 :: cands'))), Hl2. }
  assert (Ht3 : titles_at s3 sorted (sort_by title_key_lt (t0 :: ts'))).
  { apply (titles_at_update_list _ _ (c0 :: cands')); [exact Hl2|].
    apply titles_sorted, Ht2. }
  assert (He3 : extends s0 s3).
  { apply extends_update; [exact He2|apply Nat.le_refl]. }
  apply wp_bind. apply (wp_read _ _ sorted); [apply get_list_read, Hl3|].
  destruct (sort_by title_key_lt (t0 :: ts')) as [|t rest] eqn:Es.
  { apply sort_by_nil_inv in Es. discriminate. }
  destruct sorted as [|c sorted'];
    [apply Forall2_nil_inv_l in Ht3; discriminate|].
  apply Forall2_cons_1 in Ht3. destruct Ht3 as [Hc _].
  apply wp_bind. apply (wp_read _ _ t); [apply get_title_read, Hc|].
  apply wp_ret. split; [exact He3|reflexivity].
Qed.

(** *** Documents laid out in a store *)

Lemma alloc_blocks_spec (bs : list block) :
  forall s : store,
    wp (alloc_blocks bs) s
       (fun ls s' => extends s s' /\ blocks_at s' ls bs).
Proof.
  induction bs as [|b r IH]; intros s.
  - apply wp_ret. split; [apply extends_refl|constructor].
  - cbn [alloc_blocks]. apply wp_bind, wp_alloc. apply wp_bind.
    eapply wp_weaken; [apply IH|].
    intros ls s' [E H]. apply wp_ret.
    split; [apply (extends_trans _ (s ++ [OBlock b]));
            [apply extends_alloc|exact E]|].
    constructor; [apply E, lookup_new|exact H].
Qed.

Lemma pages_list_extends (s s' : store) (pls : list loc) (pages : list page) :
  extends s s' ->
  Forall2 (page_at s) pls pages -> Forall2 (page_at s') pls pages.
Proof.
  intros E. apply (Forall2_store page_at).
  intros l p. apply page_at_extends, E.
Qed.

Lemma alloc_pages_spec (pages : list page) :
  forall s : store,
    wp (alloc_pages pages) s
       (fun pls s' => extends s s' /\ Forall2 (page_at s') pls pages).
Proof.
  induction pages as [|p r IH]; intros s.
  - apply wp_ret. split; [apply extends_refl|constructor].
  - cbn [alloc_pages]. apply wp_bind.
    eapply wp_weaken; [apply alloc_blocks_spec|].
    intros bls s1 [E1 Hb]. apply wp_bind, wp_alloc. apply wp_bind, wp_alloc.
    apply wp_bind. eapply wp_weaken; [apply IH|].
    intros pls s4 [E4 Hp]. apply wp_ret.
    set (s2 := s1 ++ [OList bls]) in *.
    set (s3 := s2 ++ [OPage (page_number p) (length s1)]) in *.
    assert (E12 : extends s1 s2) by apply extends_alloc.
    assert (E23 : extends s2 s3) by apply extends_alloc.
    split.
    + apply (extends_trans _ s1); [exact E1|].
      apply (extends_trans _ s2); [exact E12|].
      apply (extends_trans _ s3); assumption.
    + constructor; [|exact Hp].
      exists (length s1), bls. split; [apply E4, lookup_new|].
      split; [apply E4, E23, lookup_new|].
      apply (blocks_at_extends s1); [|exact Hb].
      apply (extends_trans _ s2); [exact E12|].
      apply (extends_trans _ s3); assumption.
Qed.

(** Every list of pages has a store that holds it. *)
Lemma alloc_document_spec (pages : list page) (s : store) :
  wp (alloc_document pages) s (fun pd s' => pages_at s' pd pages).
Proof.
  unfold alloc_document. apply wp_bind.
  eapply wp_weaken; [apply alloc_pages_spec|].
  intros pls s' [_ Hp]. apply wp_alloc.
  exists pls. split; [apply lookup_new|].
  apply (pages_list_extends s'); [apply extends_alloc|exact Hp].
Qed.

(** *** The input is left as it was *)

(** Every location of [s] holds in [s'] the object it holds in [s]. *)
Definition unchanged (s s' : store) : Prop :=
  forall l, l < length s -> s' !! l = s !! l.

Lemma extends_unchanged (s s' : store) : extends s s' -> unchanged s s'.
Proof.
  intros E l Hl. destruct (lookup_lt_is_Some_2 s l Hl) as [o Ho].
  rewrite Ho. apply E, Ho.
Qed.

Lemma pages_at_extends (s s' : store) (pd : loc) (pages : list page) :
  extends s s' -> pages_at s pd pages -> pages_at s' pd pages.
Proof.
  intros E [pls [H1 H2]]. exists pls. split; [apply E, H1|].
  apply (pages_list_extends s); assumption.
Qed.

(** The page of the example on ties, laid out in a store: its four
    blocks, the list of the blocks, the page, the list of pages. *)
Definition same_line_store : list obj :=
  map OBlock (concat (map text_blocks Examples.same_line_page))
  ++ [OList [0; 1; 2; 3]; OPage 1 4; OList [5]].

Lemma same_line_store_pages : pages_at same_line_store 6 Examples.same_line_page.
Proof.
  exists [5]. split; [reflexivity|].
  constructor; [|constructor].
  exists 4, [0; 1; 2; 3]. split; [reflexivity|]. split; [reflexivity|].
  repeat constructor.
Qed.

(** C9: on a store that holds the pages, both [extract_title] and
    [extract_headings] run without raising, and every object that was
    in the store before the call, among them each page, each list of
    blocks and each block with all its keys, is the same object after
    it; the lists and dictionaries the methods write to (the candidates
    that receive their level, the lists that are sorted in place) are
    objects made during the call.  The results are those of the
    functions on values, and the outline is a new list of new
    objects. *)
Theorem C9_inputs_unchanged (s0 : list obj) (pd : nat) (pages : list page)
        (H : pages_at s0 pd pages) :
  wp (Store.extract_title pd) s0
     (fun t s' =>
        unchanged s0 s' /\ pages_at s' pd pages /\
        t = HeadingExtractor.extract_title pages)
  /\ wp (Store.extract_headings pd) s0
        (fun r s' =>
           unchanged s0 s' /\ pages_at s' pd pages /\
           length s0 <= r /\
           exists ls,
             s' !! r = Some (OList ls) /\
             headings_at (length s0) s' ls
                         (HeadingExtractor.extract_headings pages)).
Proof.
  split.
  - eapply wp_weaken; [apply (extract_title_spec s0 pd pages H)|].
    intros t s' [E ->].
    split; [apply extends_unchanged, E|].
    split; [apply (pages_at_extends s0); assumption|reflexivity].
  - eapply wp_weaken; [apply (extract_headings_spec s0 pd pages H)|].
    intros r s' [E [Hr Hls]].
    split; [apply extends_unchanged, E|].
    split; [apply (pages_at_extends s0); assumption|].
    split; [exact Hr|exact Hls].
Qed.

Lemma C9_inputs_unchanged_witness :
  pages_at same_line_store 6 Examples.same_line_page /\
  wp (Store.extract_title 6) same_line_store
     (fun t s' =>
        unchanged same_line_store s' /\
        pages_at s' 6 Examples.same_line_page /\
        t = HeadingExtractor.extract_title Examples.same_line_page)
  /\ wp (Store.extract_headings 6) same_line_store
        (fun r s' =>
           unchanged same_line_store s' /\
           pages_at s' 6 Examples.same_line_page /\
           length same_line_store <= r /\
           exists ls,
             s' !! r = Some (OList ls) /\
             headings_at (length same_line_store) s' ls
               (HeadingExtractor.extract_headings Examples.same_line_page)).
Proof.
  split; [exact same_line_store_pages|].
  exact (C9_inputs_unchanged same_line_store 6 Examples.same_line_page
                             same_line_store_pages).
Defined.

(** The run on the example: seven objects before, the outline after,
    and the first seven objects as they were. *)
Lemma same_line_run :
  match Store.extract_headings 6 same_line_store with
  | Some (r, s') =>
      firstn 7 s' = same_line_store /\
      (do ls <- get_list r in read_all load ls) s'
      = Some (map OHeading (HeadingExtractor.extract_headings
                              Examples.same_line_page), s')
  | None => False
  end.
Proof. vm_compute. split; reflexivity. Qed.

End StoreFacts.

(** * Further properties of the extractor *)

Section Provenance.

(** The candidates of a document, from its blocks. *)
Lemma potential_headings_flat (pages_data : list page) (st : doc_stats) :
  potential_headings pages_data st
  = flat_map (fun p => map (candidate_of (page_number p) st)
                           (List.filter (fun b => admittedb b st)
                                        (text_blocks p)))
             pages_data.
Proof.
  induction pages_data as [|p r IH]; [reflexivity|].
  simpl. unfold _extract_page_headings.
  rewrite page_headings_loop_filter, IH. reflexivity.
Qed.

Lemma sorted_headings_In (pages_data : list page) (c : classified) :
  In c (sorted_headings pages_data) ->
  exists p b,
    In p pages_data /\ In b (text_blocks p) /\
    admitted b (_get_doc_stats pages_data) /\
    c_cand c = candidate_of (page_number p) (_get_doc_stats pages_data) b.
Proof.
  intros Hc. unfold sorted_headings in Hc.
  apply (proj1 (sort_by_In page_y_lt c _)) in Hc.
  apply classify_In in Hc. destruct Hc as [Hc _].
  apply potential_headings_In in Hc. destruct Hc as [p [Hp Hc]].
  apply page_headings_In in Hc. destruct Hc as [b [Hb [Ha Hc]]].
  exists p, b. auto.
Qed.

(** X1: every heading of the outline is the trimmed text of a block
    that passed the admission tests (2 to 300 characters, not a header
    or footer, score above 0.3), together with the number of the page
    that holds the block: the outline holds no text that is not in the
    document and no header or footer. *)
Theorem X1_outline_provenance (pages_data : list page) :
  Forall (fun h =>
            exists p b,
              In p pages_data /\ In b (text_blocks p) /\
              admitted b (_get_doc_stats pages_data) /\
              o_text h = strip (text b) /\
              o_page h = page_number p /\
              _is_likely_header_footer (o_text h) = false)
         (extract_headings pages_data).
Proof.
  apply List.Forall_forall. intros h Hh.
  apply extract_headings_In in Hh.
  apply in_map_iff in Hh. destruct Hh as [c [<- Hc]].
  destruct (sorted_headings_In _ _ Hc) as [p [b [Hp [Hb [Ha Ec]]]]].
  exists p, b. unfold to_heading. simpl. rewrite Ec. simpl.
  split; [exact Hp|]. split; [exact Hb|]. split; [exact Ha|].
  split; [reflexivity|]. split; [reflexivity|].
  destruct Ha as [_ [_ [Hhf _]]]. exact Hhf.
Qed.

End Provenance.

Section Conservation.

Lemma insert_by_perm {A : Type} (lt : A -> A -> bool) (x : A) (l : list A) :
  Permutation (insert_by lt x l) (x :: l).
Proof.
  induction l as [|y r IH]; simpl; [reflexivity|].
  destruct (lt y x); [|reflexivity].
  rewrite IH. apply perm_swap.
Qed.

Lemma sort_by_perm {A : Type} (lt : A -> A -> bool) (l : list A) :
  Permutation (sort_by lt l) l.
Proof.
  induction l as [|x r IH]; simpl; [reflexivity|].
  rewrite insert_by_perm, IH. reflexivity.
Qed.

Lemma classify_cands_perm (hs : list candidate) (st : doc_stats) :
  Permutation (map c_cand (_classify_headings hs st)) hs.
Proof.
  rewrite classify_map, map_map. simpl. rewrite map_id.
  apply sort_by_perm.
Qed.

(** The text and page of the candidates that the blocks of the
    document give, in reading order. *)
Definition admitted_entries (pages_data : list page) : list (str * Z) :=
  flat_map (fun p =>
              map (fun b => (strip (text b), page_number p))
                  (List.filter
                     (fun b => admittedb b (_get_doc_stats pages_data))
                     (text_blocks p)))
           pages_data.

Lemma potential_entries (pages_data : list page) (st : doc_stats) :
  map (fun c => (h_text c, h_page c)) (potential_headings pages_data st)
  = flat_map (fun p =>
                map (fun b => (strip (text b), page_number p))
                    (List.filter (fun b => admittedb b st) (text_blocks p)))
             pages_data.
Proof.
  rewrite potential_headings_flat.
  induction pages_data as [|p r IH]; [reflexivity|].
  simpl. rewrite map_app, IH, map_map. reflexivity.
Qed.

(** X2: classification and sorting neither drop nor repeat a heading:
    the entries (text, page) of the outline are, up to their order,
    those of the admitted blocks of the document, each as many times as
    it occurs; in particular the outline has as many headings as the
    document has admitted blocks. *)
Theorem X2_outline_conserves_candidates (pages_data : list page) :
  Permutation (map (fun h => (o_text h, o_page h))
                   (extract_headings pages_data))
              (admitted_entries pages_data)
  /\ length (extract_headings pages_data)
     = length (admitted_entries pages_data).
Proof.
  assert (P : Permutation (map (fun h => (o_text h, o_page h))
                               (extract_headings pages_data))
                          (admitted_entries pages_data)).
  { destruct pages_data as [|p0 r0]; [reflexivity|].
    set (pages_data := p0 :: r0).
    change (extract_headings pages_data)
      with (map to_heading (sorted_headings pages_data)).
    unfold admitted_entries.
    rewrite <- potential_entries, map_map. simpl.
    rewrite <- (map_map c_cand (fun c => (h_text c, h_page c))).
    apply Permutation_map. unfold sorted_headings.
    rewrite sort_by_perm. apply classify_cands_perm. }
  split; [exact P|].
  apply Permutation_length in P. rewrite !length_map in P.
  rewrite P. reflexivity.
Qed.

End Conservation.

Section IgnoreCase.

Lemma atom_ok_ignore_case (a : atom) (c : ascii) :
  atom_ok false a c = true -> atom_ok true a c = true.
Proof.
  destruct a as [c0|p]; simpl.
  - unfold Chars.eqb. rewrite !Ascii.eqb_eq. intros ->. reflexivity.
  - intros ->. reflexivity.
Qed.

Lemma rep_monotone (ok ok' : ascii -> bool) (k k' : str -> bool) :
  (forall c, ok c = true -> ok' c = true) ->
  (forall s, k s = true -> k' s = true) ->
  forall n s, rep ok n k s = true -> rep ok' n k' s = true.
Proof.
  intros Hok Hk n s. revert n.
  induction s as [|c r IH]; intros n; simpl.
  - rewrite !andb_true_iff. intros [Hn H]. split; [exact Hn|apply Hk, H].
  - destruct (ok c) eqn:E.
    + rewrite (Hok c E). rewrite !orb_true_iff, !andb_true_iff.
      intros [H|[Hn H]]; [left; apply IH, H|right; split; [exact Hn|apply Hk, H]].
    + rewrite andb_true_iff. intros [Hn H].
      destruct (ok' c).
      * rewrite orb_true_iff, andb_true_iff. right. split; [exact Hn|apply Hk, H].
      * rewrite andb_true_iff. split; [exact Hn|apply Hk, H].
Qed.

(** A text that matches a pattern matches it with the case ignored. *)
Lemma match_items_ignore_case (its : list item) :
  forall s, match_items false its s = true -> match_items true its s = true.
Proof.
  induction its as [|it r IH]; intros s; [trivial|].
  destruct it as [a|a|n a|]; cbn [match_items].
  - destruct s as [|c s']; [trivial|].
    rewrite !andb_true_iff. intros [H1 H2].
    split; [apply atom_ok_ignore_case, H1|apply IH, H2].
  - destruct s as [|c s']; [apply IH|].
    rewrite !orb_true_iff, !andb_true_iff.
    intros [[H1 H2]|H]; [left; split;
                         [apply atom_ok_ignore_case, H1|apply IH, H2]
                        |right; apply IH, H].
  - apply rep_monotone; [apply atom_ok_ignore_case|apply IH].
  - rewrite !andb_true_iff. intros [H1 H2]. split; [exact H1|apply IH, H2].
Qed.

Lemma numbering1_listed : In numbering1 heading_patterns.
Proof. unfold heading_patterns, numbering1. simpl. tauto. Qed.

(** X3: a text that starts with a numbering ("1. ", "12 ") matches a
    heading pattern: in every candidate the flag ['has_numbering']
    implies the flag ['matches_pattern']. *)
Theorem X3_numbering_is_a_pattern (t : str) (H : _has_numbering t = true) :
  _matches_heading_pattern t = true.
Proof.
  apply (matches_any_In _ numbering1); [apply numbering1_listed|].
  apply match_items_ignore_case, H.
Qed.

Lemma X3_numbering_is_a_pattern_witness :
  _has_numbering (lit "12. Results") = true /\
  _matches_heading_pattern (lit "12. Results") = true.
Proof.
  assert (H : _has_numbering (lit "12. Results") = true) by reflexivity.
  split; [exact H|]. exact (X3_numbering_is_a_pattern _ H).
Defined.

End IgnoreCase.

Section ScoreRange.

Lemma score_of_tests_ge_penalty :
  forall a b c d e f g h i j k,
    PrimFloat.leb (-0.2)%float (score_of_tests a b c d e f g h i j k) = true.
Proof.
  intros [] [] [] [] [] [] [] [] [] [] []; vm_compute; reflexivity.
Qed.

Lemma score_of_tests_nonneg :
  forall a b c d e f g i j k,
    PrimFloat.leb 0%float (score_of_tests a b c d e f g false i j k) = true.
Proof.
  intros [] [] [] [] [] [] [] [] [] []; vm_compute; reflexivity.
Qed.

(** X4: the heading score of every block lies between -0.2 and 1, and
    it is at least 0 on every block whose trimmed text has at most 200
    characters: only the penalty for long text can take it below 0. *)
Theorem X4_score_range (b : block) (st : doc_stats) :
  PrimFloat.leb (-0.2)%float (_calculate_heading_score b st) = true /\
  PrimFloat.leb (_calculate_heading_score b st) 1.0%float = true /\
  (PrimFloat.leb 0%float (_calculate_heading_score b st)
   || (200 <? length (strip (text b))) = true).
Proof.
  split; [apply score_of_tests_ge_penalty|].
  split; [apply score_le_one|].
  unfold _calculate_heading_score.
  destruct (200 <? length (strip (text b))); [apply orb_true_r|].
  rewrite score_of_tests_nonneg. reflexivity.
Qed.

End ScoreRange.

Section TitleShape.

Lemma is_lower_codes (c : ascii) :
  is_lower c = false -> code c < 97 \/ 122 < code c.
Proof.
  unfold is_lower, in_range. change (code "a") with 97.
  change (code "z") with 122. intros H.
  apply andb_false_iff in H. destruct H as [H|H]; apply Nat.leb_gt in H; lia.
Qed.

(** X5: the title is never empty, and its first character is never one
    of the letters a to z of ASCII, whatever the pages are. *)
Theorem X5_title_shape (pages_data : list page) :
  match extract_title pages_data with
  | [] => False
  | c :: _ => code c < 97 \/ 122 < code c
  end.
Proof.
  rewrite extract_title_pool.
  destruct (sort_by title_key_lt (title_pool pages_data)) as [|c _];
    [vm_compute; lia|].
  unfold title_from. pose proof (clean_title_capital (t_text c)) as H.
  destruct (_clean_title_text (t_text c)) as [|x r];
    [vm_compute; lia|exact (is_lower_codes x H)].
Qed.

End TitleShape.

Section DocStats.

Lemma max_Q_bounds (l : list Q) :
  forall x : Q,
    (x <= max_Q x l)%Q /\ (forall y, In y l -> (y <= max_Q x l)%Q) /\
    In (max_Q x l) (x :: l).
Proof.
  unfold max_Q. induction l as [|y r IH]; intros x; simpl.
  - split; [apply Qle_refl|]. split; [tauto|left; reflexivity].
  - destruct (IH (if Qltb x y then y else x)) as [H1 [H2 H3]].
    destruct (Qltb x y) eqn:E.
    + apply Qltb_lt in E. split; [lra|].
      split; [intros z [<-|Hz]; [exact H1|apply H2, Hz]|].
      destruct H3 as [H3|H3]; [right; left; exact H3|right; right; exact H3].
    + apply Qltb_ge in E. split; [exact H1|].
      split; [intros z [<-|Hz]; [lra|apply H2, Hz]|].
      destruct H3 as [H3|H3]; [left; exact H3|right; right; exact H3].
Qed.

Lemma min_Q_bounds (l : list Q) :
  forall x : Q,
    (min_Q x l <= x)%Q /\ (forall y, In y l -> (min_Q x l <= y)%Q) /\
    In (min_Q x l) (x :: l).
Proof.
  unfold min_Q. induction l as [|y r IH]; intros x; simpl.
  - split; [apply Qle_refl|]. split; [tauto|left; reflexivity].
  - destruct (IH (if Qltb y x then y else x)) as [H1 [H2 H3]].
    destruct (Qltb y x) eqn:E.
    + apply Qltb_lt in E. split; [lra|].
      split; [intros z [<-|Hz]; [exact H1|apply H2, Hz]|].
      destruct H3 as [H3|H3]; [right; left; exact H3|right; right; exact H3].
    + apply Qltb_ge in E. split; [exact H1|].
      split; [intros z [<-|Hz]; [lra|apply H2, Hz]|].
      destruct H3 as [H3|H3]; [left; exact H3|right; right; exact H3].
Qed.

Lemma all_font_sizes_of_In (pages_data : list page) (p : page) (b : block) :
  In p pages_data -> In b (text_blocks p) ->
  In (font_size b) (all_font_sizes_of pages_data).
Proof.
  induction pages_data as [|q r IH]; simpl; [tauto|].
  intros [->|Hp] Hb; apply in_app_iff.
  - left. apply in_map, Hb.
  - right. apply IH; assumption.
Qed.

Lemma all_font_sizes_of_length (pages_data : list page) :
  length (all_font_sizes_of pages_data)
  = length (concat (map text_blocks pages_data)).
Proof.
  induction pages_data as [|q r IH]; [reflexivity|].
  simpl. rewrite !length_app, length_map, IH. reflexivity.
Qed.

(** X6: for a document with at least one block, [_get_doc_stats] gives
    all four keys: a minimum and a maximum that are font sizes of the
    document and bound the font size of every block, an average, and
    the number of blocks; for a document without blocks it gives the
    average 12 and no other key. *)
Theorem X6_doc_stats_bounds (pages_data : list page) :
  match concat (map text_blocks pages_data) with
  | [] =>
      _get_doc_stats pages_data
      = {| avg_font_size := Some 12%float; max_font_size := None;
           min_font_size := None; total_blocks := None |}
  | _ :: _ =>
      exists avg mx mn,
        avg_font_size (_get_doc_stats pages_data) = Some avg /\
        max_font_size (_get_doc_stats pages_data) = Some mx /\
        min_font_size (_get_doc_stats pages_data) = Some mn /\
        total_blocks (_get_doc_stats pages_data)
        = Some (length (concat (map text_blocks pages_data))) /\
        In mx (all_font_sizes_of pages_data) /\
        In mn (all_font_sizes_of pages_data) /\
        forall p b, In p pages_data -> In b (text_blocks p) ->
                    (mn <= font_size b <= mx)%Q
  end.
Proof.
  pose proof (all_font_sizes_of_length pages_data) as L.
  pose proof (all_font_sizes_of_In pages_data) as I.
  unfold _get_doc_stats.
  destruct (all_font_sizes_of pages_data) as [|f rest] eqn:E.
  - destruct (concat (map text_blocks pages_data)); [reflexivity|discriminate].
  - destruct (concat (map text_blocks pages_data)) as [|b0 bs] eqn:Eb;
      [discriminate|].
    destruct (max_Q_bounds rest f) as [M1 [M2 M3]].
    destruct (min_Q_bounds rest f) as [N1 [N2 N3]].
    assert (B : forall y, In y (f :: rest) ->
                          (min_Q f rest <= y <= max_Q f rest)%Q).
    { intros y [<-|Hy]; split; auto. }
    eexists _, (max_Q f rest), (min_Q f rest).
    cbn [stats_of_font_sizes avg_font_size max_font_size min_font_size
         total_blocks].
    split; [reflexivity|]. split; [reflexivity|]. split; [reflexivity|].
    split; [rewrite L; reflexivity|].
    split; [exact M3|]. split; [exact N3|].
    intros p b Hp Hb. apply B. apply (I p b Hp Hb).
Qed.

End DocStats.

Section FontRank.
Import Examples.

(** The place of the first font size equal to [k] in a list. *)
Fixpoint find_rank (k : Q) (l : list Q) : option nat :=
  match l with
  | [] => None
  | x :: r => if Qeqb x k then Some 0
              else match find_rank k r with
                   | Some i => Some (S i)
                   | None => None
                   end
  end.

Definition level_of_rank (r : option nat) : string :=
  match r with
  | Some 0 => "H1"
  | Some 1 => "H2"
  | _ => "H3"
  end.

(** H1 is depth 1, H2 depth 2, any other level depth 3. *)
Definition level_depth (l : string) : nat :=
  if String.eqb l "H1" then 1 else if String.eqb l "H2" then 2 else 3.

Lemma dict_get_all_H3 (rest : list Q) (k : Q) :
  dict_get (map (fun size : Q => (size, "H3"%string)) rest) k "H3"
  = "H3"%string.
Proof.
  induction rest as [|x r IH]; simpl; [reflexivity|].
  destruct (Qeqb x k); [reflexivity|exact IH].
Qed.

(** The dictionary [size_to_level] maps a size to the level of its
    rank. *)
Lemma dict_get_rank (sizes : list Q) (k : Q) :
  dict_get (size_to_level sizes) k "H3" = level_of_rank (find_rank k sizes).
Proof.
  destruct sizes as [|s0 [|s1 [|s2 rest]]]; simpl.
  - reflexivity.
  - destruct (Qeqb s0 k); reflexivity.
  - destruct (Qeqb s0 k); [reflexivity|]. destruct (Qeqb s1 k); reflexivity.
  - destruct (Qeqb s0 k); [reflexivity|]. destruct (Qeqb s1 k); [reflexivity|].
    destruct (Qeqb s2 k); [reflexivity|]. rewrite dict_get_all_H3.
    destruct (find_rank k rest); reflexivity.
Qed.

Lemma find_rank_found (k : Q) (l : list Q) :
  (exists y, In y l /\ (y == k)%Q) -> exists i, find_rank k l = Some i.
Proof.
  induction l as [|x r IH]; intros [y [Hy E]]; [destruct Hy|].
  simpl. destruct (Qeqb x k) eqn:Ex; [exists 0; reflexivity|].
  destruct Hy as [->|Hy].
  - apply Qeqb_eq in E. congruence.
  - destruct IH as [i Hi]; [exists y; auto|]. rewrite Hi. exists (S i).
    reflexivity.
Qed.

(** In a list sorted from the largest, a larger size is met no later
    than a smaller one. *)
Lemma find_rank_monotone (l : list Q) :
  StronglySorted (fun x y => (y <= x)%Q) l ->
  forall ka kb i j,
    (kb <= ka)%Q ->
    find_rank ka l = Some i -> find_rank kb l = Some j -> i <= j.
Proof.
  induction 1 as [|x r Hr IH Hx]; intros ka kb i j Hk Ha Hb; [discriminate|].
  simpl in Ha, Hb.
  destruct (Qeqb x ka) eqn:Ea.
  { injection Ha as <-. lia. }
  destruct (find_rank ka r) as [i'|] eqn:Fa; [|discriminate].
  injection Ha as <-.
  destruct (Qeqb x kb) eqn:Eb.
  - exfalso. apply Qeqb_eq in Eb. apply Qeqb_neq in Ea. apply Ea.
    assert (Hin : exists y, In y r /\ (y == ka)%Q).
    { clear -Fa. revert i' Fa. induction r as [|z r IH]; intros i' Fa;
        [discriminate|].
      simpl in Fa. destruct (Qeqb z ka) eqn:Ez.
      - exists z. split; [left; reflexivity|apply Qeqb_eq, Ez].
      - destruct (find_rank ka r) as [i''|]; [|discriminate].
        destruct (IH i'' eq_refl) as [y [Hy E]].
        exists y. split; [right; exact Hy|exact E]. }
    destruct Hin as [y [Hy Ey]].
    rewrite List.Forall_forall in Hx. pose proof (Hx y Hy) as Hyx.
    lra.
  - destruct (find_rank kb r) as [j'|] eqn:Fb; [|discriminate].
    injection Hb as <-.
    pose proof (IH ka kb i' j' Hk Fa Fb). lia.
Qed.

Lemma level_depth_rank (i j : nat) :
  i <= j ->
  level_depth (level_of_rank (Some i)) <= level_depth (level_of_rank (Some j)).
Proof.
  intros H. destruct i as [|[|i]]; destruct j as [|[|j]];
    try lia; vm_compute; lia.
Qed.

Lemma level_depth_le_3 (r : option nat) : level_depth (level_of_rank r) <= 3.
Proof.
  destruct r as [[|[|i]]|]; vm_compute; lia.
Qed.

Lemma ranked_sorted (hs : list candidate) :
  StronglySorted (fun x y => (y <= x)%Q) (ranked_font_sizes hs).
Proof.
  unfold ranked_font_sizes.
  eapply StronglySorted_weaken;
    [|apply (sort_by_sorted (fun a b : Q => Qltb b a)
                            (fun a b H => Qdesc_asym a b H) Qdesc_trans)].
  intros x y H. unfold not_after in H. apply Qltb_ge in H. exact H.
Qed.

Lemma ranked_represents (hs : list candidate) (h : candidate) :
  In h hs ->
  exists y, In y (ranked_font_sizes hs) /\ (y == h_font_size h)%Q.
Proof.
  intros Hh. unfold ranked_font_sizes.
  destruct (distinct_Q_represents (h_font_size h) (map h_font_size hs))
    as [y [Hy E]]; [apply in_map, Hh|].
  exists y. split; [apply (sort_by_In (fun a b : Q => Qltb b a)), Hy|exact E].
Qed.

(** X7: the level that the font rank gives never gets deeper as the
    font grows: of two candidates of a document, the one with the
    larger (or an equal) font size gets a level that is the same or
    nearer to H1. *)
Theorem X7_phase1_monotone (hs : list candidate) (a b : candidate)
        (Ha : In a hs) (Hb : In b hs)
        (Hfs : (h_font_size b <= h_font_size a)%Q) :
  level_depth (phase1_level hs a) <= level_depth (phase1_level hs b).
Proof.
  unfold phase1_level. rewrite !dict_get_rank.
  set (r := ranked_font_sizes (sort_by font_lt hs)).
  assert (Ha' : In a (sort_by font_lt hs)) by (apply sort_by_In, Ha).
  destruct (find_rank_found (h_font_size a) r) as [i Hi];
    [apply ranked_represents, Ha'|].
  rewrite Hi.
  destruct (find_rank (h_font_size b) r) as [j|] eqn:Hj.
  - apply level_depth_rank.
    apply (find_rank_monotone r (ranked_sorted _) _ _ i j Hfs Hi Hj).
  - apply level_depth_le_3.
Qed.

(** Two candidates of the page of the example on ties. *)
Definition results_candidate : candidate :=
  candidate_of 1 (_get_doc_stats same_line_page)
               (mk_block "Results" 12 true 72 300).
Definition summary_candidate : candidate :=
  candidate_of 1 (_get_doc_stats same_line_page)
               (mk_block "Summary" 18 true 200 300).

Lemma X7_phase1_monotone_witness :
  In summary_candidate [results_candidate; summary_candidate] /\
  In results_candidate [results_candidate; summary_candidate] /\
  (h_font_size results_candidate <= h_font_size summary_candidate)%Q /\
  level_depth (phase1_level [results_candidate; summary_candidate]
                            summary_candidate)
  <= level_depth (phase1_level [results_candidate; summary_candidate]
                               results_candidate).
Proof.
  assert (Ha : In summary_candidate [results_candidate; summary_candidate])
    by (simpl; tauto).
  assert (Hb : In results_candidate [results_candidate; summary_candidate])
    by (simpl; tauto).
  assert (Hfs : (h_font_size results_candidate
                 <= h_font_size summary_candidate)%Q)
    by (vm_compute; discriminate).
  split; [exact Ha|]. split; [exact Hb|]. split; [exact Hfs|].
  exact (X7_phase1_monotone _ _ _ Ha Hb Hfs).
Defined.

(** X8: when all the candidates have the same font size, the font rank
    gives each of them H1: every level is H1 except where the numbering
    of the text forces H2 or H3. *)
Theorem X8_single_font_size (hs : list candidate) (st : doc_stats) (f : Q)
        (H : forallb (fun h => Qeqb (h_font_size h) f) hs = true) :
  Forall (fun c =>
            c_level c = override_level (strip (h_text (c_cand c))) "H1")
         (_classify_headings hs st).
Proof.
  rewrite forallb_forall in H.
  rewrite classify_map. apply List.Forall_forall. intros c Hc.
  apply in_map_iff in Hc. destruct Hc as [h [<- Hh]]. simpl.
  apply (proj1 (sort_by_In font_lt h hs)) in Hh.
  rewrite refine_level_override. f_equal.
  apply phase1_top; [exact Hh|].
  intros h' Hh'. pose proof (H h Hh) as E1. pose proof (H h' Hh') as E2.
  apply Qeqb_eq in E1, E2. lra.
Qed.

Lemma X8_single_font_size_witness :
  forallb (fun h => Qeqb (h_font_size h) 14)
          (potential_headings numbered_pages (_get_doc_stats numbered_pages))
  = true /\
  Forall (fun c =>
            c_level c = override_level (strip (h_text (c_cand c))) "H1")
         (_classify_headings
            (potential_headings numbered_pages (_get_doc_stats numbered_pages))
            (_get_doc_stats numbered_pages)).
Proof.
  assert (H : forallb (fun h => Qeqb (h_font_size h) 14)
                (potential_headings numbered_pages
                                    (_get_doc_stats numbered_pages)) = true)
    by (vm_compute; reflexivity).
  split; [exact H|]. exact (X8_single_font_size _ _ 14%Q H).
Defined.

End FontRank.

(** * The callers: validation of the output ([utils.py]), the parser
    ([pdf_parser.py]) and [process_pdf] ([main.py]) *)

(** ** Python values *)

Set Warnings "-register-all".

(** The values a result dictionary is made of.  A dictionary is the
    list of its items; its keys are strings and occur once. *)
Inductive pyval : Type :=
| PNone
| PBool (b : bool)
| PInt (z : Z)
| PFloat (q : Q)
| PStr (s : str)
| PList (l : list pyval)
| PDict (d : list (str * pyval)).

Module Utils.
Import Chars Str.

Fixpoint str_eqb (a b : str) : bool :=
  match a, b with
  | [], [] => true
  | x :: a', y :: b' => Chars.eqb x y && str_eqb a' b'
  | _, _ => false
  end.

(** [d[key]], [None] when [key not in d]. *)
Fixpoint dict_lookup (key : str) (d : list (str * pyval)) : option pyval :=
  match d with
  | [] => None
  | (k, v) :: rest => if str_eqb k key then Some v else dict_lookup key rest
  end.

(** [key in d] *)
Definition has_key (key : str) (d : list (str * pyval)) : bool :=
  match dict_lookup key d with Some _ => true | None => false end.

(** [x in ['H1', 'H2', 'H3']] *)
Definition is_level_value (v : pyval) : bool :=
  match v with
  | PStr s => str_eqb s (lit "H1") || str_eqb s (lit "H2")
              || str_eqb s (lit "H3")
  | _ => false
  end.

(** [isinstance(v, str) and v.strip()] as a truth value *)
Definition is_nonblank_str (v : pyval) : bool :=
  match v with
  | PStr s => match strip s with [] => false | _ => true end
  | _ => false
  end.

(** [isinstance(v, int) and not v < 1]; a [bool] is an [int] in
    Python, [True] being 1 and [False] 0. *)
Definition is_positive_int (v : pyval) : bool :=
  match v with
  | PInt z => negb (z <? 1)%Z
  | PBool b => b
  | _ => false
  end.

(** The loop over [required_fields]. *)
Fixpoint has_fields (fields : list str) (d : list (str * pyval)) : bool :=
  match fields with
  | [] => true
  | field :: rest => if has_key field d then has_fields rest d else false
  end.

Definition required_fields : list str := map lit ["level"; "text"; "page"]%string.

(** The body of the loop of [validate_output] over the outline: [false]
    is the [return False] of the source. *)
Definition heading_valid (heading : pyval) : bool :=
  match heading with
  | PDict d =>
      if negb (has_fields required_fields d) then false
      else
        match dict_lookup (lit "level") d, dict_lookup (lit "text") d,
              dict_lookup (lit "page") d with
        | Some lv, Some tx, Some pg =>
            if negb (is_level_value lv) then false
            else if negb (is_nonblank_str tx) then false
            else if negb (is_positive_int pg) then false
            else true
        | _, _, _ => false      (* not reached: the fields are there *)
        end
  | _ => false
  end.

Fixpoint headings_valid (outline : list pyval) : bool :=
  match outline with
  | [] => true
  | heading :: rest =>
      if heading_valid heading then headings_valid rest else false
  end.

(** [validate_output] *)
Definition validate_output (data : pyval) : bool :=
  match data with
  | PDict d =>
      if negb (has_key (lit "title") d) then false
      else if negb (has_key (lit "outline") d) then false
      else
        match dict_lookup (lit "title") d with
        | Some (PStr _) =>
            match dict_lookup (lit "outline") d with
            | Some (PList outline) => headings_valid outline
            | _ => false
            end
        | _ => false
        end
  | _ => false
  end.

(** [clean_text] *)
Definition clean_text (t : str) : str :=
  match t with
  | [] => []
  | _ =>
      let t := join (lit " ") (split t) in
      let t := List.filter
                 (fun char => (32 <=? code char)
                              || Chars.eqb char "010" || Chars.eqb char "009")
                 t in
      strip t
  end.

End Utils.

(** ** The parser *)

Module PDFParser.
Import Chars Str.

(** A bounding box [x0, y0, x1, y1], as PyMuPDF gives it. *)
Definition bbox : Type := (Q * Q * Q * Q)%type.
Definition bbox0 : bbox := (0, 0, 0, 0)%Q.
Definition bx0 (b : bbox) : Q := fst (fst (fst b)).
Definition by0 (b : bbox) : Q := snd (fst (fst b)).
Definition bx1 (b : bbox) : Q := snd (fst b).
Definition by1 (b : bbox) : Q := snd b.

(** The dictionaries of [page.get_text("dict")]; a key that may be
    missing is an option. *)
Record span : Type := {
  sp_text : option str;
  sp_size : option Q;
  sp_font : option str;
  sp_flags : option Z;
  sp_bbox : option bbox;
  sp_color : option Z
}.

Record line : Type := {
  ln_spans : option (list span);
  ln_bbox : option bbox
}.

(** A block; an image block has no key ["lines"]. *)
Record raw_block : Type := {
  rb_lines : option (list line);
  rb_bbox : option bbox
}.

(** What the methods of a PyMuPDF page return: [None] stands for a
    call that raises. *)
Record fitz_page : Type := {
  fz_dict : option (option (list raw_block));  (* get_text("dict"), its "blocks" *)
  fz_text : option str;                        (* get_text() *)
  fz_rect : bbox                               (* rect *)
}.

(** The dictionary [text_info]. *)
Record text_info : Type := {
  ti_text : str;
  ti_font_size : Q;
  ti_font_name : str;
  ti_font_flags : Z;
  ti_bbox : bbox;
  ti_color : Z;
  ti_line_bbox : bbox;
  ti_block_bbox : bbox;
  ti_is_bold : bool;
  ti_is_italic : bool;
  ti_x_position : Q;
  ti_y_position : Q;
  ti_text_width : Q;
  ti_text_height : Q
}.

(** The dictionary [page_data]. *)
Record page_data : Type := {
  pd_page_number : Z;
  pd_text_blocks : list text_info;
  pd_page_text : str;
  pd_page_bbox : bbox
}.

Definition get {A : Type} (o : option A) (default : A) : A :=
  match o with Some a => a | None => default end.

(** [_is_bold] and [_is_italic] *)
Definition _is_bold (flags : Z) : bool := negb (Z.land flags (2 ^ 4) =? 0)%Z.
Definition _is_italic (flags : Z) : bool := negb (Z.land flags (2 ^ 1) =? 0)%Z.

(** The body of the inner loop of [_process_text_block]: the block that
    a span adds, if any. *)
Definition span_info (b : raw_block) (l : line) (s : span)
  : option text_info :=
  let t := strip (get (sp_text s) []) in
  match t with
  | [] => None
  | _ =>
      let flags := get (sp_flags s) 0%Z in
      let box := get (sp_bbox s) bbox0 in
      Some {| ti_text := t;
              ti_font_size := get (sp_size s) 12%Q;
              ti_font_name := get (sp_font s) [];
              ti_font_flags := flags;
              ti_bbox := box;
              ti_color := get (sp_color s) 0%Z;
              ti_line_bbox := get (ln_bbox l) bbox0;
              ti_block_bbox := get (rb_bbox b) bbox0;
              ti_is_bold := _is_bold flags;
              ti_is_italic := _is_italic flags;
              ti_x_position := bx0 box;
              ti_y_position := by0 box;
              ti_text_width := (bx1 box - bx0 box)%Q;
              ti_text_height := (by1 box - by0 box)%Q |}
  end.

Fixpoint spans_loop (b : raw_block) (l : line) (spans : list span)
         (text_blocks : list text_info) : list text_info :=
  match spans with
  | [] => text_blocks
  | s :: rest =>
      match span_info b l s with
      | None => spans_loop b l rest text_blocks
      | Some info => spans_loop b l rest (text_blocks ++ [info])
      end
  end.

Fixpoint lines_loop (b : raw_block) (lines : list line)
         (text_blocks : list text_info) : list text_info :=
  match lines with
  | [] => text_blocks
  | l :: rest =>
      lines_loop b rest (spans_loop b l (get (ln_spans l) []) text_blocks)
  end.

(** [_process_text_block]: the blocks of the page after the call. *)
Definition _process_text_block (b : raw_block) (text_blocks : list text_info)
  : list text_info :=
  lines_loop b (get (rb_lines b) []) text_blocks.

(** The loop of [_extract_page_data] over the blocks. *)
Fixpoint blocks_loop (blocks : list raw_block) (text_blocks : list text_info)
  : list text_info :=
  match blocks with
  | [] => text_blocks
  | b :: rest =>
      match rb_lines b with
      | Some _ => blocks_loop rest (_process_text_block b text_blocks)
      | None => blocks_loop rest text_blocks
      end
  end.

(** [_extract_page_data]; [None] when the exception of [get_text()]
    leaves the method.  When [get_text("dict")] raises, the page has no
    blocks and the plain text is read in the handler. *)
Definition _extract_page_data (pg : fitz_page) (page_num : Z)
  : option page_data :=
  match fz_dict pg with
  | Some blocks =>
      let text_blocks := blocks_loop (get blocks []) [] in
      match fz_text pg with
      | Some t => Some {| pd_page_number := page_num;
                          pd_text_blocks := text_blocks;
                          pd_page_text := t;
                          pd_page_bbox := fz_rect pg |}
      | None => None    (* raised in [try], and again in the handler *)
      end
  | None =>
      match fz_text pg with
      | Some t => Some {| pd_page_number := page_num;
                          pd_text_blocks := [];
                          pd_page_text := t;
                          pd_page_bbox := fz_rect pg |}
      | None => None
      end
  end.

(** The loop of [parse_pdf] from the page of index [page_num]; [None]
    when a page raises. *)
Fixpoint pages_loop (pages : list fitz_page) (page_num : nat)
         (pages_data : list page_data) : option (list page_data) :=
  match pages with
  | [] => Some pages_data
  | pg :: rest =>
      match _extract_page_data pg (Z.of_nat page_num + 1) with
      | Some d => pages_loop rest (S page_num) (pages_data ++ [d])
      | None => None
      end
  end.

(** [parse_pdf]; the document is [None] when [fitz.open] raises.  Any
    exception gives the empty list. *)
Definition parse_pdf (doc : option (list fitz_page)) : list page_data :=
  match doc with
  | Some pages =>
      match pages_loop pages 0 [] with
      | Some pages_data => pages_data
      | None => []
      end
  | None => []
  end.

(** The keys of a block and of a page that the extractor reads. *)
Definition to_block (i : text_info) : block :=
  {| text := ti_text i;
     font_size := ti_font_size i;
     is_bold := ti_is_bold i;
     x_position := ti_x_position i;
     y_position := ti_y_position i;
     b_page_number := None |}.

Definition to_page (d : page_data) : page :=
  {| page_number := pd_page_number d;
     text_blocks := map to_block (pd_text_blocks d) |}.

End PDFParser.

(** ** [process_pdf] *)

Module Main.
Import Str Utils PDFParser.

Definition heading_value (h : heading) : pyval :=
  PDict [ (lit "level", PStr (lit (level h)));
          (lit "text", PStr (o_text h));
          (lit "page", PInt (o_page h)) ].

(** [result = {"title": title, "outline": headings}] *)
Definition result_value (title : str) (headings : list heading) : pyval :=
  PDict [ (lit "title", PStr title);
          (lit "outline", PList (map heading_value headings)) ].

(** [process_pdf], as a function of the document and of whether
    [save_json_output] succeeds. *)
Definition process_pdf (doc : option (list fitz_page)) (saved : bool) : bool :=
  let pages_data := parse_pdf doc in
  match pages_data with
  | [] => false
  | _ =>
      let pages := map to_page pages_data in
      let title := HeadingExtractor.extract_title pages in
      let headings := HeadingExtractor.extract_headings pages in
      let result := result_value title headings in
      if negb (validate_output result) then false
      else saved
  end.

End Main.

(** ** Properties of the parser *)

Section ParserFacts.
Import PDFParser.

Lemma pages_loop_numbers (pages : list fitz_page) :
  forall (n : nat) (acc out : list page_data),
    pages_loop pages n acc = Some out ->
    exists new,
      out = acc ++ new /\ length new = length pages /\
      map pd_page_number new = map Z.of_nat (seq (S n) (length pages)).
Proof.
  induction pages as [|pg rest IH]; intros n acc out H; simpl in H.
  - injection H as <-. exists []. rewrite app_nil_r. auto.
  - destruct (_extract_page_data pg (Z.of_nat n + 1)) as [d|] eqn:E;
      [|discriminate].
    destruct (IH _ _ _ H) as [new [-> [L M]]].
    exists (d :: new). rewrite <- app_assoc. split; [reflexivity|].
    split; [simpl; rewrite L; reflexivity|].
    simpl. rewrite M. f_equal.
    unfold _extract_page_data in E.
    destruct (fz_dict pg), (fz_text pg); try discriminate;
      injection E as <-; simpl; lia.
Qed.

(** X9: [parse_pdf] returns either no page at all or one entry for
    each page of the document, numbered 1, 2, 3, ... in order: a page
    whose text cannot be read, like a document that cannot be opened,
    empties the whole result. *)
Theorem X9_parse_pdf_pages (doc : option (list fitz_page)) :
  valid_pages (map to_page (parse_pdf doc)) /\
  (parse_pdf doc = [] \/
   exists pages, doc = Some pages /\
                 length (parse_pdf doc) = length pages).
Proof.
  unfold parse_pdf, valid_pages.
  destruct doc as [pages|]; [|split; [reflexivity|left; reflexivity]].
  destruct (pages_loop pages 0 []) as [out|] eqn:E;
    [|split; [reflexivity|left; reflexivity]].
  destruct (pages_loop_numbers _ _ _ _ E) as [new [-> [L M]]].
  simpl app. split.
  - rewrite map_map, length_map. rewrite L.
    change (map (fun x => page_number (to_page x)) new)
      with (map pd_page_number new). exact M.
  - right. exists pages. split; [reflexivity|exact L].
Qed.

(** What every block that the parser makes satisfies. *)
Definition block_well_formed (i : text_info) : Prop :=
  ti_text i <> [] /\ Str.strip (ti_text i) = ti_text i /\
  ti_is_bold i = _is_bold (ti_font_flags i) /\
  ti_is_italic i = _is_italic (ti_font_flags i) /\
  ti_x_position i = bx0 (ti_bbox i) /\
  ti_y_position i = by0 (ti_bbox i) /\
  ti_text_width i = (bx1 (ti_bbox i) - bx0 (ti_bbox i))%Q /\
  ti_text_height i = (by1 (ti_bbox i) - by0 (ti_bbox i))%Q.

Lemma span_info_well_formed (b : raw_block) (l : line) (s : span)
      (i : text_info) :
  span_info b l s = Some i -> block_well_formed i.
Proof.
  unfold span_info.
  destruct (Str.strip (get (sp_text s) [])) as [|c r] eqn:E; [discriminate|].
  intros H. injection H as <-. unfold block_well_formed. simpl.
  split; [discriminate|]. split; [|repeat split].
  rewrite <- E. apply strip_idem.
Qed.

Lemma spans_loop_well_formed (b : raw_block) (l : line) (spans : list span) :
  forall acc, Forall block_well_formed acc ->
              Forall block_well_formed (spans_loop b l spans acc).
Proof.
  induction spans as [|s rest IH]; intros acc H; simpl; [exact H|].
  destruct (span_info b l s) as [i|] eqn:E; apply IH; [|exact H].
  apply Forall_app. split; [exact H|].
  constructor; [exact (span_info_well_formed _ _ _ _ E)|constructor].
Qed.

Lemma lines_loop_well_formed (b : raw_block) (lines : list line) :
  forall acc, Forall block_well_formed acc ->
              Forall block_well_formed (lines_loop b lines acc).
Proof.
  induction lines as [|l rest IH]; intros acc H; simpl; [exact H|].
  apply IH, spans_loop_well_formed, H.
Qed.

Lemma blocks_loop_well_formed (blocks : list raw_block) :
  forall acc, Forall block_well_formed acc ->
              Forall block_well_formed (blocks_loop blocks acc).
Proof.
  induction blocks as [|b rest IH]; intros acc H; simpl; [exact H|].
  destruct (rb_lines b); apply IH; [|exact H].
  apply lines_loop_well_formed, H.
Qed.

Lemma extract_page_data_well_formed (pg : fitz_page) (n : Z) (d : page_data) :
  _extract_page_data pg n = Some d ->
  Forall block_well_formed (pd_text_blocks d).
Proof.
  unfold _extract_page_data.
  destruct (fz_dict pg), (fz_text pg); try discriminate;
    intros H; injection H as <-; simpl.
  - apply blocks_loop_well_formed. constructor.
  - constructor.
Qed.

Lemma pages_loop_well_formed (pages : list fitz_page) :
  forall n acc out,
    pages_loop pages n acc = Some out ->
    Forall (fun d => Forall block_well_formed (pd_text_blocks d)) acc ->
    Forall (fun d => Forall block_well_formed (pd_text_blocks d)) out.
Proof.
  induction pages as [|pg rest IH]; intros n acc out H Ha; simpl in H.
  - injection H as <-. exact Ha.
  - destruct (_extract_page_data pg (Z.of_nat n + 1)) as [d|] eqn:E;
      [|discriminate].
    apply (IH _ _ _ H). apply Forall_app. split; [exact Ha|].
    constructor; [exact (extract_page_data_well_formed _ _ _ E)|constructor].
Qed.

(** X10: every text block of every page that [parse_pdf] returns has a
    text that is not empty and is already trimmed, so that the
    [strip()] the extractor applies to it changes nothing, and its
    computed keys agree with the raw ones: bold and italic are those of
    its font flags, its position is the corner of its box, its width
    and height are the differences of the box. *)
Theorem X10_parser_blocks (doc : option (list fitz_page)) :
  Forall (fun d => Forall block_well_formed (pd_text_blocks d))
         (parse_pdf doc)
  /\ Forall (fun p => Forall (fun b => Str.strip (text b) = text b /\
                                       text b <> [])
                             (text_blocks p))
            (map to_page (parse_pdf doc)).
Proof.
  assert (W : Forall (fun d => Forall block_well_formed (pd_text_blocks d))
                     (parse_pdf doc)).
  { unfold parse_pdf. destruct doc as [pages|]; [|constructor].
    destruct (pages_loop pages 0 []) as [out|] eqn:E; [|constructor].
    apply (pages_loop_well_formed _ _ _ _ E). constructor. }
  split; [exact W|].
  apply List.Forall_forall. intros p Hp.
  apply in_map_iff in Hp. destruct Hp as [d [<- Hd]].
  rewrite List.Forall_forall in W. pose proof (W d Hd) as Wd.
  apply List.Forall_forall. intros b Hb. simpl in Hb.
  apply in_map_iff in Hb. destruct Hb as [i [<- Hi]].
  rewrite List.Forall_forall in Wd. destruct (Wd i Hi) as [H1 [H2 _]].
  simpl. split; assumption.
Qed.

Lemma land_pow2_testbit (a n : Z) :
  (0 <= n)%Z -> negb (Z.land a (2 ^ n) =? 0)%Z = Z.testbit a n.
Proof.
  intros Hn. destruct (Z.testbit a n) eqn:E.
  - apply negb_true_iff, Z.eqb_neq. intros H.
    apply (f_equal (fun z => Z.testbit z n)) in H.
    rewrite Z.land_spec, E, Z.pow2_bits_true, Z.bits_0 in H by exact Hn.
    discriminate.
  - apply negb_false_iff, Z.eqb_eq. apply Z.bits_inj'. intros m Hm.
    rewrite Z.land_spec, Z.bits_0, Z.pow2_bits_eqb by exact Hn.
    destruct (Z.eqb_spec n m) as [->|N]; [rewrite E|]; 
      [reflexivity|apply andb_false_r].
Qed.

(** X11: for every integer of font flags, also a negative one,
    [_is_bold] is its bit 4 and [_is_italic] its bit 1: neither depends
    on any other bit, nor one on the other. *)
Theorem X11_bold_italic_bits (flags : Z) :
  _is_bold flags = Z.testbit flags 4 /\
  _is_italic flags = Z.testbit flags 1.
Proof.
  unfold _is_bold, _is_italic.
  split; apply land_pow2_testbit; lia.
Qed.

End ParserFacts.

(** ** The output and its validation *)

Section Validation.
Import Utils PDFParser Main.

Lemma str_eqb_eq (a b : str) : str_eqb a b = true <-> a = b.
Proof.
  revert b. induction a as [|x a IH]; intros [|y b]; simpl;
    try (split; [discriminate|discriminate]); [tauto|].
  rewrite andb_true_iff. unfold Chars.eqb. rewrite Ascii.eqb_eq, IH.
  split; [intros [-> ->]; reflexivity|intros H; injection H; auto].
Qed.

Lemma heading_value_fields (a b c : pyval) :
  let d := [ (Str.lit "level", a); (Str.lit "text", b); (Str.lit "page", c) ] in
  has_fields required_fields d = true /\
  dict_lookup (Str.lit "level") d = Some a /\
  dict_lookup (Str.lit "text") d = Some b /\
  dict_lookup (Str.lit "page") d = Some c.
Proof. repeat split; reflexivity. Qed.

Lemma heading_value_valid (h : heading) :
  is_level (level h) -> Str.strip (o_text h) <> [] -> (1 <= o_page h)%Z ->
  heading_valid (heading_value h) = true.
Proof.
  intros Hl Ht Hp. unfold heading_valid, heading_value.
  destruct (heading_value_fields (PStr (Str.lit (level h)))
                                 (PStr (o_text h)) (PInt (o_page h)))
    as [F [L1 [L2 L3]]].
  rewrite F, L1, L2, L3. cbn [negb].
  assert (E1 : is_level_value (PStr (Str.lit (level h))) = true).
  { destruct Hl as [-> | [-> | ->]]; reflexivity. }
  assert (E2 : is_nonblank_str (PStr (o_text h)) = true).
  { unfold is_nonblank_str. destruct (Str.strip (o_text h));
      [contradiction|reflexivity]. }
  assert (E3 : is_positive_int (PInt (o_page h)) = true).
  { unfold is_positive_int. apply negb_true_iff, Z.ltb_ge. exact Hp. }
  rewrite E1, E2, E3. reflexivity.
Qed.

Lemma headings_valid_map (hs : list heading) :
  Forall (fun h => is_level (level h) /\ Str.strip (o_text h) <> [] /\
                   (1 <= o_page h)%Z) hs ->
  headings_valid (map heading_value hs) = true.
Proof.
  induction 1 as [|h r [H1 [H2 H3]] _ IH]; [reflexivity|].
  cbn [map headings_valid]. rewrite heading_value_valid by assumption.
  exact IH.
Qed.

Lemma outline_entries_ok (pages_data : list page) :
  Forall (fun p => (1 <= page_number p)%Z) pages_data ->
  Forall (fun h => is_level (level h) /\ Str.strip (o_text h) <> [] /\
                   (1 <= o_page h)%Z)
         (extract_headings pages_data).
Proof.
  intros Hp. apply List.Forall_forall. intros h Hh.
  apply extract_headings_In in Hh.
  apply in_map_iff in Hh. destruct Hh as [c [<- Hc]].
  destruct (sorted_headings_In _ _ Hc) as [p [b [Hin [Hb [Ha Ec]]]]].
  unfold sorted_headings in Hc.
  apply (proj1 (sort_by_In page_y_lt c _)) in Hc.
  apply classify_In in Hc. destruct Hc as [_ Hl].
  unfold to_heading. simpl. rewrite Ec. simpl.
  split; [exact Hl|]. split.
  - rewrite strip_idem. destruct Ha as [H2 _].
    intros E. rewrite E in H2. simpl in H2. lia.
  - rewrite List.Forall_forall in Hp. apply Hp, Hin.
Qed.

Lemma output_validates (pages_data : list page) :
  Forall (fun p => (1 <= page_number p)%Z) pages_data ->
  validate_output (result_value (extract_title pages_data)
                                (extract_headings pages_data)) = true.
Proof.
  intros Hp. unfold validate_output, result_value.
  change (has_key (Str.lit "title")
            [(Str.lit "title", PStr (extract_title pages_data));
             (Str.lit "outline",
              PList (map heading_value (extract_headings pages_data)))])
    with true.
  change (has_key (Str.lit "outline")
            [(Str.lit "title", PStr (extract_title pages_data));
             (Str.lit "outline",
              PList (map heading_value (extract_headings pages_data)))])
    with true.
  cbn [negb].
  change (dict_lookup (Str.lit "title")
            [(Str.lit "title", PStr (extract_title pages_data));
             (Str.lit "outline",
              PList (map heading_value (extract_headings pages_data)))])
    with (Some (PStr (extract_title pages_data))).
  change (dict_lookup (Str.lit "outline")
            [(Str.lit "title", PStr (extract_title pages_data));
             (Str.lit "outline",
              PList (map heading_value (extract_headings pages_data)))])
    with (Some (PList (map heading_value (extract_headings pages_data)))).
  apply headings_valid_map, outline_entries_ok, Hp.
Qed.

(** X12: whenever the pages have numbers of at least 1, the result
    dictionary made of the title and of the outline of the extractor
    passes [validate_output]: the title is a string, every level is H1,
    H2 or H3, every text is a string that is not blank, every page an
    integer of at least 1. *)
Theorem X12_output_validates (pages_data : list page)
        (H : Forall (fun p => (1 <= page_number p)%Z) pages_data) :
  validate_output (result_value (extract_title pages_data)
                                (extract_headings pages_data)) = true.
Proof. exact (output_validates pages_data H). Qed.

Lemma X12_output_validates_witness :
  Forall (fun p => (1 <= page_number p)%Z) Examples.same_line_page /\
  validate_output
    (result_value (extract_title Examples.same_line_page)
                  (extract_headings Examples.same_line_page)) = true.
Proof.
  assert (H : Forall (fun p => (1 <= page_number p)%Z)
                     Examples.same_line_page).
  { repeat constructor. simpl. lia. }
  split; [exact H|]. exact (X12_output_validates _ H).
Defined.

Lemma parse_pdf_page_numbers (doc : option (list fitz_page)) :
  Forall (fun p => (1 <= page_number p)%Z) (map to_page (parse_pdf doc)).
Proof.
  assert (V : valid_pages (map to_page (parse_pdf doc))).
  { unfold parse_pdf, valid_pages.
    destruct doc as [pages|]; [|reflexivity].
    destruct (pages_loop pages 0 []) as [out|] eqn:E; [|reflexivity].
    destruct (pages_loop_numbers _ _ _ _ E) as [new [-> [L M]]].
    simpl app. rewrite map_map, length_map, L.
    change (map (fun x => page_number (to_page x)) new)
      with (map pd_page_number new). exact M. }
  apply List.Forall_forall. intros p Hp.
  exact (valid_pages_ge_1 _ _ V Hp).
Qed.

(** X13: [process_pdf] never stops at the validation of its own
    output.  It fails when the parser returns no page (a document that
    cannot be read, or one without pages), and otherwise its result is
    that of saving the file. *)
Theorem X13_process_pdf (doc : option (list fitz_page)) (saved : bool) :
  process_pdf doc saved
  = match parse_pdf doc with
    | [] => false
    | _ :: _ => saved
    end.
Proof.
  unfold process_pdf.
  pose proof (parse_pdf_page_numbers doc) as H.
  destruct (parse_pdf doc) as [|d r]; [reflexivity|].
  rewrite (output_validates _ H). reflexivity.
Qed.

(** What an accepted heading is: a dictionary with a level among H1,
    H2, H3, a text that is a string and not blank, and a page that is
    an integer of at least 1, or [True]. *)
Definition heading_contract (v : pyval) : Prop :=
  exists d lv tx pg,
    v = PDict d /\
    dict_lookup (Str.lit "level") d = Some (PStr lv) /\
    (lv = Str.lit "H1" \/ lv = Str.lit "H2" \/ lv = Str.lit "H3") /\
    dict_lookup (Str.lit "text") d = Some (PStr tx) /\
    Str.strip tx <> [] /\
    dict_lookup (Str.lit "page") d = Some pg /\
    ((exists z, pg = PInt z /\ (1 <= z)%Z) \/ pg = PBool true).

Lemma heading_valid_contract (v : pyval) :
  heading_valid v = true -> heading_contract v.
Proof.
  unfold heading_valid. destruct v as [ | | | | |l|d]; try discriminate.
  destruct (has_fields required_fields d); [|discriminate]. cbn [negb].
  destruct (dict_lookup (Str.lit "level") d) as [lv|] eqn:L1; [|discriminate].
  destruct (dict_lookup (Str.lit "text") d) as [tx|] eqn:L2; [|discriminate].
  destruct (dict_lookup (Str.lit "page") d) as [pg|] eqn:L3; [|discriminate].
  destruct (is_level_value lv) eqn:E1; [|discriminate].
  destruct (is_nonblank_str tx) eqn:E2; [|discriminate].
  destruct (is_positive_int pg) eqn:E3; [|discriminate].
  intros _.
  destruct lv as [ | | | |s| | ]; try discriminate.
  destruct tx as [ | | | |t| | ]; try discriminate.
  exists d, s, t, pg. split; [reflexivity|]. split; [exact L1|].
  split.
  { simpl in E1. rewrite !orb_true_iff, !str_eqb_eq in E1. tauto. }
  split; [exact L2|]. split.
  { simpl in E2. intros E. rewrite E in E2. discriminate. }
  split; [exact L3|].
  destruct pg as [ |b|z| | | | ]; try discriminate.
  - right. simpl in E3. rewrite E3. reflexivity.
  - left. exists z. split; [reflexivity|].
    simpl in E3. apply negb_true_iff, Z.ltb_ge in E3. exact E3.
Qed.

Lemma headings_valid_contract (outline : list pyval) :
  headings_valid outline = true -> Forall heading_contract outline.
Proof.
  induction outline as [|v r IH]; [constructor|].
  cbn [headings_valid]. destruct (heading_valid v) eqn:E; [|discriminate].
  intros H. constructor; [apply heading_valid_contract, E|apply IH, H].
Qed.

(** X14: what [validate_output] accepts is a dictionary with a title
    that is a string and an outline that is a list of headings each
    of which keeps the contract; keys beyond these are not looked at. *)
Theorem X14_validate_output_sound (data : pyval)
        (H : validate_output data = true) :
  exists d title outline,
    data = PDict d /\
    dict_lookup (Str.lit "title") d = Some (PStr title) /\
    dict_lookup (Str.lit "outline") d = Some (PList outline) /\
    Forall heading_contract outline.
Proof.
  unfold validate_output in H. destruct data as [ | | | | |l|d]; try discriminate.
  destruct (has_key (Str.lit "title") d); [|discriminate].
  destruct (has_key (Str.lit "outline") d); [|discriminate].
  cbn [negb] in H.
  destruct (dict_lookup (Str.lit "title") d) as [[ | | | |t| | ]| ] eqn:L1;
    try discriminate.
  destruct (dict_lookup (Str.lit "outline") d) as [[ | | | | |o| ]| ] eqn:L2;
    try discriminate.
  exists d, t, o. split; [reflexivity|]. split; [exact L1|].
  split; [exact L2|]. apply headings_valid_contract, H.
Qed.

(** A result with a key more, and a heading whose page is [True]. *)
Definition lenient_result : pyval :=
  PDict [ (Str.lit "title", PStr (Str.lit "Report"));
          (Str.lit "pages", PInt 3);
          (Str.lit "outline",
           PList [ PDict [ (Str.lit "level", PStr (Str.lit "H1"));
                           (Str.lit "text", PStr (Str.lit "Scope"));
                           (Str.lit "page", PBool true);
                           (Str.lit "y", PFloat 72) ] ]) ].

Lemma X14_validate_output_sound_witness :
  validate_output lenient_result = true /\
  exists d title outline,
    lenient_result = PDict d /\
    dict_lookup (Str.lit "title") d = Some (PStr title) /\
    dict_lookup (Str.lit "outline") d = Some (PList outline) /\
    Forall heading_contract outline.
Proof.
  assert (H : validate_output lenient_result = true) by reflexivity.
  split; [exact H|]. exact (X14_validate_output_sound _ H).
Defined.

End Validation.

(** ** [clean_text] *)

Section CleanText.
Import Utils.

Definition no_space (w : str) : Prop := Forall (fun c => is_space c = false) w.

(** The words of [split]: not empty, without a space, made of
    characters of the text. *)
Lemma split_from_words (s : str) :
  forall cur : str,
    no_space cur ->
    Forall (fun w => w <> [] /\ no_space w /\
                     forall c, In c w -> In c cur \/ In c s)
           (split_from cur s).
Proof.
  induction s as [|c r IH]; intros cur Hcur; simpl.
  - destruct cur as [|x cur']; [constructor|].
    constructor; [|constructor]. split; [|split].
    + intros E. apply (f_equal (@length ascii)) in E.
      rewrite length_rev in E. discriminate.
    + unfold no_space. apply List.Forall_rev. exact Hcur.
    + intros y Hy. left. apply in_rev. exact Hy.
  - destruct (is_space c) eqn:E.
    + assert (T : Forall (fun w => w <> [] /\ no_space w /\
                                   forall c0, In c0 w ->
                                              In c0 cur \/ In c0 (c :: r))
                         (split_from [] r)).
      { eapply List.Forall_impl; [|apply (IH []); constructor].
        intros w [H1 [H2 H3]]. split; [exact H1|]. split; [exact H2|].
        intros y Hy. destruct (H3 y Hy) as [[]|H]. right. right. exact H. }
      destruct cur as [|x cur']; [exact T|].
      constructor; [|exact T]. split; [|split].
      * intros E'. apply (f_equal (@length ascii)) in E'.
        rewrite length_rev in E'. discriminate.
      * unfold no_space. apply List.Forall_rev. exact Hcur.
      * intros y Hy. left. apply in_rev. exact Hy.
    + eapply List.Forall_impl; [|apply (IH (c :: cur)); constructor; assumption].
      intros w [H1 [H2 H3]]. split; [exact H1|]. split; [exact H2|].
      intros y Hy. destruct (H3 y Hy) as [[<-|H]|H].
      * right. left. reflexivity.
      * left. exact H.
      * right. right. exact H.
Qed.

Lemma split_words (t : str) :
  Forall (fun w => w <> [] /\ no_space w /\ forall c, In c w -> In c t)
         (split t).
Proof.
  eapply List.Forall_impl; [|apply (split_from_words t []); constructor].
  intros w [H1 [H2 H3]]. split; [exact H1|]. split; [exact H2|].
  intros c Hc. destruct (H3 c Hc) as [[]|H]. exact H.
Qed.

Lemma join_In (sep : str) (ws : list str) (c : ascii) :
  In c (join sep ws) -> In c sep \/ exists w, In w ws /\ In c w.
Proof.
  induction ws as [|w rest IH]; simpl; [tauto|].
  destruct rest as [|w' rest'].
  - intros H. right. exists w. auto.
  - rewrite !in_app_iff. intros [H|[H|H]].
    + right. exists w. auto.
    + left. exact H.
    + destruct (IH H) as [H'|[w0 [Hw0 Hc]]]; [left; exact H'|].
      right. exists w0. split; [right; exact Hw0|exact Hc].
Qed.

(** The characters of the text with its spaces normalised: a blank, or
    a character of the text that is not a space. *)
Lemma join_split_chars (t : str) (c : ascii) :
  In c (join (lit " ") (split t)) ->
  c = " "%char \/ (is_space c = false /\ In c t).
Proof.
  intros H. apply join_In in H. destruct H as [[<-|[]]|[w [Hw Hc]]].
  - left. reflexivity.
  - right. pose proof (split_words t) as S.
    rewrite List.Forall_forall in S. destruct (S w Hw) as [_ [H2 H3]].
    unfold no_space in H2. rewrite List.Forall_forall in H2. auto.
Qed.

Lemma strip_In (s : str) (c : ascii) : In c (strip s) -> In c s.
Proof.
  intros H. unfold strip in H.
  destruct (rstrip_prefix (lstrip s)) as [w Hw].
  destruct (lstrip_suffix s) as [w' Hw'].
  rewrite Hw'. apply in_app_iff. right.
  rewrite Hw. apply in_app_iff. left. exact H.
Qed.

Definition printable (c : ascii) : bool :=
  (32 <=? code c) || Chars.eqb c "010" || Chars.eqb c "009".

Lemma printable_not_space (c : ascii) :
  printable c = true -> is_space c = false -> (32 <=? code c) = true.
Proof.
  destruct c as [[] [] [] [] [] [] [] []]; vm_compute; intros; congruence.
Qed.

(** X15: the text that [clean_text] returns has no character below 32
    (no control character, no tab, no line break) and neither starts
    nor ends with a space. *)
Theorem X15_clean_text_shape (t : str) :
  Forall (fun c => 32 <= code c) (clean_text t) /\
  strip (clean_text t) = clean_text t.
Proof.
  unfold clean_text. destruct t as [|x r]; [split; [constructor|reflexivity]|].
  set (t := x :: r). split; [|apply strip_idem].
  apply List.Forall_forall. intros c Hc.
  apply strip_In in Hc. apply filter_In in Hc. destruct Hc as [Hc Hp].
  apply Nat.leb_le.
  destruct (join_split_chars t c Hc) as [->|[Hs _]]; [reflexivity|].
  apply printable_not_space; assumption.
Qed.

Lemma join_first (sep : str) (ws : list str) (c : ascii) (r : str) :
  Forall (fun w => w <> [] /\ no_space w) ws ->
  join sep ws = c :: r -> is_space c = false.
Proof.
  intros H. destruct H as [|w rest [H1 H2] _]; [discriminate|].
  destruct w as [|y w']; [contradiction|].
  assert (Hy : is_space y = false) by (inversion H2; assumption).
  simpl. destruct rest; simpl; intros E; injection E as <- _; exact Hy.
Qed.

Lemma join_last (sep : str) (ws : list str) :
  Forall (fun w => w <> [] /\ no_space w) ws ->
  ws <> [] ->
  exists pre c, join sep ws = pre ++ [c] /\ is_space c = false.
Proof.
  induction 1 as [|w rest [H1 H2] Hrest IH]; intros N; [contradiction|].
  destruct rest as [|w' rest'].
  - destruct (exists_last H1) as [pre [c E]]. exists pre, c.
    simpl. split; [exact E|].
    unfold no_space in H2. rewrite E in H2.
    apply Forall_app in H2. destruct H2 as [_ H2]. inversion H2; assumption.
  - destruct IH as [pre [c [E Hc]]]; [discriminate|].
    exists (w ++ sep ++ pre), c. split; [|exact Hc].
    change (join sep (w :: w' :: rest'))
      with (w ++ sep ++ join sep (w' :: rest')).
    rewrite E, !app_assoc. reflexivity.
Qed.

Lemma join_split_stripped (t : str) :
  strip (join (lit " ") (split t)) = join (lit " ") (split t).
Proof.
  assert (W : Forall (fun w => w <> [] /\ no_space w) (split t)).
  { eapply List.Forall_impl; [|apply split_words]. intros w [H1 [H2 _]]. auto. }
  set (J := join (lit " ") (split t)).
  assert (L : lstrip J = J).
  { apply lstrip_fixed. destruct J as [|c r] eqn:E; [exact I|].
    exact (join_first _ _ _ _ W E). }
  unfold strip. rewrite L. unfold rstrip.
  destruct (split t) as [|w ws] eqn:Es; [reflexivity|].
  destruct (join_last (lit " ") (w :: ws) W) as [pre [c [E Hc]]];
    [discriminate|].
  unfold J. rewrite E, rev_app_distr. simpl rev. simpl app.
  rewrite Hc. simpl. rewrite rev_involutive. reflexivity.
Qed.

(** X16: on a text without control characters (each character is a
    space or has a code of 32 or more), [clean_text] is the text with
    its spaces normalised: its words, separated by one blank. *)
Theorem X16_clean_text_words (t : str)
        (H : forallb (fun c => (32 <=? code c) || is_space c) t = true) :
  clean_text t = join (lit " ") (split t).
Proof.
  unfold clean_text. destruct t as [|x r]; [reflexivity|].
  set (t := x :: r) in *.
  assert (F : List.filter
                (fun char => (32 <=? code char)
                             || Chars.eqb char "010" || Chars.eqb char "009")
                (join (lit " ") (split t))
              = join (lit " ") (split t)).
  { apply forallb_filter_id. apply forallb_forall. intros c Hc.
    destruct (join_split_chars t c Hc) as [->|[Hs Hin]]; [reflexivity|].
    rewrite forallb_forall in H. pose proof (H c Hin) as Hp.
    rewrite Hs, orb_false_r in Hp. rewrite Hp. reflexivity. }
  rewrite F. apply join_split_stripped.
Qed.

Lemma X16_clean_text_words_witness :
  forallb (fun c => (32 <=? code c) || is_space c)
          (lit "  Annual   report 2024 ") = true /\
  clean_text (lit "  Annual   report 2024 ")
  = join (lit " ") (split (lit "  Annual   report 2024 ")).
Proof.
  assert (H : forallb (fun c => (32 <=? code c) || is_space c)
                      (lit "  Annual   report 2024 ") = true)
    by reflexivity.
  split; [exact H|]. exact (X16_clean_text_words _ H).
Defined.

End CleanText.

(** ** More on admission *)

Section MoreAdmission.
Import Examples.

Lemma score_of_tests_bold_left :
  forall a b e f g i j k,
    PrimFloat.ltb 0.3%float
      (score_of_tests a b true true e f g false i j k) = true.
Proof.
  intros [] [] [] [] [] [] [] []; vm_compute; reflexivity.
Qed.

(** X17: a bold block that starts left of x = 100 is a heading
    candidate whenever its trimmed text has 2 to 200 characters and is
    no header or footer, whatever its font size and its text are: the
    two terms 0.2 and 0.1 add up, in floating point, to a score above
    the threshold 0.3. *)
Theorem X17_bold_left_admitted (b : block) (st : doc_stats)
        (Hbold : is_bold b = true)
        (Hleft : (x_position b < 100)%Q)
        (Hlen : 2 <= length (strip (text b)) <= 200)
        (Hhf : _is_likely_header_footer (strip (text b)) = false) :
  admitted b st.
Proof.
  unfold admitted. split; [lia|]. split; [lia|]. split; [exact Hhf|].
  unfold _calculate_heading_score.
  rewrite Hbold. apply Qltb_lt in Hleft. rewrite Hleft.
  assert (E : (200 <? length (strip (text b))) = false)
    by (apply Nat.ltb_ge; lia).
  rewrite E. apply score_of_tests_bold_left.
Qed.

Lemma X17_bold_left_admitted_witness :
  is_bold (mk_block "Results" 12 true 72 300) = true /\
  (x_position (mk_block "Results" 12 true 72 300) < 100)%Q /\
  2 <= length (strip (text (mk_block "Results" 12 true 72 300))) <= 200 /\
  _is_likely_header_footer (strip (text (mk_block "Results" 12 true 72 300)))
  = false /\
  admitted (mk_block "Results" 12 true 72 300) stats12.
Proof.
  assert (H1 : is_bold (mk_block "Results" 12 true 72 300) = true)
    by reflexivity.
  assert (H2 : (x_position (mk_block "Results" 12 true 72 300) < 100)%Q)
    by reflexivity.
  assert (H3 : 2 <= length (strip (text (mk_block "Results" 12 true 72 300)))
               <= 200) by (vm_compute; lia).
  assert (H4 : _is_likely_header_footer
                 (strip (text (mk_block "Results" 12 true 72 300))) = false)
    by reflexivity.
  split; [exact H1|]. split; [exact H2|]. split; [exact H3|].
  split; [exact H4|].
  exact (X17_bold_left_admitted _ stats12 H1 H2 H3 H4).
Defined.

End MoreAdmission.

(** ** Page numbers *)

Section PageNumbers.

Lemma is_space_to_lower (c : ascii) : is_space (to_lower c) = is_space c.
Proof. destruct c as [[] [] [] [] [] [] [] []]; reflexivity. Qed.

Lemma digit_to_lower (c : ascii) : is_digit c = true -> to_lower c = c.
Proof.
  destruct c as [[] [] [] [] [] [] [] []]; intros H;
    solve [reflexivity | vm_compute in H; discriminate H].
Qed.

Lemma lstrip_lower (s : str) : lstrip (lower s) = lower (lstrip s).
Proof.
  induction s as [|c r IH]; [reflexivity|].
  cbn [lower map lstrip]. rewrite is_space_to_lower.
  destruct (is_space c); [exact IH|reflexivity].
Qed.

Lemma strip_lower (s : str) : strip (lower s) = lower (strip s).
Proof.
  unfold strip, rstrip. rewrite lstrip_lower. unfold lower at 1.
  rewrite <- map_rev. fold (lower (rev (lstrip s))).
  rewrite lstrip_lower. unfold lower. rewrite map_rev. reflexivity.
Qed.

Lemma lower_digits (s : str) : forallb is_digit s = true -> lower s = s.
Proof.
  induction s as [|c r IH]; [reflexivity|].
  cbn [forallb lower map]. intros H. apply andb_true_iff in H.
  destruct H as [Hc Hr]. rewrite (digit_to_lower c Hc).
  f_equal. exact (IH Hr).
Qed.

(** A text that is a number and nothing else is taken for a header or
    footer, however many digits it has. *)
Lemma digits_header_footer (t : str) :
  strip t <> [] -> forallb is_digit (strip t) = true ->
  _is_likely_header_footer t = true.
Proof.
  intros N H.
  unfold _is_likely_header_footer. rewrite strip_lower.
  destruct (strip t) as [|c r] eqn:E; [contradiction|].
  rewrite (lower_digits _ H).
  assert (M : re_match false {| bol := true; items := [Rep 1 digit; Eol] |}
                       (c :: r) = true).
  { unfold re_match. cbn [items match_items].
    apply rep_all; [exact H|simpl; lia|reflexivity]. }
  unfold header_footer_patterns. cbn [matches_any_cs]. rewrite M.
  reflexivity.
Qed.

Lemma is_digit_codes (c : ascii) :
  48 <= code c <= 57 -> is_digit c = true.
Proof.
  unfold is_digit, in_range. change (code "0") with 48.
  change (code "9") with 57. intros [H1 H2].
  apply andb_true_iff. split; apply Nat.leb_le; assumption.
Qed.

Lemma digits_forallb (s : str) :
  Forall (fun c => 48 <= code c <= 57) s -> forallb is_digit s = true.
Proof.
  induction 1 as [|c r Hc _ IH]; [reflexivity|].
  simpl. rewrite (is_digit_codes c Hc). exact IH.
Qed.

(** X18: a text that, trimmed, is a number written with the digits 0
    to 9 of ASCII and nothing else is taken for a header or footer,
    however many digits it has; a block with such a text is neither
    admitted as a heading candidate nor taken into the pool of the
    title. *)
Theorem X18_number_is_header_footer (t : str)
        (N : strip t <> [])
        (H : Forall (fun c => 48 <= code c <= 57) (strip t)) :
  _is_likely_header_footer t = true /\
  (forall b st, text b = t -> admittedb b st = false) /\
  (forall b avg, text b = t -> title_ok avg b = false).
Proof.
  pose proof (digits_forallb _ H) as D.
  assert (S : _is_likely_header_footer (strip t) = true).
  { apply digits_header_footer; rewrite strip_idem; assumption. }
  split; [apply digits_header_footer; assumption|]. split.
  - intros b st <-. unfold admittedb. rewrite S.
    rewrite andb_false_r. reflexivity.
  - intros b avg <-. unfold title_ok. rewrite S.
    rewrite andb_false_r. reflexivity.
Qed.

Lemma X18_number_is_header_footer_witness :
  strip (lit " 2024 ") <> [] /\
  Forall (fun c => 48 <= code c <= 57) (strip (lit " 2024 ")) /\
  _is_likely_header_footer (lit " 2024 ") = true.
Proof.
  assert (N : strip (lit " 2024 ") <> []) by (vm_compute; discriminate).
  assert (H : Forall (fun c => 48 <= code c <= 57) (strip (lit " 2024 "))).
  { vm_compute. repeat constructor. }
  split; [exact N|]. split; [exact H|].
  exact (proj1 (X18_number_is_header_footer _ N H)).
Defined.

End PageNumbers.

(** * Blocks with missing keys

    A block is a dictionary, and the extractor reads its keys with
    [block['font_size']], [block['is_bold']], [block['x_position']] and
    [block['y_position']], which raise [KeyError] on a block that does
    not have them; only ['page_number'] is read with a default.  Here
    such a key is an option, and a method returns [None] where Python
    raises.  The candidates that [_classify_headings] and the two sorts
    work on are made by the extractor itself and have all their keys. *)

Module Dicts.
Import Chars Str HeadingExtractor.

Record block_dict : Type := {
  d_text : str;
  d_font_size : option Q;
  d_is_bold : option bool;
  d_x_position : option Q;
  d_y_position : option Q;
  d_page_number : option Z
}.

Record page_dict : Type := {
  d_number : Z;
  d_text_blocks : list block_dict
}.

Definition bind {A B : Type} (m : option A) (k : A -> option B) : option B :=
  match m with
  | Some a => k a
  | None => None
  end.

Notation "'read' x <- m 'in' k" := (bind m (fun x => k))
  (at level 10, x name, m at level 100, k at level 200, only parsing).

(** The two nested loops of [_get_doc_stats]. *)
Fixpoint font_sizes_loop (blocks : list block_dict) (all_font_sizes : list Q)
  : option (list Q) :=
  match blocks with
  | [] => Some all_font_sizes
  | b :: rest =>
      read f <- d_font_size b in
      font_sizes_loop rest (all_font_sizes ++ [f])
  end.

Fixpoint pages_font_sizes_loop (pages_data : list page_dict)
         (all_font_sizes : list Q) : option (list Q) :=
  match pages_data with
  | [] => Some all_font_sizes
  | p :: rest =>
      read sizes <- font_sizes_loop (d_text_blocks p) all_font_sizes in
      pages_font_sizes_loop rest sizes
  end.

(** [_get_doc_stats] *)
Definition _get_doc_stats (pages_data : list page_dict) : option doc_stats :=
  read all_font_sizes <- pages_font_sizes_loop pages_data [] in
  Some (stats_of_font_sizes all_font_sizes).

(** [_calculate_heading_score]: the keys are read in the order
    ['font_size'], ['is_bold'], ['x_position']. *)
Definition _calculate_heading_score (b : block_dict) (st : doc_stats)
  : option float :=
  let t := strip (d_text b) in
  let avg := get_avg_font_size st in
  read size <- d_font_size b in
  read bold <- d_is_bold b in
  read x <- d_x_position b in
  Some (score_of_tests
          (PrimFloat.ltb (avg * 1.2)%float (to_float size))
          (PrimFloat.ltb avg (to_float size))
          bold
          (Qltb x 100%Q)
          (_matches_heading_pattern t)
          (_contains_heading_keywords t)
          ((5 <=? length t) && (length t <=? 100))
          (200 <? length t)
          (_is_title_case t)
          (isupper t && (3 <? length t))
          (negb (endswith (lit ".") t) && negb (endswith (lit ",") t))).

(** The loop of [_extract_page_headings]. *)
Fixpoint page_headings_loop (page_num : Z) (st : doc_stats)
         (blocks : list block_dict) : option (list candidate) :=
  match blocks with
  | [] => Some []
  | b :: rest =>
      let t := strip (d_text b) in
      if length t <? 2 then page_headings_loop page_num st rest
      else if _is_likely_header_footer t
      then page_headings_loop page_num st rest
      else if 300 <? length t then page_headings_loop page_num st rest
      else
        read heading_score <- _calculate_heading_score b st in
        if PrimFloat.ltb 0.3%float heading_score
        then
          read size <- d_font_size b in
          read bold <- d_is_bold b in
          read y <- d_y_position b in
          read x <- d_x_position b in
          read headings <- page_headings_loop page_num st rest in
          Some ({| h_text := t;
                   h_page := page_num;
                   h_font_size := size;
                   h_is_bold := bold;
                   h_y_position := y;
                   h_x_position := x;
                   h_heading_score := heading_score;
                   h_has_numbering := _has_numbering t;
                   h_matches_pattern := _matches_heading_pattern t;
                   h_contains_keywords := _contains_heading_keywords t |}
                :: headings)
        else page_headings_loop page_num st rest
  end.

(** [_extract_page_headings] *)
Definition _extract_page_headings (p : page_dict) (st : doc_stats)
  : option (list candidate) :=
  page_headings_loop (d_number p) st (d_text_blocks p).

(** The loop over the pages in [extract_headings]. *)
Fixpoint potential_headings (pages_data : list page_dict) (st : doc_stats)
  : option (list candidate) :=
  match pages_data with
  | [] => Some []
  | p :: rest =>
      read page_headings <- _extract_page_headings p st in
      read others <- potential_headings rest st in
      Some (page_headings ++ others)
  end.

(** [extract_headings] *)
Definition extract_headings (pages_data : list page_dict)
  : option (list heading) :=
  match pages_data with
  | [] => Some []
  | _ =>
      read st <- _get_doc_stats pages_data in
      read potential <- potential_headings pages_data st in
      Some (map to_heading
                (sort_by page_y_lt (_classify_headings potential st)))
  end.

(** The loop of [extract_title] over the blocks of the first page. *)
Fixpoint title_candidates_loop (avg : float) (blocks : list block_dict)
  : option (list title_candidate) :=
  match blocks with
  | [] => Some []
  | b :: rest =>
      read size <- d_font_size b in
      if PrimFloat.ltb (to_float size) avg
      then title_candidates_loop avg rest
      else
        let t := strip (d_text b) in
        if (length t <? 3) || (200 <? length t)
        then title_candidates_loop avg rest
        else if _is_likely_header_footer t
        then title_candidates_loop avg rest
        else
          read bold <- d_is_bold b in
          read y <- d_y_position b in
          read others <- title_candidates_loop avg rest in
          Some ({| t_text := t;
                   t_font_size := size;
                   t_is_bold := bold;
                   t_y_position := y;
                   t_page_number :=
                     match d_page_number b with
                     | Some n => n
                     | None => 1%Z
                     end |}
                :: others)
  end.

(** [extract_title] *)
Definition extract_title (pages_data : list page_dict) : option str :=
  match pages_data with
  | [] => Some untitled
  | first_page :: _ =>
      match d_text_blocks first_page with
      | [] => Some untitled
      | _ =>
          read st <- _get_doc_stats pages_data in
          read title_candidates <-
            title_candidates_loop (get_avg_font_size st)
                                  (d_text_blocks first_page) in
          match sort_by title_key_lt title_candidates with
          | [] => Some untitled
          | c :: _ =>
              let title := _clean_title_text (t_text c) in
              Some (match title with
                    | [] => untitled
                    | _ => title
                    end)
          end
      end
  end.

(** A block and a page with all their keys. *)
Definition of_block (b : block) : block_dict :=
  {| d_text := text b;
     d_font_size := Some (font_size b);
     d_is_bold := Some (is_bold b);
     d_x_position := Some (x_position b);
     d_y_position := Some (y_position b);
     d_page_number := b_page_number b |}.

Definition of_page (p : page) : page_dict :=
  {| d_number := page_number p;
     d_text_blocks := map of_block (text_blocks p) |}.

(** A page with one block that has no ['font_size']. *)
Definition no_font_size : list page_dict :=
  [ {| d_number := 1;
       d_text_blocks :=
         [ {| d_text := lit "1. Introduction";
              d_font_size := None;
              d_is_bold := Some true;
              d_x_position := Some 72%Q;
              d_y_position := Some 100%Q;
              d_page_number := None |} ] |} ].

End Dicts.

(** ** Missing keys *)

Section MissingKeys.

Lemma font_sizes_loop_complete (bs : list block) :
  forall acc : list Q,
    Dicts.font_sizes_loop (map Dicts.of_block bs) acc
    = Some (acc ++ map font_size bs).
Proof.
  induction bs as [|b r IH]; intros acc; simpl.
  - rewrite app_nil_r. reflexivity.
  - rewrite IH, <- app_assoc. reflexivity.
Qed.

Lemma pages_font_sizes_loop_complete (pages_data : list page) :
  forall acc : list Q,
    Dicts.pages_font_sizes_loop (map Dicts.of_page pages_data) acc
    = Some (acc ++ all_font_sizes_of pages_data).
Proof.
  induction pages_data as [|p r IH]; intros acc; simpl.
  - rewrite app_nil_r. reflexivity.
  - rewrite font_sizes_loop_complete. simpl.
    rewrite IH, <- app_assoc. reflexivity.
Qed.

Lemma get_doc_stats_complete (pages_data : list page) :
  Dicts._get_doc_stats (map Dicts.of_page pages_data)
  = Some (_get_doc_stats pages_data).
Proof.
  unfold Dicts._get_doc_stats.
  rewrite pages_font_sizes_loop_complete. reflexivity.
Qed.

Lemma score_complete (b : block) (st : doc_stats) :
  Dicts._calculate_heading_score (Dicts.of_block b) st
  = Some (_calculate_heading_score b st).
Proof. reflexivity. Qed.

Lemma page_headings_loop_complete (n : Z) (st : doc_stats) (bs : list block) :
  Dicts.page_headings_loop n st (map Dicts.of_block bs)
  = Some (page_headings_loop n st bs).
Proof.
  induction bs as [|b r IH]; [reflexivity|].
  cbn [map Dicts.page_headings_loop page_headings_loop].
  rewrite score_complete.
  cbn [Dicts.of_block Dicts.d_text Dicts.d_font_size Dicts.d_is_bold
       Dicts.d_x_position Dicts.d_y_position Dicts.bind].
  rewrite IH.
  destruct (length (strip (text b)) <? 2); [reflexivity|].
  destruct (_is_likely_header_footer (strip (text b))); [reflexivity|].
  destruct (300 <? length (strip (text b))); [reflexivity|].
  destruct (PrimFloat.ltb 0.3 (_calculate_heading_score b st)); reflexivity.
Qed.

Lemma extract_page_headings_complete (p : page) (st : doc_stats) :
  Dicts._extract_page_headings (Dicts.of_page p) st
  = Some (_extract_page_headings p st).
Proof. apply page_headings_loop_complete. Qed.

Lemma potential_headings_complete (pages_data : list page) (st : doc_stats) :
  Dicts.potential_headings (map Dicts.of_page pages_data) st
  = Some (potential_headings pages_data st).
Proof.
  induction pages_data as [|p r IH]; [reflexivity|].
  cbn [map Dicts.potential_headings potential_headings].
  rewrite extract_page_headings_complete, IH. reflexivity.
Qed.

Lemma title_candidates_loop_complete (avg : float) (bs : list block) :
  Dicts.title_candidates_loop avg (map Dicts.of_block bs)
  = Some (title_candidates_loop avg bs).
Proof.
  induction bs as [|b r IH]; [reflexivity|].
  cbn [map Dicts.title_candidates_loop title_candidates_loop].
  cbn [Dicts.of_block Dicts.d_text Dicts.d_font_size Dicts.d_is_bold
       Dicts.d_y_position Dicts.d_page_number Dicts.bind].
  rewrite IH.
  destruct (PrimFloat.ltb (to_float (font_size b)) avg); [reflexivity|].
  destruct ((length (strip (text b)) <? 3) || (200 <? length (strip (text b))));
    [reflexivity|].
  destruct (_is_likely_header_footer (strip (text b))); reflexivity.
Qed.

Lemma extract_headings_complete (pages_data : list page) :
  Dicts.extract_headings (map Dicts.of_page pages_data)
  = Some (extract_headings pages_data).
Proof.
  destruct pages_data as [|p r]; [reflexivity|].
  unfold Dicts.extract_headings, extract_headings, sorted_headings.
  cbn [map]. change (Dicts.of_page p :: map Dicts.of_page r)
    with (map Dicts.of_page (p :: r)).
  rewrite get_doc_stats_complete. cbn [Dicts.bind].
  rewrite potential_headings_complete. reflexivity.
Qed.

Lemma extract_title_complete (pages_data : list page) :
  Dicts.extract_title (map Dicts.of_page pages_data)
  = Some (extract_title pages_data).
Proof.
  destruct pages_data as [|p r]; [reflexivity|].
  pose proof (get_doc_stats_complete (p :: r)) as S.
  pose proof (title_candidates_loop_complete
                (get_avg_font_size (_get_doc_stats (p :: r)))
                (text_blocks p)) as T.
  change (map Dicts.of_page (p :: r))
    with (Dicts.of_page p :: map Dicts.of_page r) in S |- *.
  unfold Dicts.extract_title, extract_title. rewrite S. cbn [Dicts.bind].
  change (Dicts.d_text_blocks (Dicts.of_page p))
    with (map Dicts.of_block (text_blocks p)).
  rewrite T. cbn [Dicts.bind].
  destruct (text_blocks p) as [|b bs]; [reflexivity|]. cbn [map].
  destruct (title_candidates_loop (get_avg_font_size (_get_doc_stats (p :: r)))
                                  (b :: bs)) as [|c0 cs] eqn:Et;
    [reflexivity|].
  destruct (sort_by title_key_lt (c0 :: cs)) as [|c rest]; reflexivity.
Qed.

Lemma no_blocks_concat (pages_data : list page) :
  concat (map text_blocks pages_data) = [] -> no_blocks pages_data.
Proof.
  induction pages_data as [|p r IH]; intros H; [constructor|].
  simpl in H. apply app_eq_nil in H. destruct H as [H1 H2].
  constructor; [exact H1|exact (IH H2)].
Qed.

(** C7: on a document all of whose blocks have their keys, every
    method of the extractor that reads a block returns, and returns
    what the functions on complete blocks compute; in particular on a
    document without pages, or whose pages have no blocks, the title is
    "Untitled Document" and the outline is empty. *)
Theorem C7_empty_document (pages_data : list page) :
  Dicts._get_doc_stats (map Dicts.of_page pages_data)
  = Some (_get_doc_stats pages_data)
  /\ (forall b st,
        Dicts._calculate_heading_score (Dicts.of_block b) st
        = Some (_calculate_heading_score b st))
  /\ (forall p st,
        Dicts._extract_page_headings (Dicts.of_page p) st
        = Some (_extract_page_headings p st))
  /\ Dicts.extract_title (map Dicts.of_page pages_data)
     = Some (extract_title pages_data)
  /\ Dicts.extract_headings (map Dicts.of_page pages_data)
     = Some (extract_headings pages_data)
  /\ match concat (map text_blocks pages_data) with
     | [] =>
         Dicts.extract_title (map Dicts.of_page pages_data) = Some untitled /\
         Dicts.extract_headings (map Dicts.of_page pages_data) = Some []
     | _ :: _ => True
     end.
Proof.
  split; [apply get_doc_stats_complete|].
  split; [apply score_complete|].
  split; [apply extract_page_headings_complete|].
  split; [apply extract_title_complete|].
  split; [apply extract_headings_complete|].
  destruct (concat (map text_blocks pages_data)) as [|b0 bs] eqn:E; [|exact I].
  destruct (empty_document pages_data (no_blocks_concat pages_data E))
    as [Ht Ho].
  rewrite extract_title_complete, extract_headings_complete, Ht, Ho.
  split; reflexivity.
Qed.

(** C7, as first stated, fails: a block without ['font_size'] is in the
    documented input domain, and on it the statistics, the title and
    the outline all raise [KeyError]. *)
Lemma C7_missing_font_size_counterexample :
  Dicts._get_doc_stats Dicts.no_font_size = None /\
  Dicts.extract_title Dicts.no_font_size = None /\
  Dicts.extract_headings Dicts.no_font_size = None.
Proof. repeat split; reflexivity. Qed.

End MissingKeys.

(** ** The clean-up of the title *)

Section TitleCleanup.
Import Examples.

(** The clean-up in the words of the specification.  Collapsing the
    white space: each run of white space becomes one blank. *)
Fixpoint collapse_from (in_run : bool) (s : str) : str :=
  match s with
  | [] => []
  | c :: r =>
      if is_space c
      then if in_run then collapse_from true r
           else " "%char :: collapse_from true r
      else c :: collapse_from false r
  end.

Definition collapse_whitespace (s : str) : str := collapse_from false s.

(** [t] starts with [p], the case of the letters ignored. *)
Definition starts_with_ci (p t : str) : bool :=
  startswith (lower p) (lower t).

Definition title_prefixes : list str :=
  map lit ["title:"; "document:"; "paper:"]%string.

(** At most one leading prefix is removed: the first of the list that
    the text starts with. *)
Fixpoint strip_one_prefix (prefixes : list str) (t : str) : str :=
  match prefixes with
  | [] => t
  | p :: rest =>
      if starts_with_ci p t then from (length p) t
      else strip_one_prefix rest t
  end.

Definition uppercase_first (t : str) : str :=
  match t with
  | c :: r => if is_lower c then to_upper c :: r else t
  | [] => []
  end.

(** The three steps of the specification, and nothing else. *)
Definition cleanup_as_claimed (t : str) : str :=
  uppercase_first (strip_one_prefix title_prefixes (collapse_whitespace t)).

(** The same steps, with the white space that follows a removed prefix
    removed too. *)
Definition cleanup_amended (t : str) : str :=
  uppercase_first
    (strip (strip_one_prefix title_prefixes (collapse_whitespace t))).

Definition or_untitled (title : str) : str :=
  match title with
  | [] => untitled
  | _ => title
  end.

(** The title as the specification words it. *)
Definition title_as_claimed (pages_data : list page) : str :=
  match sort_by title_key_lt (title_pool pages_data) with
  | [] => untitled
  | c :: _ => or_untitled (cleanup_as_claimed (t_text c))
  end.

(** A first page whose largest line starts with a prefix. *)
Definition prefixed_pages : list page :=
  [ {| page_number := 1;
       text_blocks :=
         [ mk_block "title: my work" 24 false 72 50;
           mk_block "some body text of the paper, first line." 5 false 72 120 ]
    |} ].

(** Does the text end with a character that is not a space? *)
Fixpoint ends_word (s : str) : bool :=
  match s with
  | [] => true
  | [c] => negb (is_space c)
  | _ :: r => ends_word r
  end.

Lemma ends_word_tail (c : ascii) (r : str) :
  ends_word (c :: r) = true -> ends_word r = true.
Proof. destruct r as [|d r']; [reflexivity|]. simpl. tauto. Qed.

Lemma ends_word_last (pre : str) (c : ascii) :
  ends_word (pre ++ [c]) = negb (is_space c).
Proof.
  induction pre as [|d p IH]; [reflexivity|].
  change ((d :: p) ++ [c]) with (d :: (p ++ [c])).
  destruct (p ++ [c]) as [|x q] eqn:E; [destruct p; discriminate|].
  exact IH.
Qed.

Lemma split_from_nonempty (s cur : str) :
  cur <> [] -> split_from cur s <> [].
Proof.
  revert cur. induction s as [|c r IH]; intros cur H; simpl.
  - destruct cur; [contradiction|discriminate].
  - destruct (is_space c).
    + destruct cur; [contradiction|discriminate].
    + apply IH. discriminate.
Qed.

Lemma join_cons (sep w : str) (rest : list str) :
  rest <> [] -> join sep (w :: rest) = w ++ sep ++ join sep rest.
Proof. destruct rest; [contradiction|reflexivity]. Qed.

(** [' '.join(s.split())] against the collapsed text, while a word is
    being read and while a run of white space is. *)
Lemma join_split_collapse (s : str) :
  ends_word s = true ->
  (forall cur, cur <> [] ->
     join (lit " ") (split_from cur s) = rev cur ++ collapse_from false s)
  /\ (s <> [] ->
      split_from [] s <> [] /\
      join (lit " ") (split_from [] s) = collapse_from true s).
Proof.
  induction s as [|c r IH]; intros E.
  - split; [|contradiction].
    intros cur H. simpl. destruct cur; [contradiction|].
    rewrite app_nil_r. reflexivity.
  - pose proof (ends_word_tail _ _ E) as Er.
    destruct (IH Er) as [G1 G2].
    destruct (is_space c) eqn:Ec.
    + assert (Nr : r <> []).
      { intros ->. simpl in E. rewrite Ec in E. discriminate. }
      destruct (G2 Nr) as [Ns J].
      split.
      * intros cur H. cbn [split_from collapse_from]. rewrite Ec.
        destruct cur as [|x cur']; [contradiction|].
        rewrite join_cons by exact Ns. rewrite J. reflexivity.
      * intros _. cbn [split_from collapse_from]. rewrite Ec.
        split; assumption.
    + split.
      * intros cur H. cbn [split_from collapse_from]. rewrite Ec.
        rewrite G1 by discriminate. simpl. rewrite <- app_assoc. reflexivity.
      * intros _. cbn [split_from collapse_from]. rewrite Ec.
        split; [apply split_from_nonempty; discriminate|].
        rewrite G1 by discriminate. reflexivity.
Qed.

Lemma stripped_ends (t : str) :
  strip t = t -> lstrip t = t /\ ends_word t = true.
Proof.
  intros H.
  assert (L : lstrip t = t).
  { rewrite <- H. unfold strip. apply lstrip_rstrip, lstrip_idem. }
  split; [exact L|].
  unfold strip in H. rewrite L in H. unfold rstrip in H.
  destruct t as [|x r]; [reflexivity|].
  assert (N : x :: r <> []) by discriminate.
  destruct (exists_last N) as [pre [c Et]]. rewrite Et in H |- *. clear L N Et.
  rewrite ends_word_last. rewrite rev_app_distr in H. simpl in H.
  destruct (is_space c) eqn:Ec; [|reflexivity].
  apply (f_equal (@length ascii)) in H.
  rewrite length_rev, length_app in H. simpl in H.
  pose proof (lstrip_length (rev pre)) as B. rewrite length_rev in B. lia.
Qed.

(** On a trimmed text, [' '.join(title.split())] collapses the runs of
    white space. *)
Lemma join_split_is_collapse (t : str) :
  strip t = t -> join (lit " ") (split t) = collapse_whitespace t.
Proof.
  intros H. destruct (stripped_ends t H) as [L E].
  unfold split, collapse_whitespace.
  destruct t as [|c r]; [reflexivity|].
  apply lstrip_fixed in L.
  cbn [split_from collapse_from]. rewrite L.
  destruct (join_split_collapse r (ends_word_tail _ _ E)) as [G1 _].
  rewrite G1 by discriminate. reflexivity.
Qed.

Lemma remove_prefix_strip_one (ps : list str) (w : str) :
  Forall (fun p => lower p = p) ps -> strip w = w ->
  remove_prefix ps w (lower w) = strip (strip_one_prefix ps w).
Proof.
  intros Hps Hw. induction Hps as [|p rest Hp _ IH]; simpl.
  - symmetry. exact Hw.
  - unfold starts_with_ci. rewrite Hp.
    destruct (startswith p (lower w)); [reflexivity|exact IH].
Qed.

(** [_clean_title_text] on a trimmed text. *)
Lemma clean_title_text_steps (t : str) :
  strip t = t -> _clean_title_text t = cleanup_amended t.
Proof.
  intros H. unfold _clean_title_text, cleanup_amended.
  rewrite <- (join_split_is_collapse t H).
  change prefixes_to_remove with title_prefixes.
  rewrite remove_prefix_strip_one;
    [|repeat constructor|apply join_split_stripped].
  unfold uppercase_first.
  destruct (strip (strip_one_prefix title_prefixes
                                    (join (lit " ") (split t))));
    reflexivity.
Qed.

Lemma title_pool_stripped (pages_data : list page) (c : title_candidate) :
  In c (title_pool pages_data) -> strip (t_text c) = t_text c.
Proof.
  unfold title_pool. destruct pages_data as [|p r]; [intros []|].
  intros H. apply in_map_iff in H. destruct H as [b [<- _]].
  apply strip_idem.
Qed.

(** C6: the pool is made of the blocks of the first page whose font
    size is not below the average, whose trimmed text has 3 to 200
    characters and which are not headers or footers.  When it is empty
    the title is "Untitled Document".  Otherwise the title is taken from
    a candidate of the pool of the largest font size and, among those,
    of the smallest y: its text with the runs of white space collapsed,
    at most one of the prefixes "title:", "document:", "paper:" removed
    whatever its case, the white space after that prefix removed, and a
    lower-case first letter made upper-case; or "Untitled Document" when
    nothing is left of the text. *)
Theorem C6_title_selection (pages_data : list page) :
  (forall avg b,
      title_ok avg b = true <->
      PrimFloat.ltb (to_float (font_size b)) avg = false /\
      3 <= length (strip (text b)) <= 200 /\
      _is_likely_header_footer (strip (text b)) = false)
  /\ match title_pool pages_data with
     | [] => extract_title pages_data = untitled
     | _ :: _ =>
         exists c,
           In c (title_pool pages_data) /\
           (forall c', In c' (title_pool pages_data) ->
              (t_font_size c' < t_font_size c)%Q \/
              ((t_font_size c' == t_font_size c)%Q /\
               (t_y_position c <= t_y_position c')%Q)) /\
           extract_title pages_data
           = or_untitled (cleanup_amended (t_text c))
     end.
Proof.
  split; [intros avg b; apply title_ok_spec|].
  rewrite extract_title_pool.
  destruct (title_pool pages_data) as [|c0 cs] eqn:Ep; [reflexivity|].
  destruct (sort_by title_key_lt (c0 :: cs)) as [|c rest] eqn:Es.
  { apply sort_by_nil_inv in Es. discriminate Es. }
  assert (Hc : In c (c0 :: cs)).
  { apply (sort_by_In title_key_lt). rewrite Es. left. reflexivity. }
  exists c. split; [exact Hc|]. split.
  - intros c' Hc'. apply title_key_lt_false.
    exact (sort_by_head title_key_lt title_key_lt_asym title_key_le_trans
                        _ _ _ Es c' Hc').
  - unfold title_from, or_untitled.
    rewrite clean_title_text_steps; [reflexivity|].
    apply (title_pool_stripped pages_data). rewrite Ep. exact Hc.
Qed.

(** C6, as first stated, fails: the three steps of the specification
    leave the blank that follows a removed prefix at the start of the
    title, and the lower-case letter after it as it is. *)
Lemma C6_prefix_blank_counterexample :
  title_as_claimed prefixed_pages = lit " my work" /\
  extract_title prefixed_pages = lit "My work" /\
  extract_title prefixed_pages <> title_as_claimed prefixed_pages.
Proof.
  assert (A : title_as_claimed prefixed_pages = lit " my work")
    by (vm_compute; reflexivity).
  assert (B : extract_title prefixed_pages = lit "My work")
    by (vm_compute; reflexivity).
  split; [exact A|]. split; [exact B|].
  rewrite A, B. discriminate.
Qed.

(** The title example of the specification, and two clean-ups. *)
Lemma title_examples :
  extract_title draft_pages = lit "Draft Paper"
  /\ _clean_title_text (lit "Title:   paper:  my   work ")
     = lit "Paper: my work"
  /\ _clean_title_text (lit "document: a study") = lit "A study".
Proof. vm_compute. repeat split. Qed.

End TitleCleanup.
